(** * Optimistic-ACK testbed: shallow embedding and verified properties

  The development follows the TypeScript sources module by module:
  - [JS]                 the JavaScript primitives the sources rely on
                         (string search, [trim], [split], [parseInt],
                         number printing, binary64 rounding);
  - [Node]               the argument check of [fs.createReadStream];
  - [TrafficAnalyzer]    monitoring/analyzers/TrafficAnalyzer.ts;
  - [DefenseSystem]      security/DefenseSystem.ts;
  - [SecurityMiddleware] security/SecurityMiddleware.ts;
  - [PacketCrafter]      malicious_client packet/PacketCrafter.ts;
  - [Attacker]           malicious_client OptimisticACKAttacker.ts;
  - [ConnectionAnalyzer] monitoring/analyzers/ConnectionAnalyzer.ts;
  - [StreamingServer]    backend/src/server/StreamingServer.ts;
  - [App]                backend/src/app.ts (the command line).
  The definitions come first; the properties follow, one module of
  facts per component.

  Conventions.  JavaScript numbers that hold byte counts, sequence
  numbers, ports and timestamps are integers, modelled by [Z]: the two
  agree up to 2^53 in absolute value, where every integer is a binary64
  number, and the statements about numbers read from a request bound
  them accordingly.  A number that may be [NaN] (the result of
  [parseInt]) is a [JS.num].  The anomaly score and the rate thresholds
  are rationals ([Q]); the anomaly score is computed as the sources
  compute it, each decimal literal and each sum, difference and quotient
  rounded to the nearest binary64 number ([JS.double]).  Strings are
  [string]s of 8-bit code units.  [Date.now()] and [Math.random()] are
  inputs of the operations that read them.  Logging is not modelled. *)

From Stdlib Require Import ZArith QArith Qround Qabs Bool List String Ascii Lia.
From Stdlib Require Import Numbers.DecimalString.
From Stdlib Require DecimalPos DecimalZ.
From stdpp Require Import gmap strings list sorting.

Local Open Scope string_scope.
Local Open Scope list_scope.
Local Open Scope Z_scope.

(* ===================================================================== *)
(** * JavaScript primitives *)
(* ===================================================================== *)

Module JS.

(** ** Numbers *)

(** A number that may be [NaN]: what [parseInt] returns.  [Int z] is
    the integer [z] itself; the number [parseInt] returns is the binary64
    number nearest to it, which is [z] when [|z| <= 2^53]. *)
Inductive num : Type :=
| NaN
| Int (z : Z).

(** Printing of an integer in a template literal: decimal digits, with a
    leading minus sign for negatives. *)
Definition Z_to_string (z : Z) : string :=
  NilZero.string_of_int (Z.to_int z).

Definition num_to_string (n : num) : string :=
  match n with
  | NaN => "NaN"
  | Int z => Z_to_string z
  end.

Definition num_sub (a b : num) : num :=
  match a, b with
  | Int x, Int y => Int (x - y)
  | _, _ => NaN
  end.

Definition num_add (a b : num) : num :=
  match a, b with
  | Int x, Int y => Int (x + y)
  | _, _ => NaN
  end.

(** Comparisons with [NaN] are false. *)
Definition num_gt (a b : num) : bool :=
  match a, b with
  | Int x, Int y => y <? x
  | _, _ => false
  end.

Definition num_lt (a b : num) : bool := num_gt b a.

(** Truthiness of a number: [0] and [NaN] are falsy. *)
Definition num_truthy (a : num) : bool :=
  match a with
  | Int z => negb (z =? 0)
  | NaN => false
  end.

(** ** Numbers with a fraction *)

(** [n / d] rounded to an integer: the nearest one, and the even one of
    two that are equally near ([0 <= n], [0 < d]). *)
Definition roundHalfEven (n d : Z) : Z :=
  let q := n / d in
  let r := n mod d in
  if 2 * r <? d then q
  else if d <? 2 * r then q + 1
  else if Z.even q then q else q + 1.

(** [(n / d) / 2^e] as a fraction. *)
Definition scaled (n d e : Z) : Z * Z :=
  if 0 <=? e then (n, d * 2 ^ e) else (n * 2 ^ (- e), d).

(** The [k] with [2^k <= n / d < 2^(k+1)], for positive [n] and [d]. *)
Definition floorLog2 (n d : Z) : Z :=
  let k := Z.log2 n - Z.log2 d in
  let '(n', d') := scaled n d k in
  if d' <=? n' then k else k - 1.

(** A finite binary64 number is [m * 2^e] with [|m| < 2^53] and
    [-1074 <= e <= 971].  [doublePos n d] is the one nearest to the
    positive fraction [n / d]: 53 significant bits (fewer below 2^-1022),
    the last one rounded to nearest, ties to even. *)
Definition doublePos (n d : Z) : Q :=
  let e := Z.max (floorLog2 n d - 52) (-1074) in
  let '(n', d') := scaled n d e in
  let m := roundHalfEven n' d' in
  if 0 <=? e then inject_Z (m * 2 ^ e) else Qred (m # Z.to_pos (2 ^ (- e))).

(** The binary64 number nearest to [x]: the value of a decimal literal,
    and of the sum, difference, product or quotient of two numbers.  (The
    overflow to [Infinity], from 2^1024 on, is not modelled.) *)
Definition double (x : Q) : Q :=
  match Qnum x with
  | Z0 => 0
  | Zpos n => doublePos (Zpos n) (Zpos (Qden x))
  | Zneg n => - doublePos (Zpos n) (Zpos (Qden x))
  end.

Global Arguments double : simpl never.

(** [x.toFixed(2)], from the exact value of the number [x]: the closest
    multiple of 1/100, the larger one in absolute value of two that are
    equally near. *)
Definition toFixed2 (x : Q) : string :=
  let hundredths := Qfloor (Qabs x * 100 + (1 # 2)) in
  let frac := hundredths mod 100 in
  (if Qle_bool 0 x then "" else "-") +:+
  Z_to_string (hundredths / 100) +:+ "." +:+
  (if frac <? 10 then "0" else "") +:+ Z_to_string frac.

(** ** Strings *)

(** Truthiness of a string: only the empty string is falsy. *)
Definition str_truthy (s : string) : bool :=
  match s with
  | EmptyString => false
  | String _ _ => true
  end.

(** [s.startsWith(p)]. *)
Definition startsWith (s p : string) : bool := String.prefix p s.

(** [s.includes(sub)]: [sub] occurs at some position of [s]. *)
Fixpoint includes (s sub : string) : bool :=
  String.prefix sub s ||
  match s with
  | EmptyString => false
  | String _ t => includes t sub
  end.

(** [s.endsWith(suf)]: some suffix of [s] is [suf]. *)
Fixpoint endsWith (s suf : string) : bool :=
  String.eqb s suf ||
  match s with
  | EmptyString => false
  | String _ t => endsWith t suf
  end.

(** White space and line terminators removed by [trim] and skipped by
    [parseInt], among the 8-bit code units: TAB, LF, VT, FF, CR, SP and
    NBSP. *)
Definition is_white (c : ascii) : bool :=
  let n := nat_of_ascii c in
  ((9 <=? n)%nat && (n <=? 13)%nat) || (n =? 32)%nat || (n =? 160)%nat.

Fixpoint trimStart (s : string) : string :=
  match s with
  | EmptyString => EmptyString
  | String c t => if is_white c then trimStart t else s
  end.

Definition trimEnd (s : string) : string :=
  String.rev (trimStart (String.rev s)).

Definition trim (s : string) : string := trimEnd (trimStart s).

(** [s.split(sep)] for a one-character separator: never empty. *)
Fixpoint split (sep : ascii) (s : string) : list string :=
  match s with
  | EmptyString => [EmptyString]
  | String c t =>
      if Ascii.eqb c sep then EmptyString :: split sep t
      else match split sep t with
           | h :: r => String c h :: r
           | [] => [String c EmptyString]
           end
  end.

(** The character does not occur in the string. *)
Fixpoint lacks (c : ascii) (s : string) : bool :=
  match s with
  | EmptyString => true
  | String x t => negb (Ascii.eqb x c) && lacks c t
  end.

Fixpoint drop (n : nat) (s : string) : string :=
  match n, s with
  | O, _ => s
  | S _, EmptyString => EmptyString
  | S k, String _ t => drop k t
  end.

(** [s.replace(/pat/, rep)] for a literal pattern: the first occurrence
    only. *)
Fixpoint replaceFirst (pat rep s : string) : string :=
  if String.prefix pat s then rep +:+ drop (String.length pat) s
  else match s with
       | EmptyString => EmptyString
       | String c t => String c (replaceFirst pat rep t)
       end.

(** ** [parseInt(s, 10)] *)

Definition digit_of (c : ascii) : option Z :=
  let n := nat_of_ascii c in
  if ((48 <=? n)%nat && (n <=? 57)%nat) then Some (Z.of_nat n - 48) else None.

(** Longest prefix of decimal digits, accumulated from [acc]; the flag
    tells whether a digit was read. *)
Fixpoint digits (s : string) (acc : Z) (seen : bool) : Z * bool :=
  match s with
  | EmptyString => (acc, seen)
  | String c t =>
      match digit_of c with
      | Some d => digits t (10 * acc + d) true
      | None => (acc, seen)
      end
  end.

Definition parseInt (s : string) : num :=
  let s := trimStart s in
  let '(neg, body) :=
    match s with
    | String "-" t => (true, t)
    | String "+" t => (false, t)
    | _ => (false, s)
    end in
  match digits body 0 false with
  | (v, true) => Int (if neg then - v else v)
  | (_, false) => NaN
  end.

(** [xs.slice(-n)]: the last [n] elements. *)
Definition lastn {A} (n : nat) (xs : list A) : list A :=
  skipn (List.length xs - n) xs.

(** ** [parseInt(s)] without a radix *)

Definition hexDigit_of (c : ascii) : option Z :=
  let n := nat_of_ascii c in
  if ((48 <=? n)%nat && (n <=? 57)%nat) then Some (Z.of_nat n - 48)
  else if ((65 <=? n)%nat && (n <=? 70)%nat) then Some (Z.of_nat n - 55)
  else if ((97 <=? n)%nat && (n <=? 102)%nat) then Some (Z.of_nat n - 87)
  else None.

(** Longest prefix of hexadecimal digits. *)
Fixpoint hexDigits (s : string) (acc : Z) (seen : bool) : Z * bool :=
  match s with
  | EmptyString => (acc, seen)
  | String c t =>
      match hexDigit_of c with
      | Some d => hexDigits t (16 * acc + d) true
      | None => (acc, seen)
      end
  end.

(** After the white space and the sign, a prefix "0x" or "0X" selects
    radix 16; the radix is 10 otherwise. *)
Definition parseIntAuto (s : string) : num :=
  let s := trimStart s in
  let '(neg, body) :=
    match s with
    | String "-" t => (true, t)
    | String "+" t => (false, t)
    | _ => (false, s)
    end in
  let parsed :=
    match body with
    | String "0" (String "x" t) | String "0" (String "X" t) => hexDigits t 0 false
    | _ => digits body 0 false
    end in
  match parsed with
  | (v, true) => Int (if neg then - v else v)
  | (_, false) => NaN
  end.

(** [Number.MAX_SAFE_INTEGER] *)
Definition maxSafeInteger : Z := 2 ^ 53 - 1.

End JS.

(* ===================================================================== *)
(** * Node.js: file streams *)
(* ===================================================================== *)

Module Node.

(** [validateInteger(value, name, 0)]: the value is an integer from 0 to
    [Number.MAX_SAFE_INTEGER]; [NaN] is not.  (The number [parseInt]
    returns passes exactly when the integer it is rounded from does:
    both bounds are binary64 numbers, and rounding to nearest crosses
    neither.) *)
Definition validateInteger (value : JS.num) : bool :=
  match value with
  | JS.Int z => (0 <=? z) && (z <=? JS.maxSafeInteger)
  | JS.NaN => false
  end.

(** The check [fs.createReadStream(path, { start, end })] makes of its
    options when both are numbers: each is validated, and [start] is not
    to exceed [end]; otherwise the call throws a [RangeError]
    (ERR_OUT_OF_RANGE).  The size of the file plays no part: a stream
    that is accepted ends where the file ends. *)
Definition createReadStream (start end_ : JS.num) : bool :=
  validateInteger start && validateInteger end_ && negb (JS.num_gt start end_).

End Node.
(* ===================================================================== *)
(** * Traffic Analyzer (monitoring/analyzers/TrafficAnalyzer.ts) *)
(* ===================================================================== *)

Module TrafficAnalyzer.

Record TrafficPattern : Type := mkTrafficPattern {
  timestamp : Z;
  sourceIP : string;
  destinationIP : string;
  sourcePort : Z;
  destinationPort : Z;
  sequenceNumber : Z;
  ackNumber : Z;
  windowSize : Z;
  flags : list string;
  dataLength : Z
}.

Record AttackSignature : Type := mkAttackSignature {
  rapidACKs : bool;
  abnormalWindowGrowth : bool;
  sequenceGaps : bool;
  suspiciousPattern : bool
}.

(** The three private fields of the class. *)
Record state : Type := mkState {
  trafficHistory : list TrafficPattern;
  windowSizeHistory : gmap string (list Z);
  ackFrequencyMap : gmap string (list Z)
}.

Definition initial : state := mkState [] ∅ ∅.

(** [`${packet.sourceIP}:${packet.sourcePort}`] *)
Definition connectionKey (packet : TrafficPattern) : string :=
  sourceIP packet +:+ ":" +:+ JS.Z_to_string (sourcePort packet).

(** [flags.includes('ACK')] *)
Definition hasFlag (f : string) (fl : list string) : bool :=
  existsb (String.eqb f) fl.

Definition updateWindowSizeHistory (packet : TrafficPattern) (st : state) : state :=
  let key := connectionKey packet in
  let history := default [] (windowSizeHistory st !! key) ++ [windowSize packet] in
  let history :=
    if (100 <? List.length history)%nat
    then skipn (List.length history - 50) history
    else history in
  mkState (trafficHistory st)
          (<[key := history]> (windowSizeHistory st))
          (ackFrequencyMap st).

(** [while (ackTimes.length > 0 && ackTimes[0] < cutoffTime) ackTimes.shift()] *)
Fixpoint shiftOld (cutoffTime : Z) (ackTimes : list Z) : list Z :=
  match ackTimes with
  | [] => []
  | t :: rest => if t <? cutoffTime then shiftOld cutoffTime rest else ackTimes
  end.

Definition updateACKFrequency (packet : TrafficPattern) (st : state) : state :=
  if negb (hasFlag "ACK" (flags packet)) then st
  else
    let key := connectionKey packet in
    let currentTime := timestamp packet in
    let ackTimes := default [] (ackFrequencyMap st !! key) ++ [currentTime] in
    let cutoffTime := currentTime - 10000 in
    mkState (trafficHistory st)
            (windowSizeHistory st)
            (<[key := shiftOld cutoffTime ackTimes]> (ackFrequencyMap st)).

Definition detectRapidACKs (now : Z) (key : string) (st : state) : bool :=
  match ackFrequencyMap st !! key with
  | None => false
  | Some ackTimes =>
      if (List.length ackTimes <? 10)%nat then false
      else
        let recentTime := now - 5000 in
        let recentACKs := List.filter (fun time => recentTime <? time) ackTimes in
        (50 <? List.length recentACKs)%nat
  end.

(** [cur > prev * 1.5], the comparison being made on rationals. *)
Definition grew (prev cur : Z) : bool :=
  negb (Qle_bool (inject_Z cur) (inject_Z prev * (3 # 2))).

(** The body of [for (let i = 1; i < recent.length; i++)]: [prev] is
    [recent[i-1]], the list holds [recent[i..]]. *)
Fixpoint growthLoop (prev : Z) (rest : list Z) (growthCount : nat) : nat :=
  match rest with
  | [] => growthCount
  | cur :: rest' =>
      growthLoop cur rest' (if grew prev cur then S growthCount else growthCount)
  end.

Definition countGrowth (recent : list Z) : nat :=
  match recent with
  | [] => O
  | first :: rest => growthLoop first rest O
  end.

Definition detectAbnormalWindowGrowth (key : string) (st : state) : bool :=
  match windowSizeHistory st !! key with
  | None => false
  | Some windowHistory =>
      if (List.length windowHistory <? 5)%nat then false
      else
        let recent := JS.lastn 5 windowHistory in
        (3 <=? countGrowth recent)%nat
  end.

(** [p.sourceIP === packet.sourceIP && p.sourcePort === packet.sourcePort] *)
Definition sameConnection (packet p : TrafficPattern) : bool :=
  String.eqb (sourceIP p) (sourceIP packet) && (sourcePort p =? sourcePort packet).

Definition detectSequenceGaps (packet : TrafficPattern) (st : state) : bool :=
  let recentPackets :=
    JS.lastn 10 (List.filter (sameConnection packet) (trafficHistory st)) in
  if (List.length recentPackets <? 2)%nat then false
  else
    match recentPackets !! (List.length recentPackets - 2)%nat with
    | None => false
    | Some lastPacket =>
        let ackGap := Z.abs (ackNumber packet - ackNumber lastPacket) in
        1000000 <? ackGap
    end.

Definition detectSuspiciousPattern (now : Z) (key : string) (st : state) : bool :=
  detectRapidACKs now key st && detectAbnormalWindowGrowth key st.

Definition detectAttackSignatures (now : Z) (packet : TrafficPattern) (st : state)
  : AttackSignature :=
  let key := connectionKey packet in
  {| rapidACKs := detectRapidACKs now key st;
     abnormalWindowGrowth := detectAbnormalWindowGrowth key st;
     sequenceGaps := detectSequenceGaps packet st;
     suspiciousPattern := detectSuspiciousPattern now key st |}.

(** [analyzePacket]; [now] is the value [Date.now()] returns during the
    call. *)
Definition analyzePacket (now : Z) (packet : TrafficPattern) (st : state)
  : state * AttackSignature :=
  let st := mkState (trafficHistory st ++ [packet])
                    (windowSizeHistory st) (ackFrequencyMap st) in
  let st := updateWindowSizeHistory packet st in
  let st := updateACKFrequency packet st in
  let st :=
    if 10000 <? Z.of_nat (List.length (trafficHistory st))
    then mkState (JS.lastn (Z.to_nat 5000) (trafficHistory st))
                 (windowSizeHistory st) (ackFrequencyMap st)
    else st in
  (st, detectAttackSignatures now packet st).

(** Feeding a list of packets, all at the same clock value. *)
Definition feed (now : Z) (packets : list TrafficPattern) (st : state) : state :=
  fold_left (fun s p => fst (analyzePacket now p s)) packets st.

(** ** The two readings of the window-growth rule *)

(** The steps of a window history: each sample paired with its successor. *)
Fixpoint steps (ws : list Z) : list (Z * Z) :=
  match ws with
  | a :: (b :: _) as rest => (a, b) :: steps rest
  | _ => []
  end.

Definition grewStep (s : Z * Z) : bool := grew (fst s) (snd s).

(** Number of growing steps, adjacent or not. *)
Definition growingSteps (ws : list Z) : nat :=
  List.length (List.filter grewStep (steps ws)).

(** Length of the longest run of adjacent growing steps; [cur] is the
    length of the run that ends at the current position. *)
Fixpoint longestRunFrom (cur best : nat) (ss : list (Z * Z)) : nat :=
  match ss with
  | [] => Nat.max cur best
  | s :: rest =>
      if grewStep s then longestRunFrom (S cur) best rest
      else longestRunFrom O (Nat.max cur best) rest
  end.

Definition longestGrowthRun (ws : list Z) : nat :=
  longestRunFrom O O (steps ws).

(** ** Sample packets *)

Definition samplePacket (ack win : Z) : TrafficPattern :=
  mkTrafficPattern 0 "10.0.0.7" "10.0.0.1" 40000 3001 1 ack win ["ACK"] 0.

(** ** Definitions used in the statements *)

(** Two packets of one connection whose ack numbers differ by 1,020,000. *)
Definition gapFirst : TrafficPattern := samplePacket 0 100.

Definition gapSecond : TrafficPattern := samplePacket 1020000 100.

(** Window sizes 1000, 2000, 4000, 4000, 8000 on one connection: three
    growing steps, the third one not adjacent to the first two. *)
Definition burstWindows : list Z := [1000; 2000; 4000; 4000; 8000].

Definition burstState : state :=
  feed 0 (List.map (samplePacket 0) burstWindows) initial.

Definition burstKey : string := connectionKey (samplePacket 0 0).

(** ** Definitions used in the statements about memory *)

(** Packets analysed in order, each with the clock value of its call. *)
Definition analyzeAll (inputs : list (Z * TrafficPattern)) (st : state) : state :=
  fold_left (fun s input => (analyzePacket input.1 input.2 s).1) inputs st.

Definition windowSizes (key : string) (st : state) : list Z :=
  default [] (windowSizeHistory st !! key).

Definition ackTimes (key : string) (st : state) : list Z :=
  default [] (ackFrequencyMap st !! key).

(** A list of ACK times kept by [updateACKFrequency] when the newest one
    is at most [latest]: in order, and within ten seconds of the newest. *)
Definition ackWindow (latest : Z) (times : list Z) : Prop :=
  StronglySorted Z.le times
  ∧ Forall (fun t => t <= latest) times
  ∧ ∀ newest, last times = Some newest → Forall (fun t => newest - 10000 <= t) times.

(** Three ACKs of one connection, at 0, 6 and 12 seconds. *)
Definition ackBurst : list (Z * TrafficPattern) :=
  List.map
    (fun t => (t, mkTrafficPattern t "10.0.0.7" "10.0.0.1" 40000 3001 1 1 100 ["ACK"] 0))
    [0; 6000; 12000].

End TrafficAnalyzer.

(* ===================================================================== *)
(** * Defense System (security/DefenseSystem.ts) *)
(* ===================================================================== *)

Module DefenseSystem.

Record DefenseConfig : Type := mkDefenseConfig {
  ackValidationEnabled : bool;
  rateLimitingEnabled : bool;
  sequenceTrackingEnabled : bool;
  adaptiveWindowEnabled : bool;
  anomalyDetectionEnabled : bool;
  quarantineEnabled : bool;
  maxACKsPerSecond : Z;
  maxWindowGrowthRate : Q;
  maxSequenceGap : Z;
  suspiciousPatternThreshold : Q;
  quarantineDuration : Z
}.

(** The defaults of the constructor. *)
Definition defaultConfig : DefenseConfig :=
  {| ackValidationEnabled := true;
     rateLimitingEnabled := true;
     sequenceTrackingEnabled := true;
     adaptiveWindowEnabled := true;
     anomalyDetectionEnabled := true;
     quarantineEnabled := true;
     maxACKsPerSecond := 100;
     maxWindowGrowthRate := 2;
     maxSequenceGap := 1048576;
     suspiciousPatternThreshold := JS.double (7 # 10);
     quarantineDuration := 300000 |}.

Record ConnectionState : Type := mkConnectionState {
  ip : string;
  port : Z;
  expectedSeq : Z;
  expectedAck : Z;
  lastValidAck : Z;
  windowSize : Z;
  ackCount : Z;
  lastACKTime : Z;
  suspicious : bool;
  quarantined : bool;
  quarantineUntil : Z;
  anomalyScore : Q
}.

Inductive ActionType : Type := block | rate_limit | quarantine | alert | reject_packet.
Inductive Severity : Type := low | medium | high | critical.

Record DefenseAction : Type := mkDefenseAction {
  type : ActionType;
  reason : string;
  severity : Severity;
  timestamp : Z;
  connectionId : string
}.

Record AttackSignature : Type := mkAttackSignature {
  rapidACKs : bool;
  abnormalWindowGrowth : bool;
  sequenceGaps : bool;
  suspiciousPattern : bool
}.

(** The fields of the class.  [emitted] is the sequence of
    ['defenseAction'] events emitted so far, oldest first; [timers]
    holds the pending [setTimeout] releases as (due time, ip). *)
Record state : Type := mkState {
  config : DefenseConfig;
  connectionStates : gmap string ConnectionState;
  quarantinedIPs : gset string;
  defenseActions : list DefenseAction;
  emitted : list DefenseAction;
  timers : list (Z * string)
}.

Definition create (cfg : DefenseConfig) : state := mkState cfg ∅ ∅ [] [] [].

(** The return value of [validateConnection] and [runDefenseChecks]. *)
Record verdict : Type := mkVerdict {
  allowed : bool;
  action : option DefenseAction
}.

(** [`${ip}:${port}`] *)
Definition connId (ip : string) (port : Z) : string :=
  ip +:+ ":" +:+ JS.Z_to_string port.

Definition hasFlag (f : string) (fl : list string) : bool :=
  existsb (String.eqb f) fl.

(** ** Rational helpers: [Math.min], [Math.max], [<], [>=] *)

Definition Qmin' (a b : Q) : Q := if Qle_bool a b then a else b.
Definition Qmax' (a b : Q) : Q := if Qle_bool a b then b else a.
Definition Qgtb (a b : Q) : bool := negb (Qle_bool a b).
Definition Qgeb (a b : Q) : bool := Qle_bool b a.

(** ** Mutations of one connection state *)

(** The score is a binary64 number: [increment] is one, and the sum is
    rounded to one. *)
Definition updateAnomalyScore (increment : Q) (c : ConnectionState) : ConnectionState :=
  let score := Qmin' 1 (JS.double (anomalyScore c + increment)) in
  mkConnectionState (ip c) (port c) (expectedSeq c) (expectedAck c) (lastValidAck c)
    (windowSize c) (ackCount c) (lastACKTime c)
    (if Qgtb score (1 # 2) then true else suspicious c)
    (quarantined c) (quarantineUntil c) score.

Definition updateConnectionState (seq ack win : Z) (c : ConnectionState) : ConnectionState :=
  mkConnectionState (ip c) (port c) seq ack (Z.max (lastValidAck c) ack)
    win (ackCount c) (lastACKTime c) (suspicious c)
    (quarantined c) (quarantineUntil c)
    (Qmax' 0 (JS.double (anomalyScore c - JS.double (1 # 100)))).

Definition setQuarantine (b : bool) (until : Z) (c : ConnectionState) : ConnectionState :=
  mkConnectionState (ip c) (port c) (expectedSeq c) (expectedAck c) (lastValidAck c)
    (windowSize c) (ackCount c) (lastACKTime c) (suspicious c) b until (anomalyScore c).

Definition release (c : ConnectionState) : ConnectionState :=
  mkConnectionState (ip c) (port c) (expectedSeq c) (expectedAck c) (lastValidAck c)
    (windowSize c) (ackCount c) (lastACKTime c) (suspicious c) false 0 0.

Definition markSuspicious (c : ConnectionState) : ConnectionState :=
  mkConnectionState (ip c) (port c) (expectedSeq c) (expectedAck c) (lastValidAck c)
    (windowSize c) (ackCount c) (lastACKTime c) true
    (quarantined c) (quarantineUntil c)
    (Qmin' 1 (JS.double (anomalyScore c + JS.double (1 # 2)))).

(** ** The individual checks *)

Definition validateACKNumber (cfg : DefenseConfig) (c : ConnectionState) (ack : Z)
  : bool * string :=
  let ackAdvance := ack - lastValidAck c in
  let suspiciousAdvanceThreshold := maxSequenceGap cfg * 2 in
  if suspiciousAdvanceThreshold <? ackAdvance then
    (false,
     "Highly suspicious ACK detected: advancing " +:+ JS.Z_to_string ackAdvance +:+
     " bytes beyond expected (threshold: " +:+
     JS.Z_to_string suspiciousAdvanceThreshold +:+ ")")
  else if (ack <? lastValidAck c - 1024) && (1024 <? lastValidAck c) then
    (false,
     "Significant ACK regression detected: " +:+ JS.Z_to_string ack +:+ " << " +:+
     JS.Z_to_string (lastValidAck c))
  else (true, "").

(** Returns the check and the connection state with its counter
    updated. *)
Definition checkACKRateLimit (cfg : DefenseConfig) (now : Z) (c : ConnectionState)
  : (bool * string) * ConnectionState :=
  let timeSinceLastACK := now - lastACKTime c in
  let '(count, last) :=
    if 1000 <? timeSinceLastACK then (0, now) else (ackCount c, lastACKTime c) in
  let count := count + 1 in
  let c' :=
    mkConnectionState (ip c) (port c) (expectedSeq c) (expectedAck c) (lastValidAck c)
      (windowSize c) count last (suspicious c)
      (quarantined c) (quarantineUntil c) (anomalyScore c) in
  let effectiveLimit := maxACKsPerSecond cfg * 3 in
  if effectiveLimit <? count then
    ((false,
      "Extreme ACK rate limit exceeded: " +:+ JS.Z_to_string count +:+
      " ACKs/second (limit: " +:+ JS.Z_to_string effectiveLimit +:+ ")"), c')
  else ((true, ""), c').

Definition validateSequenceNumber (c : ConnectionState) (seq : Z) : bool * string :=
  let maxSeqDeviation := 65536 in
  if 0 <? expectedSeq c then
    let seqDeviation := Z.abs (seq - expectedSeq c) in
    if maxSeqDeviation <? seqDeviation then
      (false,
       "Sequence number deviation too large: " +:+ JS.Z_to_string seqDeviation +:+ " bytes")
    else (true, "")
  else (true, "").

Definition validateWindowSize (cfg : DefenseConfig) (c : ConnectionState) (win : Z)
  : bool * string :=
  if 0 <? windowSize c then
    let growthRate := JS.double (inject_Z win / inject_Z (windowSize c)) in
    if Qgtb growthRate (maxWindowGrowthRate cfg) then
      (false, "Abnormal window growth: " +:+ JS.toFixed2 growthRate +:+ "x increase")
    else (true, "")
  else (true, "").

(** [anomalies.join(', ')] *)
Fixpoint join (sep : string) (xs : list string) : string :=
  match xs with
  | [] => ""
  | [x] => x
  | x :: rest => x +:+ sep +:+ join sep rest
  end.

Definition anomalies (signature : AttackSignature) : list string :=
  (if rapidACKs signature then ["rapid ACK pattern"] else []) ++
  (if abnormalWindowGrowth signature then ["abnormal window growth"] else []) ++
  (if sequenceGaps signature then ["large sequence gaps"] else []) ++
  (if suspiciousPattern signature then ["suspicious traffic pattern"] else []).

Definition detectAnomalies (signature : AttackSignature) : bool * string :=
  let found := anomalies signature in
  if (2 <=? List.length found)%nat
  then (true, "Multiple attack indicators: " +:+ join ", " found)
  else (false, "").

(** ** Operations on the whole system *)

Definition isQuarantined (ip : string) (s : state) : bool :=
  bool_decide (ip ∈ quarantinedIPs s).

(** Write-through of a mutated connection state: the object lives in the
    map under [key]. *)
Definition putConn (key : string) (c : ConnectionState) (s : state) : state :=
  mkState (config s) (<[key := c]> (connectionStates s)) (quarantinedIPs s)
          (defenseActions s) (emitted s) (timers s).

(** The tail of [createDefenseAction]: the action is pushed on the
    history, the history is trimmed, the event is emitted. *)
Definition recordAction (a : DefenseAction) (s : state) : state :=
  let history := defenseActions s ++ [a] in
  let history :=
    if 1000 <? Z.of_nat (List.length history)
    then JS.lastn (Z.to_nat 500) history else history in
  mkState (config s) (connectionStates s) (quarantinedIPs s)
          history (emitted s ++ [a]) (timers s).

Definition createDefenseAction (ty : ActionType) (why : string) (sev : Severity)
    (cid : string) (now : Z) (s : state) : DefenseAction * state :=
  let a := mkDefenseAction ty why sev now cid in
  (a, recordAction a s).

Definition getOrCreateConnectionState (ip : string) (port : Z) (now : Z) (s : state)
  : ConnectionState * state :=
  let key := connId ip port in
  match connectionStates s !! key with
  | Some c => (c, s)
  | None =>
      let c := mkConnectionState ip port 0 0 0 0 0 now false false 0 0 in
      (c, putConn key c s)
  end.

Definition quarantineIP (addr : string) (now : Z) (s : state) : state :=
  if negb (quarantineEnabled (config s)) then s
  else
    let until := now + quarantineDuration (config s) in
    mkState (config s)
      ((fun c => if String.eqb (ip c) addr then setQuarantine true until c else c)
         <$> connectionStates s)
      ({[addr]} ∪ quarantinedIPs s)
      (defenseActions s) (emitted s)
      (timers s ++ [(until, addr)]).

Definition removeFromQuarantine (addr : string) (s : state) : state :=
  mkState (config s)
    ((fun c => if String.eqb (ip c) addr then release c else c)
       <$> connectionStates s)
    (quarantinedIPs s ∖ {[addr]})
    (defenseActions s) (emitted s) (timers s).

Definition reject (a : DefenseAction) : verdict := mkVerdict false (Some a).

(** [runDefenseChecks]: [key] is where the connection state [c] lives in
    the map ([connectionStates s !! key = Some c]); every mutation of the
    object is written through. *)
Definition runDefenseChecks (key : string) (c : ConnectionState)
    (seq ack win : Z) (flags : list string) (signature : AttackSignature)
    (now : Z) (s : state) : verdict * state :=
  let cfg := config s in
  let connectionId := connId (ip c) (port c) in
  let isLikelyAttack := suspicious c || Qgtb (anomalyScore c) (1 # 2) in
  (* 1. ACK validation *)
  let ackValidation :=
    if ackValidationEnabled cfg && hasFlag "ACK" flags && isLikelyAttack
    then validateACKNumber cfg c ack else (true, "") in
  if negb (fst ackValidation) then
    let s := putConn key (updateAnomalyScore (JS.double (3 # 10)) c) s in
    let '(a, s) := createDefenseAction reject_packet (snd ackValidation) high
                     connectionId now s in
    (reject a, s)
  else
  (* 2. rate limiting *)
  let '(rateLimitCheck, c) :=
    if rateLimitingEnabled cfg && hasFlag "ACK" flags
    then checkACKRateLimit cfg now c else ((true, ""), c) in
  let s := putConn key c s in
  if negb (fst rateLimitCheck) then
    let s := putConn key (updateAnomalyScore (JS.double (2 # 10)) c) s in
    let '(a, s) := createDefenseAction rate_limit (snd rateLimitCheck) medium
                     connectionId now s in
    (reject a, s)
  else
  (* 3. sequence tracking *)
  let seqValidation :=
    if sequenceTrackingEnabled cfg then validateSequenceNumber c seq else (true, "") in
  if negb (fst seqValidation) then
    let s := putConn key (updateAnomalyScore (JS.double (25 # 100)) c) s in
    let '(a, s) := createDefenseAction reject_packet (snd seqValidation) medium
                     connectionId now s in
    (reject a, s)
  else
  (* 4. window size: alert only *)
  let windowValidation :=
    if adaptiveWindowEnabled cfg then validateWindowSize cfg c win else (true, "") in
  let '(c, s) :=
    if negb (fst windowValidation) then
      let c := updateAnomalyScore (JS.double (2 # 10)) c in
      let s := putConn key c s in
      (c, snd (createDefenseAction alert (snd windowValidation) medium
                 connectionId now s))
    else (c, s) in
  (* 5. anomaly detection *)
  let anomalyCheck :=
    if anomalyDetectionEnabled cfg then detectAnomalies signature else (false, "") in
  if fst anomalyCheck then
    let c := updateAnomalyScore (JS.double (4 # 10)) c in
    let s := putConn key c s in
    if Qgeb (anomalyScore c) (suspiciousPatternThreshold cfg) then
      let s := quarantineIP (ip c) now s in
      let '(a, s) := createDefenseAction quarantine (snd anomalyCheck) critical
                       connectionId now s in
      (reject a, s)
    else
      let '(a, s) := createDefenseAction block (snd anomalyCheck) high
                       connectionId now s in
      (reject a, s)
  else (mkVerdict true None, s).

(** The signature [validateConnection] builds. *)
Definition mockSignature : AttackSignature := mkAttackSignature false false false false.

(** [validateConnection]; [now] is the value of [Date.now()] during the
    call. *)
Definition validateConnection (ip : string) (port seq ack win : Z)
    (flags : list string) (now : Z) (s : state) : verdict * state :=
  let connectionId := connId ip port in
  if isQuarantined ip s then
    let '(a, s) := createDefenseAction block "IP is quarantined" high connectionId now s in
    (reject a, s)
  else
    let '(c, s) := getOrCreateConnectionState ip port now s in
    let '(validationResult, s) :=
      runDefenseChecks connectionId c seq ack win flags mockSignature now s in
    if allowed validationResult then
      (validationResult,
       mkState (config s)
         (alter (updateConnectionState seq ack win) connectionId (connectionStates s))
         (quarantinedIPs s) (defenseActions s) (emitted s) (timers s))
    else (validationResult, s).

(** [markConnectionSuspicious]: the alert is emitted by
    [createDefenseAction] and once more by the caller. *)
Definition markConnectionSuspicious (ip : string) (port : Z) (why : string)
    (now : Z) (s : state) : state :=
  let '(c, s) := getOrCreateConnectionState ip port now s in
  let s := putConn (connId ip port) (markSuspicious c) s in
  let '(a, s) := createDefenseAction alert ("Connection marked suspicious: " +:+ why)
                   medium (connId ip port) now s in
  mkState (config s) (connectionStates s) (quarantinedIPs s)
          (defenseActions s) (emitted s ++ [a]) (timers s).

(** A packet of a sequence of [validateConnection] calls from one IP. *)
Record call : Type := mkCall {
  c_port : Z; c_seq : Z; c_ack : Z; c_win : Z; c_flags : list string; c_now : Z
}.

(** Runs the calls in order and collects the verdicts. *)
Fixpoint validateAll (ip : string) (calls : list call) (s : state)
  : list verdict * state :=
  match calls with
  | [] => ([], s)
  | k :: rest =>
      let '(v, s) := validateConnection ip (c_port k) (c_seq k) (c_ack k) (c_win k)
                       (c_flags k) (c_now k) s in
      let '(vs, s) := validateAll ip rest s in
      (v :: vs, s)
  end.

(** ** Definitions used in the statements *)

(** A verdict that blocks because the IP is quarantined. *)
Definition blockedAsQuarantined (v : verdict) : Prop :=
  allowed v = false ∧
  ∃ a, action v = Some a ∧ type a = block ∧ severity a = high
       ∧ reason a = "IP is quarantined".

(** The packet passes the three checks [runDefenseChecks] makes before
    the anomaly check, each one under the condition it is made under: the
    ACK validation, the rate limit and the sequence tracking. *)
Definition passesPacketChecks (cfg : DefenseConfig) (now : Z) (c : ConnectionState)
    (seq ack : Z) (flags : list string) : Prop :=
  (ackValidationEnabled cfg && hasFlag "ACK" flags
     && (suspicious c || Qgtb (anomalyScore c) (1 # 2)) = true →
   (validateACKNumber cfg c ack).1 = true)
  ∧ (rateLimitingEnabled cfg && hasFlag "ACK" flags = true →
     (checkACKRateLimit cfg now c).1.1 = true)
  ∧ (sequenceTrackingEnabled cfg = true → (validateSequenceNumber c seq).1 = true).

(** The score the anomaly check finds: the window check made before it
    has raised the score by 0.2 if the window has grown too fast. *)
Definition scoreBeforeHit (cfg : DefenseConfig) (c : ConnectionState) (win : Z) : Q :=
  if adaptiveWindowEnabled cfg && negb (validateWindowSize cfg c win).1
  then Qmin' 1 (JS.double (anomalyScore c + JS.double (2 # 10)))
  else anomalyScore c.

(** The example of the specification: threshold 0.7 and two anomaly hits
    of 0.4 on a fresh connection of 10.0.0.7:40000. *)
Definition hitSignature : AttackSignature := mkAttackSignature true false true false.

Definition hitKey : string := connId "10.0.0.7" 40000.

Definition hitFresh : ConnectionState * state :=
  getOrCreateConnectionState "10.0.0.7" 40000 0 (create defaultConfig).

Definition hitOnce : verdict * state :=
  runDefenseChecks hitKey hitFresh.1 1 1 100 [] hitSignature 1 hitFresh.2.

Definition hitConn : ConnectionState :=
  default hitFresh.1 (connectionStates hitOnce.2 !! hitKey).

Definition hitCalls : list call :=
  [mkCall 40000 2 2 100 [] 3; mkCall 40001 9 9 9 ["ACK"] 4; mkCall 40000 0 0 0 ["SYN"] 5].

(** A threshold of 0.4, which the first hit reaches and does not
    exceed. *)
Definition exactConfig : DefenseConfig :=
  mkDefenseConfig true true true true true true 100 2 1048576 (JS.double (4 # 10)) 300000.

Definition exactFresh : ConnectionState * state :=
  getOrCreateConnectionState "10.0.0.8" 40000 0 (create exactConfig).

(** Four calls on one connection: the first one sets the expected
    sequence number, the next three are far from it. *)
Definition probeCalls : list call :=
  [mkCall 5000 1 1 100 ["ACK"] 0;
   mkCall 5000 100000 1 100 ["ACK"] 1;
   mkCall 5000 100000 1 100 ["ACK"] 2;
   mkCall 5000 100000 1 100 ["ACK"] 3].

Definition probeState : state :=
  (validateAll "192.0.2.1" probeCalls (create defaultConfig)).2.

(** A verdict that rejects the packet with severity high and a reason
    that begins with [start]: what the ACK validation check returns. *)
Definition rejectedPacket (v : verdict) (start : string) : Prop :=
  allowed v = false ∧
  ∃ a, action v = Some a ∧ type a = reject_packet ∧ severity a = high
       ∧ String.prefix start (reason a) = true.

(** A connection escalated by the middleware, under the default
    configuration ([G = 1048576]). *)
Definition flaggedState : state :=
  markConnectionSuspicious "10.0.0.9" 0 "Malicious user agent: attack-simulator" 0
    (create defaultConfig).

Definition flaggedConn : ConnectionState :=
  mkConnectionState "10.0.0.9" 0 0 0 0 0 0 0 true false 0 (Qmin' 1 (0 + (1 # 2))).

(** ** The other public operations and the cleanup timer *)

(** [Partial<DefenseConfig>]: the fields that are given. *)
Record PartialConfig : Type := mkPartialConfig {
  p_ackValidationEnabled : option bool;
  p_rateLimitingEnabled : option bool;
  p_sequenceTrackingEnabled : option bool;
  p_adaptiveWindowEnabled : option bool;
  p_anomalyDetectionEnabled : option bool;
  p_quarantineEnabled : option bool;
  p_maxACKsPerSecond : option Z;
  p_maxWindowGrowthRate : option Q;
  p_maxSequenceGap : option Z;
  p_suspiciousPatternThreshold : option Q;
  p_quarantineDuration : option Z
}.

(** [{ ...this.config, ...newConfig }] *)
Definition mergeConfig (c : DefenseConfig) (n : PartialConfig) : DefenseConfig :=
  {| ackValidationEnabled := default (ackValidationEnabled c) (p_ackValidationEnabled n);
     rateLimitingEnabled := default (rateLimitingEnabled c) (p_rateLimitingEnabled n);
     sequenceTrackingEnabled :=
       default (sequenceTrackingEnabled c) (p_sequenceTrackingEnabled n);
     adaptiveWindowEnabled := default (adaptiveWindowEnabled c) (p_adaptiveWindowEnabled n);
     anomalyDetectionEnabled :=
       default (anomalyDetectionEnabled c) (p_anomalyDetectionEnabled n);
     quarantineEnabled := default (quarantineEnabled c) (p_quarantineEnabled n);
     maxACKsPerSecond := default (maxACKsPerSecond c) (p_maxACKsPerSecond n);
     maxWindowGrowthRate := default (maxWindowGrowthRate c) (p_maxWindowGrowthRate n);
     maxSequenceGap := default (maxSequenceGap c) (p_maxSequenceGap n);
     suspiciousPatternThreshold :=
       default (suspiciousPatternThreshold c) (p_suspiciousPatternThreshold n);
     quarantineDuration := default (quarantineDuration c) (p_quarantineDuration n) |}.

Definition updateConfig (newConfig : PartialConfig) (s : state) : state :=
  mkState (mergeConfig (config s) newConfig) (connectionStates s) (quarantinedIPs s)
          (defenseActions s) (emitted s) (timers s).

Definition forceRemoveFromQuarantine (addr : string) (s : state) : bool * state :=
  if bool_decide (addr ∈ quarantinedIPs s) then (true, removeFromQuarantine addr s)
  else (false, s).

Definition getConnectionState (ip : string) (port : Z) (s : state)
  : option ConnectionState :=
  connectionStates s !! connId ip port.

Definition isConnectionSuspicious (ip : string) (port : Z) (s : state) : bool :=
  match connectionStates s !! connId ip port with
  | Some c => suspicious c
  | None => false
  end.

(** One round of the loop of [cleanupExpiredStates]: the entry is read as
    the earlier rounds have left it. *)
Definition cleanupStep (now : Z) (s : state) (connectionId : string) : state :=
  match connectionStates s !! connectionId with
  | Some c =>
      if quarantined c && (quarantineUntil c <? now)
      then removeFromQuarantine (ip c) s else s
  | None => s
  end.

(** [cleanupExpiredStates], run by the timer every minute: the loop visits
    the entries of the map; a release changes neither the keys nor
    [lastACKTime], so the entries deleted at the end are those whose
    [lastACKTime] is more than ten minutes old. *)
Definition cleanupExpiredStates (now : Z) (s : state) : state :=
  let s := fold_left (cleanupStep now) (map_to_list (connectionStates s)).*1 s in
  mkState (config s)
    (filter (λ kv, ¬ (600000 < now - lastACKTime kv.2)) (connectionStates s))
    (quarantinedIPs s) (defenseActions s) (emitted s) (timers s).

(** [destroy]: the pending releases are not cancelled. *)
Definition destroy (s : state) : state :=
  mkState (config s) ∅ ∅ (defenseActions s) (emitted s) (timers s).

(** The calls that can reach a defense system from outside, and the tick
    of its cleanup timer. *)
Inductive operation : Type :=
| Validate (ip : string) (port seq ack win : Z) (flags : list string) (now : Z)
| MarkSuspicious (ip : string) (port : Z) (why : string) (now : Z)
| ForceRemove (ip : string)
| UpdateConfig (newConfig : PartialConfig)
| CleanupTick (now : Z)
| Destroy.

Definition perform (s : state) (o : operation) : state :=
  match o with
  | Validate ip port seq ack win flags now =>
      (validateConnection ip port seq ack win flags now s).2
  | MarkSuspicious ip port why now => markConnectionSuspicious ip port why now s
  | ForceRemove ip => (forceRemoveFromQuarantine ip s).2
  | UpdateConfig newConfig => updateConfig newConfig s
  | CleanupTick now => cleanupExpiredStates now s
  | Destroy => destroy s
  end.

Definition performAll (os : list operation) (s : state) : state :=
  fold_left perform os s.

(** The anomaly score is a number between 0 and 1. *)
Definition scoreInRange (c : ConnectionState) : Prop :=
  (0 <= anomalyScore c)%Q ∧ (anomalyScore c <= 1)%Q.

(** What the checks of [runDefenseChecks] may change in a connection
    state: the ACK counter and its window (under rate limiting), the
    anomaly score and the [suspicious] flag, which is never cleared. *)
Definition touched (cfg : DefenseConfig) (c c' : ConnectionState) : Prop :=
  ip c' = ip c ∧ port c' = port c
  ∧ expectedSeq c' = expectedSeq c ∧ expectedAck c' = expectedAck c
  ∧ lastValidAck c' = lastValidAck c ∧ windowSize c' = windowSize c
  ∧ quarantined c' = quarantined c ∧ quarantineUntil c' = quarantineUntil c
  ∧ (suspicious c = true → suspicious c' = true)
  ∧ (rateLimitingEnabled cfg = false →
     lastACKTime c' = lastACKTime c ∧ ackCount c' = ackCount c)
  ∧ (scoreInRange c → scoreInRange c').

(** The actions recorded in order. *)
Definition recordAll (acts : list DefenseAction) (s : state) : state :=
  fold_left (fun s a => recordAction a s) acts s.

(** The state a new connection starts from. *)
Definition freshState (ip : string) (port now : Z) : ConnectionState :=
  mkConnectionState ip port 0 0 0 0 0 now false false 0 0.

(** The verdicts [validateConnection] can produce never carry a
    [quarantine] action; such an action comes from this connection at
    this time. *)
Definition mildAction (c : ConnectionState) (now : Z) (a : DefenseAction) : Prop :=
  type a ≠ quarantine ∧ connectionId a = connId (ip c) (port c) ∧ timestamp a = now.

(** What holds of every state of a defense system: the scores are in
    range, every connection state is stored under its own identifier,
    nothing is or has been quarantined, and the history of actions is
    bounded. *)
Definition invariant (s : state) : Prop :=
  (∀ key c, connectionStates s !! key = Some c →
            scoreInRange c ∧ key = connId (ip c) (port c))
  ∧ quarantinedIPs s = ∅
  ∧ timers s = []
  ∧ Forall (λ a, type a ≠ quarantine) (emitted s)
  ∧ Z.of_nat (List.length (defenseActions s)) <= 1000.

(** The operations that delete no connection state. *)
Definition keepsStates (o : operation) : bool :=
  match o with
  | CleanupTick _ | Destroy => false
  | _ => true
  end.

(** A later state of the same connection: same endpoint, the flag still
    set if it was, the last valid ACK not lower. *)
Definition carriesOn (c c' : ConnectionState) : Prop :=
  ip c' = ip c ∧ port c' = port c
  ∧ (suspicious c = true → suspicious c' = true)
  ∧ lastValidAck c <= lastValidAck c'.

(** The rate-limit check on consecutive ACKs of one connection, arriving
    at the given times: the outcomes, and the connection state left. *)
Fixpoint checkACKRateLimitAll (cfg : DefenseConfig) (times : list Z)
    (c : ConnectionState) : list bool * ConnectionState :=
  match times with
  | [] => ([], c)
  | now :: rest =>
      let '(check, c) := checkACKRateLimit cfg now c in
      let '(checks, c) := checkACKRateLimitAll cfg rest c in
      (fst check :: checks, c)
  end.

(** A connection the ACK validation is not applied to: not marked
    suspicious, score at most 0.5. *)
Definition unflagged (c : ConnectionState) : Prop :=
  suspicious c = false ∧ Qle_bool (anomalyScore c) (1 # 2) = true.

(** The defense configuration the security middleware starts from: ACK
    validation and anomaly detection, no rate limiting. *)
Definition middlewareDefense : DefenseConfig :=
  mkDefenseConfig true false false false true true 1000 10 10485760
    (JS.double (9 # 10)) 300000.

(** A connection flagged at time 0 under that configuration. *)
Definition flaggedQuietly : state :=
  markConnectionSuspicious "10.0.0.9" 0 "Malicious user agent: attack-simulator" 0
    (create middlewareDefense).

End DefenseSystem.

(* ===================================================================== *)
(** * Security Middleware (security/SecurityMiddleware.ts) *)
(* ===================================================================== *)

Module SecurityMiddleware.

(** The part of an Express request the middleware and the handlers read:
    the (lower-cased) headers, the address of the socket, [req.ip] and
    the route parameters [filename], [streamId] and [segment].  An
    absent string property is the empty string, which is as falsy as
    [undefined]. *)
Record Request : Type := mkRequest {
  headers : gmap string string;
  remoteAddress : string;
  reqIp : string;
  filename : string;
  streamId : string;
  segment : string
}.

(** [req.headers[name] || ''] *)
Definition header (name : string) (req : Request) : string :=
  default "" (headers req !! name).

Record SecurityConfig : Type := mkSecurityConfig {
  enableSecurityHeaders : bool;
  enableConnectionThrottling : bool;
  maxConnectionsPerIP : Z;
  blocklistEnabled : bool;
  defense : DefenseSystem.DefenseConfig
}.

(** The defaults of the constructor. *)
Definition defaultConfig : SecurityConfig :=
  {| enableSecurityHeaders := true;
     enableConnectionThrottling := false;
     maxConnectionsPerIP := 500;
     blocklistEnabled := true;
     defense :=
       DefenseSystem.mkDefenseConfig true false false false true true
         1000 10 10485760 (JS.double (9 # 10)) 300000 |}.

Record state : Type := mkState {
  config : SecurityConfig;
  defenseSystem : DefenseSystem.state;
  connectionCounts : gmap string Z;
  blocklist : gset string;
  lastCleanup : Z
}.

(** The constructor; [now] initialises [lastCleanup]. *)
Definition create (cfg : SecurityConfig) (now : Z) : state :=
  mkState cfg (DefenseSystem.create (defense cfg)) ∅ ∅ now.

(** What a middleware does with a request: answer it, or pass it on. *)
Inductive decision : Type :=
| Respond (status : Z) (message : string)
| Next.

(** ** Client classification *)

Definition legitimateAgents : list string :=
  ["Mozilla/"; "Chrome/"; "Safari/"; "Firefox/"; "Edge/"; "Opera/";
   "curl/"; "wget/"; "Node.js"; "axios/"; "okhttp/"; "Python-urllib";
   "java/"; "Go-http-client"; "libcurl"; "Postman"; "Insomnia"].

Definition isLegitimateClient (userAgent : string) : bool :=
  if existsb (JS.includes userAgent) legitimateAgents then true
  else if negb (JS.str_truthy userAgent)
          || (String.length (JS.trim userAgent) =? 0)%nat then true
  else false.

Definition maliciousAgents : list string :=
  ["OptimisticACK-Attack-Tool"; "OptimisticACK-HLS-Client";
   "exploit-framework"; "attack-simulator"].

Definition suspiciousHeaders : list string :=
  ["x-attack-type"; "x-exploit"; "x-malicious"; "x-optimistic-ack"].

Definition isRapidFireRequest (ip : string) : bool := false.

(** [a || b] on strings. *)
Definition orElse (a b : string) : string := if JS.str_truthy a then a else b.

(** [req.connection] and [req.socket] are the same socket. *)
Definition getClientIP (req : Request) : string :=
  let forwarded :=
    match headers req !! "x-forwarded-for" with
    | Some v => hd "" (JS.split "," v)
    | None => ""
    end in
  orElse forwarded
    (orElse (remoteAddress req)
       (orElse (remoteAddress req) (orElse (reqIp req) "127.0.0.1"))).

Definition isAbnormalRangeRequest (rangeHeader : string) : bool :=
  let parts := JS.split "-" (JS.replaceFirst "bytes=" "" rangeHeader) in
  let start := JS.parseInt (hd "" parts) in
  let end_ : option JS.num :=
    match parts !! 1%nat with
    | Some p => if JS.str_truthy p then Some (JS.parseInt p) else None
    | None => None
    end in
  let endTruthy := match end_ with Some e => JS.num_truthy e | None => false end in
  let endNum := default JS.NaN end_ in
  if endTruthy && JS.num_gt (JS.num_sub endNum start) (JS.Int (100 * 1024 * 1024))
  then true
  else if JS.num_lt start (JS.Int 0) || (endTruthy && JS.num_lt endNum start)
  then true
  else false.

(** ** The defense system and its event handler *)

Definition addToBlocklist (ip : string) (st : state) : state :=
  mkState (config st) (defenseSystem st) (connectionCounts st)
          ({[ip]} ∪ blocklist st) (lastCleanup st).

(** The handler installed by [setupDefenseEventHandlers]. *)
Definition onDefenseAction (st : state) (a : DefenseSystem.DefenseAction) : state :=
  match DefenseSystem.type a, DefenseSystem.severity a with
  | DefenseSystem.quarantine, DefenseSystem.critical =>
      addToBlocklist (hd "" (JS.split ":" (DefenseSystem.connectionId a))) st
  | _, _ => st
  end.

(** Runs an operation of the defense system and delivers the events it
    emitted to the handler. *)
Definition callDefense (op : DefenseSystem.state → DefenseSystem.state) (st : state)
  : state :=
  let before := DefenseSystem.emitted (defenseSystem st) in
  let d := op (defenseSystem st) in
  let fresh := skipn (List.length before) (DefenseSystem.emitted d) in
  fold_left onDefenseAction fresh
    (mkState (config st) d (connectionCounts st) (blocklist st) (lastCleanup st)).

Definition isBlocked (ip : string) (st : state) : bool :=
  bool_decide (ip ∈ blocklist st).

(** [parseInt(req.headers['x-forwarded-port']) || 0]: no radix is
    given, so a value that starts with 0x is read as hexadecimal. *)
Definition forwardedPort (req : Request) : Z :=
  match headers req !! "x-forwarded-port" with
  | Some v => match JS.parseIntAuto v with JS.Int z => z | JS.NaN => 0 end
  | None => 0
  end.

(** ** [detectExplicitAttack] *)

Definition detectExplicitAttack (req : Request) (now : Z) (st : state)
  : option string * state :=
  let userAgent := header "user-agent" req in
  if isLegitimateClient userAgent then (None, st)
  else if bool_decide (headers req !! "x-simulate-attack" = Some "optimistic-ack") then
    (Some "Explicit optimistic ACK attack simulation detected", st)
  else
    match List.find (JS.includes userAgent) maliciousAgents with
    | Some maliciousAgent =>
        let clientIP := getClientIP req in
        let clientPort := forwardedPort req in
        (Some ("Malicious user agent detected: " +:+ maliciousAgent),
         callDefense
           (DefenseSystem.markConnectionSuspicious clientIP clientPort
              ("Malicious user agent: " +:+ maliciousAgent) now) st)
    | None =>
        match List.find (fun h => JS.str_truthy (header h req)) suspiciousHeaders with
        | Some h => (Some ("Suspicious header detected: " +:+ h), st)
        | None =>
            if isRapidFireRequest (getClientIP req) then
              (Some "Rapid-fire request pattern detected (potential ACK flood)", st)
            else if JS.str_truthy (header "range" req)
                    && isAbnormalRangeRequest (header "range" req) then
              (Some "Abnormal Range request pattern detected", st)
            else (None, st)
        end
    end.

(** ** Connection throttling *)

Definition checkConnectionLimit (ip : string) (st : state) : bool * state :=
  let currentConnections := default 0 (connectionCounts st !! ip) in
  let limit :=
    if String.eqb ip "127.0.0.1" || String.eqb ip "::1" || String.eqb ip "localhost"
    then maxConnectionsPerIP (config st) * 10
    else maxConnectionsPerIP (config st) in
  if limit <=? currentConnections then (false, st)
  else (true,
        mkState (config st) (defenseSystem st)
                (<[ip := currentConnections + 1]> (connectionCounts st))
                (blocklist st) (lastCleanup st)).

Definition performPeriodicCleanup (now : Z) (st : state) : state :=
  if 300000 <? now - lastCleanup st then
    mkState (config st) (defenseSystem st)
            (filter (λ kv, 0 < kv.2) (connectionCounts st))
            (blocklist st) now
  else st.

Definition securityHeaders : list (string * string) :=
  [("X-Content-Type-Options", "nosniff");
   ("X-Frame-Options", "DENY");
   ("X-XSS-Protection", "1; mode=block");
   ("Access-Control-Allow-Origin", "*");
   ("Access-Control-Allow-Methods", "GET, HEAD, OPTIONS");
   ("Access-Control-Allow-Headers", "Range, Content-Type");
   ("X-Defense-System", "active")].

(** ** The middlewares *)

(** The handler [createRequestFilter] returns: the headers set on the
    response, the decision and the new state. *)
Definition createRequestFilter (req : Request) (now : Z) (st : state)
  : list (string * string) * decision * state :=
  let clientIP := getClientIP req in
  let st := performPeriodicCleanup now st in
  let hs := if enableSecurityHeaders (config st) then securityHeaders else [] in
  if blocklistEnabled (config st) && isBlocked clientIP st then
    (hs, Respond 403 "Access denied: IP blocked due to previous attack", st)
  else if enableConnectionThrottling (config st) then
    if negb (isLegitimateClient (header "user-agent" req)) then
      let '(ok, st) := checkConnectionLimit clientIP st in
      if ok then (hs, Next, st)
      else (hs, Respond 429 "Too many simultaneous connections from this IP", st)
    else (hs, Next, st)
  else (hs, Next, st).

(** The handler [createDownloadProtection] returns. *)
Definition createDownloadProtection (req : Request) (now : Z) (st : state)
  : decision * state :=
  let clientIP := getClientIP req in
  if blocklistEnabled (config st) && isBlocked clientIP st then
    (Respond 403 "Access denied: IP blocked due to previous attack", st)
  else
    match detectExplicitAttack req now st with
    | (Some why, st) => (Respond 403 ("Attack blocked: " +:+ why), st)
    | (None, st) => (Next, st)
    end.

(** ** Stream requests *)

Definition inRange (lo hi : nat) (c : ascii) : bool :=
  let n := nat_of_ascii c in (lo <=? n)%nat && (n <=? hi)%nat.

Definition isDigit (c : ascii) : bool := inRange 48 57 c.

Fixpoint allChars (p : ascii → bool) (s : string) : bool :=
  match s with
  | EmptyString => true
  | String c t => p c && allChars p t
  end.

(** [/^[a-zA-Z0-9\-_]+$/.test(s)] *)
Definition matchesStreamId (s : string) : bool :=
  JS.str_truthy s &&
  allChars (fun c => inRange 97 122 c || inRange 65 90 c || isDigit c
                     || Ascii.eqb c "-" || Ascii.eqb c "_") s.

(** One or more digits followed by ".ts" and the end of the string. *)
Fixpoint digitsThenTs (s : string) (seen : bool) : bool :=
  match s with
  | EmptyString => false
  | String c t =>
      if isDigit c then digitsThenTs t true
      else seen && String.eqb s ".ts"
  end.

(** [/^segment\d+\.ts$|^playlist\.m3u8$/.test(s)] *)
Definition matchesSegment (s : string) : bool :=
  (JS.startsWith s "segment" && digitsThenTs (JS.drop 7 s) false)
  || String.eqb s "playlist.m3u8".

Definition validateStreamingRequest (req : Request) : bool * string :=
  if JS.str_truthy (streamId req) && negb (matchesStreamId (streamId req)) then
    (false, "Invalid stream ID format")
  else if JS.str_truthy (segment req) && negb (matchesSegment (segment req)) then
    (false, "Invalid segment format")
  else (true, "").

(** The handler [createStreamProtection] returns. *)
Definition createStreamProtection (req : Request) (now : Z) (st : state)
  : decision * state :=
  let clientIP := getClientIP req in
  if blocklistEnabled (config st) && isBlocked clientIP st then
    (Respond 403 "Access denied: IP blocked due to previous attack", st)
  else
    let streamValidation := validateStreamingRequest req in
    if negb (fst streamValidation) then (Respond 400 (snd streamValidation), st)
    else
      match detectExplicitAttack req now st with
      | (Some why, st) => (Respond 403 ("Attack blocked: " +:+ why), st)
      | (None, st) => (Next, st)
      end.

(** ** Definitions used in the statements *)

(** A request that carries every attack indicator at once, and a
    browser token in its user agent. *)
Definition disguised : Request :=
  mkRequest
    {[ "user-agent" := "OptimisticACK-Attack-Tool/1.0 (Mozilla/5.0)";
       "x-simulate-attack" := "optimistic-ack";
       "x-exploit" := "1";
       "range" := "bytes=500-100" ]}
    "10.0.0.5" "10.0.0.5" "xl.dat" "" "".

(** The same request without the browser token. *)
Definition undisguised : Request :=
  mkRequest
    {[ "user-agent" := "OptimisticACK-Attack-Tool/1.0";
       "x-simulate-attack" := "optimistic-ack";
       "x-exploit" := "1";
       "range" := "bytes=500-100" ]}
    "10.0.0.5" "10.0.0.5" "xl.dat" "" "".

(** The states of a middleware: a new one, or one that has served a
    request through one of its three entry points.  (The timers of the
    class only lower connection counts and remove blocklist entries.) *)
Inductive reachable : state → Prop :=
| reach_create cfg now : reachable (create cfg now)
| reach_filter req now st :
    reachable st → reachable (createRequestFilter req now st).2
| reach_download req now st :
    reachable st → reachable (createDownloadProtection req now st).2
| reach_stream req now st :
    reachable st → reachable (createStreamProtection req now st).2.

(** The answer given to a client on the blocklist. *)
Definition deniedAsBlocked : decision :=
  Respond 403 "Access denied: IP blocked due to previous attack".

(** The limit [checkConnectionLimit] applies to an address. *)
Definition connectionLimit (ip : string) (cfg : SecurityConfig) : Z :=
  if String.eqb ip "127.0.0.1" || String.eqb ip "::1" || String.eqb ip "localhost"
  then maxConnectionsPerIP cfg * 10
  else maxConnectionsPerIP cfg.

(** [n] calls of [checkConnectionLimit] in a row, no timer firing in
    between: the outcomes and the state left. *)
Fixpoint checkConnectionLimitAll (n : nat) (ip : string) (st : state)
  : list bool * state :=
  match n with
  | O => ([], st)
  | S n' =>
      let '(ok, st) := checkConnectionLimit ip st in
      let '(oks, st) := checkConnectionLimitAll n' ip st in
      (ok :: oks, st)
  end.

(** A middleware with 10.0.0.5 on its blocklist, and a request from that
    address that names another one in X-Forwarded-For. *)
Definition blockedState : state := addToBlocklist "10.0.0.5" (create defaultConfig 0).

Definition forwardedRequest : Request :=
  mkRequest
    {[ "x-forwarded-for" := "203.0.113.9, 10.0.0.1"; "user-agent" := "curl/8.0" ]}
    "10.0.0.5" "10.0.0.5" "xl.dat" "" "".

(** A request of the attack tool that went through a proxy, which gives
    the port of the client as 0x50. *)
Definition proxiedTool : Request :=
  mkRequest
    {[ "user-agent" := "OptimisticACK-Attack-Tool/1.0"; "x-forwarded-port" := "0x50" ]}
    "10.0.0.5" "10.0.0.5" "xl.dat" "" "".

End SecurityMiddleware.

(* ===================================================================== *)
(** * Connection Analyzer (monitoring/analyzers/ConnectionAnalyzer.ts) *)
(* ===================================================================== *)

Module ConnectionAnalyzer.

Inductive ConnectionType : Type := file_download | stream_request | websocket.

Definition typeName (t : ConnectionType) : string :=
  match t with
  | file_download => "file_download"
  | stream_request => "stream_request"
  | websocket => "websocket"
  end.

Definition typeEqb (a b : ConnectionType) : bool :=
  String.eqb (typeName a) (typeName b).

Record ConnectionData : Type := mkConnectionData {
  ip : string;
  timestamp : Z;
  type : ConnectionType;
  resource : option string;
  userAgent : option string;
  bytesTransferred : option Z;
  duration : option Z
}.

Inductive ActivityType : Type := rapid_requests | large_download | unusual_pattern.
Inductive Severity : Type := low | medium | high.

Record SuspiciousActivity : Type := mkSuspiciousActivity {
  a_ip : string;
  a_type : ActivityType;
  a_timestamp : Z;
  a_details : string;
  a_severity : Severity
}.

Record ConnectionMetrics : Type := mkConnectionMetrics {
  totalConnections : Z;
  activeConnectionCount : Z;
  connectionsByType : gmap string Z;
  averageConnectionDuration : Q;
  totalBytesTransferred : Z;
  uniqueIPs : Z;
  suspiciousActivity : list SuspiciousActivity
}.

(** The fields of the class.  [connections] is a [Map], which iterates
    in insertion order: an association list, one entry per IP.
    [emitted] is the sequence of ['suspiciousActivity'] events. *)
Record state : Type := mkState {
  connections : list (string * list ConnectionData);
  activeConnections : gset string;
  metrics : ConnectionMetrics;
  emitted : list SuspiciousActivity
}.

Definition maxConnectionHistory : Z := 1000.
Definition rapidRequests : Z := 10.
Definition largeDownload : Z := 100 * 1024 * 1024.

Definition initializeMetrics : ConnectionMetrics :=
  mkConnectionMetrics 0 0 ∅ 0 0 0 [].

Definition create : state := mkState [] ∅ initializeMetrics [].

(** ** Connection identifiers *)

(** A digit of a number printed in base 36. *)
Definition base36Digit (d : nat) : ascii :=
  let d := (d mod 36)%nat in
  if (d <? 10)%nat then ascii_of_nat (48 + d) else ascii_of_nat (87 + d).

(** [Math.random().toString(36).substr(2, 9)]: at most nine of the
    base-36 digits that follow "0." in the printed number. *)
Definition randomSuffix (fraction : list nat) : string :=
  string_of_list_ascii (List.map base36Digit (firstn 9 fraction)).

(** [generateConnectionId(connection?)]: [now] and [fraction] are what
    [Date.now()] and [Math.random()] return in the branch without
    argument. *)
Definition generateConnectionId (connection : option ConnectionData)
    (now : Z) (fraction : list nat) : string :=
  match connection with
  | Some c =>
      ip c +:+ "_" +:+ JS.Z_to_string (timestamp c) +:+ "_" +:+ typeName (type c)
  | None => JS.Z_to_string now +:+ "_" +:+ randomSuffix fraction
  end.

(** The identifier a stored connection is looked up by. *)
Definition storedId (c : ConnectionData) : string :=
  generateConnectionId (Some c) 0 [].

(** ** Map operations on the association list *)

Fixpoint lookupIP (addr : string) (m : list (string * list ConnectionData))
  : option (list ConnectionData) :=
  match m with
  | [] => None
  | (k, v) :: rest => if String.eqb k addr then Some v else lookupIP addr rest
  end.

(** [Map.set]: an existing key keeps its position. *)
Fixpoint setIP (addr : string) (v : list ConnectionData)
    (m : list (string * list ConnectionData)) : list (string * list ConnectionData) :=
  match m with
  | [] => [(addr, v)]
  | (k, old) :: rest =>
      if String.eqb k addr then (k, v) :: rest else (k, old) :: setIP addr v rest
  end.

Definition allConnections (m : list (string * list ConnectionData))
  : list ConnectionData :=
  List.concat (List.map snd m).

(** ** Metrics *)

Definition sumZ (xs : list Z) : Z := fold_left Z.add xs 0.

Definition truthyDuration (c : ConnectionData) : bool :=
  match duration c with
  | Some d => negb (d =? 0)
  | None => false
  end.

Definition countByType (cs : list ConnectionData) : gmap string Z :=
  fold_left
    (fun acc c =>
       <[typeName (type c) := default 0 (acc !! typeName (type c)) + 1]> acc)
    cs ∅.

Definition updateMetrics (st : state) : state :=
  let every := allConnections (connections st) in
  let completed := List.filter truthyDuration every in
  let total := sumZ (List.map (fun c => default 0 (duration c)) completed) in
  let avg :=
    if (0 <? List.length completed)%nat
    then JS.double (inject_Z total / inject_Z (Z.of_nat (List.length completed)))
    else 0%Q in
  mkState (connections st) (activeConnections st)
    (mkConnectionMetrics
       (Z.of_nat (List.length every))
       (Z.of_nat (size (activeConnections st)))
       (countByType every)
       avg
       (sumZ (List.map (fun c => default 0 (bytesTransferred c)) every))
       (Z.of_nat (List.length (connections st)))
       (suspiciousActivity (metrics st)))
    (emitted st).

Definition flagSuspiciousActivity (addr : string) (ty : ActivityType)
    (details : string) (sev : Severity) (now : Z) (st : state) : state :=
  let activity := mkSuspiciousActivity addr ty now details sev in
  let log := suspiciousActivity (metrics st) ++ [activity] in
  let log := if (100 <? List.length log)%nat then tl log else log in
  let m := metrics st in
  mkState (connections st) (activeConnections st)
    (mkConnectionMetrics (totalConnections m) (activeConnectionCount m)
       (connectionsByType m) (averageConnectionDuration m)
       (totalBytesTransferred m) (uniqueIPs m) log)
    (emitted st ++ [activity]).

Definition checkSuspiciousActivity (addr : string) (newConnection : ConnectionData)
    (now : Z) (st : state) : state :=
  let ipConnections := default [] (lookupIP addr (connections st)) in
  let recentConnections :=
    List.filter (fun c => now - timestamp c <? 60000) ipConnections in
  let st :=
    if rapidRequests <=? Z.of_nat (List.length recentConnections) then
      flagSuspiciousActivity addr rapid_requests
        (JS.Z_to_string (Z.of_nat (List.length recentConnections)) +:+
         " requests in the last minute") high now st
    else st in
  let typeCount :=
    List.length
      (List.filter (fun c => typeEqb (type c) (type newConnection)) recentConnections) in
  if (5 <? typeCount)%nat && typeEqb (type newConnection) file_download then
    flagSuspiciousActivity addr unusual_pattern
      ("Repeated " +:+ typeName (type newConnection) +:+ " requests") medium now st
  else st.

Definition formatBytes (bytes : Z) : string :=
  if 1024 * 1024 * 1024 <=? bytes then
    JS.toFixed2 (inject_Z bytes / inject_Z (1024 * 1024 * 1024)) +:+ " GB"
  else if 1024 * 1024 <=? bytes then
    JS.toFixed2 (inject_Z bytes / inject_Z (1024 * 1024)) +:+ " MB"
  else if 1024 <=? bytes then
    JS.toFixed2 (inject_Z bytes / inject_Z 1024) +:+ " KB"
  else JS.Z_to_string bytes +:+ " B".

(** ** The public operations *)

Definition logConnection (addr : string) (ty : ConnectionType)
    (res ua : option string) (now : Z) (fraction : list nat) (st : state)
  : string * state :=
  let connectionId := generateConnectionId None now fraction in
  let connectionData := mkConnectionData addr now ty res ua (Some 0) None in
  let ipConnections := default [] (lookupIP addr (connections st)) ++ [connectionData] in
  let ipConnections :=
    if maxConnectionHistory <? Z.of_nat (List.length ipConnections)
    then tl ipConnections else ipConnections in
  let st := mkState (setIP addr ipConnections (connections st))
                    ({[connectionId]} ∪ activeConnections st)
                    (metrics st) (emitted st) in
  let st := updateMetrics st in
  (connectionId, checkSuspiciousActivity addr connectionData now st).

(** [connections.find(c => generateConnectionId(c) === connectionId)]
    followed by a mutation of the element found: the list with the first
    match changed by [f], if there is a match. *)
Fixpoint changeFirst (connectionId : string) (f : ConnectionData → ConnectionData)
    (cs : list ConnectionData) : option (list ConnectionData) :=
  match cs with
  | [] => None
  | c :: rest =>
      if String.eqb (storedId c) connectionId then Some (f c :: rest)
      else option_map (cons c) (changeFirst connectionId f rest)
  end.

(** The loop over the entries of the map, left at the first entry that
    holds a match: the IP of the entry and the updated map. *)
Fixpoint changeInMap (connectionId : string) (f : ConnectionData → ConnectionData)
    (m : list (string * list ConnectionData))
  : option (string * list (string * list ConnectionData)) :=
  match m with
  | [] => None
  | (k, cs) :: rest =>
      match changeFirst connectionId f cs with
      | Some cs' => Some (k, (k, cs') :: rest)
      | None =>
          match changeInMap connectionId f rest with
          | Some (k', rest') => Some (k', (k, cs) :: rest')
          | None => None
          end
      end
  end.

Definition setBytes (bytes : Z) (c : ConnectionData) : ConnectionData :=
  mkConnectionData (ip c) (timestamp c) (type c) (resource c) (userAgent c)
                   (Some bytes) (duration c).

Definition setDuration (d : Z) (c : ConnectionData) : ConnectionData :=
  mkConnectionData (ip c) (timestamp c) (type c) (resource c) (userAgent c)
                   (bytesTransferred c) (Some d).

Definition updateConnectionBytes (connectionId : string) (bytes : Z) (now : Z)
    (st : state) : state :=
  match changeInMap connectionId (setBytes bytes) (connections st) with
  | Some (addr, m) =>
      let st := mkState m (activeConnections st) (metrics st) (emitted st) in
      let st := updateMetrics st in
      if largeDownload <? bytes then
        flagSuspiciousActivity addr large_download
          ("Large download detected: " +:+ formatBytes bytes) medium now st
      else st
  | None => st
  end.

Definition closeConnection (connectionId : string) (now : Z) (st : state) : state :=
  let st := mkState (connections st) (activeConnections st ∖ {[connectionId]})
                    (metrics st) (emitted st) in
  let st :=
    match changeInMap connectionId (fun c => setDuration (now - timestamp c) c)
            (connections st) with
    | Some (_, m) => mkState m (activeConnections st) (metrics st) (emitted st)
    | None => st
    end in
  updateMetrics st.

(** ** Definitions used in the statements *)

(** Number of occurrences of a character in a string. *)
Fixpoint countChar (x : ascii) (s : string) : nat :=
  match s with
  | EmptyString => O
  | String c t => ((if Ascii.eqb c x then 1 else 0) + countChar x t)%nat
  end.

(** The call [logConnection("203.0.113.5", "file_download", "xl.dat")]
    on a new analyzer at time 1700000000000, the random number printing
    as 0.k3j9x0q2a7 in base 36. *)
Definition sampleTime : Z := 1700000000000.

Definition sampleLog : string * state :=
  logConnection "203.0.113.5" file_download (Some "xl.dat") None sampleTime
    [20; 3; 19; 9; 33; 0; 26; 2; 10; 7]%nat create.

(** ** The analysis timer and the history *)

(** [getConnectionHistory(ip)] *)
Definition getConnectionHistory (addr : string) (st : state) : list ConnectionData :=
  default [] (lookupIP addr (connections st)).

(** [cleanupOldConnections]: every entry keeps its connections of the last
    24 hours, an entry left without any is deleted; the metrics are not
    recomputed. *)
Definition cleanupOldConnections (now : Z) (st : state) : state :=
  let cutoffTime := now - 24 * 60 * 60 * 1000 in
  let kept :=
    List.map (fun kv : string * list ConnectionData =>
                (kv.1, List.filter (fun c => cutoffTime <? timestamp c) kv.2))
             (connections st) in
  let m := metrics st in
  mkState
    (List.filter (fun kv : string * list ConnectionData =>
                    negb (List.length kv.2 =? 0)%nat) kept)
    (activeConnections st)
    (mkConnectionMetrics (totalConnections m) (activeConnectionCount m)
       (connectionsByType m) (averageConnectionDuration m)
       (totalBytesTransferred m) (uniqueIPs m)
       (List.filter (fun activity => now - a_timestamp activity <? 24 * 60 * 60 * 1000)
          (suspiciousActivity m)))
    (emitted st).

(** One round of the loop of [performSecurityAnalysis]. *)
Definition analyzeEntry (now : Z) (st : state) (kv : string * list ConnectionData)
  : state :=
  let recentConnections := List.filter (fun c => now - timestamp c <? 300000) kv.2 in
  let st :=
    if (20 <? List.length recentConnections)%nat then
      flagSuspiciousActivity kv.1 unusual_pattern "Potential DDoS pattern detected"
        high now st
    else st in
  let totalBytes :=
    sumZ (List.map (fun c => default 0 (bytesTransferred c)) recentConnections) in
  if 500 * 1024 * 1024 <? totalBytes then
    flagSuspiciousActivity kv.1 large_download "Potential data exfiltration detected"
      high now st
  else st.

Definition performSecurityAnalysis (now : Z) (st : state) : state :=
  fold_left (analyzeEntry now) (connections st) st.

(** The calls that can reach an analyzer, and the tick of its timer. *)
Inductive operation : Type :=
| Log (addr : string) (ty : ConnectionType) (res ua : option string)
      (now : Z) (fraction : list nat)
| UpdateBytes (connectionId : string) (bytes now : Z)
| Close (connectionId : string) (now : Z)
| Tick (now : Z).

Definition perform (st : state) (o : operation) : state :=
  match o with
  | Log addr ty res ua now fraction => (logConnection addr ty res ua now fraction st).2
  | UpdateBytes connectionId bytes now => updateConnectionBytes connectionId bytes now st
  | Close connectionId now => closeConnection connectionId now st
  | Tick now => performSecurityAnalysis now (cleanupOldConnections now st)
  end.

Definition performAll (os : list operation) (st : state) : state :=
  fold_left perform os st.

(** The bounds the analyzer keeps its memory within. *)
Definition bounded (st : state) : Prop :=
  Forall (fun kv : string * list ConnectionData =>
            Z.of_nat (List.length kv.2) <= maxConnectionHistory) (connections st)
  ∧ Z.of_nat (List.length (suspiciousActivity (metrics st))) <= 100.

(** The activities of a type among those emitted after the first [n]. *)
Definition raised (ty : ActivityType) (n : nat) (st : state) : list SuspiciousActivity :=
  List.filter
    (fun a => match a_type a, ty with
              | rapid_requests, rapid_requests
              | large_download, large_download
              | unusual_pattern, unusual_pattern => true
              | _, _ => false
              end)
    (skipn n (emitted st)).

(** Nine downloads of one address, one per second. *)
Definition nineDownloads : state :=
  performAll
    (List.map (fun i => Log "203.0.113.5" file_download (Some "xl.dat") None
                            (sampleTime + 1000 * i) [])
              (seqZ 0 9))
    create.

End ConnectionAnalyzer.

(* ===================================================================== *)
(** * Packet Crafter (malicious_client packet/PacketCrafter.ts) *)
(* ===================================================================== *)

Module PacketCrafter.

Record TCPFlags : Type := mkTCPFlags {
  fin : bool; syn : bool; rst : bool; psh : bool;
  ack : bool; urg : bool; ece : bool; cwr : bool
}.

(** The window size is a number that need not be an integer. *)
Record TCPPacket : Type := mkTCPPacket {
  sourceIP : string;
  sourcePort : Z;
  destIP : string;
  destPort : Z;
  sequenceNumber : Z;
  ackNumber : Z;
  windowSize : Q;
  flags : TCPFlags;
  length : Z
}.

Definition getLocalIP : string := "127.0.0.1".

(** [createOptimisticACKPacket]; [randomPort] is the value of
    [getRandomPort()], read when no source port is given (or port 0). *)
Definition createOptimisticACKPacket (destIP : string) (destPort : Z)
    (sequenceNumber optimisticAckNumber : Z) (windowSize : Q)
    (sourceIP : option string) (sourcePort : option Z) (randomPort : Z) : TCPPacket :=
  {| sourceIP := match sourceIP with
                 | Some s => if JS.str_truthy s then s else getLocalIP
                 | None => getLocalIP
                 end;
     sourcePort := match sourcePort with
                   | Some p => if p =? 0 then randomPort else p
                   | None => randomPort
                   end;
     destIP := destIP;
     destPort := destPort;
     sequenceNumber := sequenceNumber;
     ackNumber := optimisticAckNumber;
     windowSize := windowSize;
     flags := mkTCPFlags false false false false true false false false;
     length := 20 |}.

End PacketCrafter.

(* ===================================================================== *)
(** * Attack Orchestrator (malicious_client OptimisticACKAttacker.ts) *)
(* ===================================================================== *)

Module Attacker.

Inductive TransferType : Type := download | streaming.

Record AttackConfig : Type := mkAttackConfig {
  targetHost : string;
  targetPort : Z;
  attackDuration : Z;
  packetInterval : Z;
  ackAdvanceSize : Z;
  windowScale : Q;
  enableTransfer : bool;
  transferType : TransferType;
  transferUrl : option string;
  streamId : option string;
  measureSpeed : bool
}.

(** The fields of the class that the constructor initialises, the
    counters of [AttackMetrics] among them. *)
Record OptimisticACKAttacker : Type := mkAttacker {
  config : AttackConfig;
  isAttackActive : bool;
  sequenceNumber : Z;
  ackNumber : Z;
  packetsPressed : Z;
  successfulAcks : Z;
  totalDataTransferred : Z;
  transferActive : bool
}.

(** An optional string is falsy when absent or empty. *)
Definition present (o : option string) : bool :=
  match o with
  | Some s => JS.str_truthy s
  | None => false
  end.

Definition withTransfer (url : option string) (sid : option string) (c : AttackConfig)
  : AttackConfig :=
  mkAttackConfig (targetHost c) (targetPort c) (attackDuration c) (packetInterval c)
    (ackAdvanceSize c) (windowScale c) (enableTransfer c) (transferType c)
    url sid (measureSpeed c).

Definition baseUrl (c : AttackConfig) : string :=
  "http://" +:+ targetHost c +:+ ":" +:+ JS.Z_to_string (targetPort c).

(** [validateConfig]: the message of the error thrown, or the
    configuration with its transfer options filled in. *)
Definition validateConfig (c : AttackConfig) : string + AttackConfig :=
  if negb (JS.str_truthy (targetHost c)) || (String.length (targetHost c) =? 0)%nat then
    inl "Target host is required"
  else if (targetPort c <=? 0) || (65535 <? targetPort c) then
    inl "Target port must be between 1 and 65535"
  else if attackDuration c <=? 0 then
    inl "Attack duration must be positive"
  else if packetInterval c <=? 0 then
    inl "Packet interval must be positive"
  else if ackAdvanceSize c <=? 0 then
    inl "ACK advance size must be positive"
  else if enableTransfer c then
    match transferType c with
    | download =>
        if negb (present (transferUrl c))
        then inr (withTransfer (Some (baseUrl c +:+ "/download/xl.dat")) (streamId c) c)
        else inr c
    | streaming =>
        let sid := if negb (present (streamId c)) then "demo-stream"
                   else default "" (streamId c) in
        inr (withTransfer
               (Some (baseUrl c +:+ "/stream/" +:+ sid +:+ "/playlist.m3u8"))
               (Some sid) c)
    end
  else inr c.

(** The constructor: an error, or the new orchestrator. *)
Definition construct (c : AttackConfig) : string + OptimisticACKAttacker :=
  match validateConfig c with
  | inl message => inl message
  | inr c' => inr (mkAttacker c' false 0 0 0 0 0 false)
  end.

(** ** Chunked download *)

(** A range request: the first and the last byte asked for. *)
Definition span : Type := (Z * Z)%type.

(** [`bytes=${start}-${end}`], the Range header of [downloadChunk]. *)
Definition rangeHeader (r : span) : string :=
  "bytes=" +:+ JS.Z_to_string r.1 +:+ "-" +:+ JS.Z_to_string r.2.

(** How [performChunkedDownload] ends: all chunks downloaded, a chunk
    request rejected (the error leaves the loop), or the fuel of the
    model exhausted.  The list holds the requests issued, in order. *)
Inductive downloadResult : Type :=
| Completed (requests : list span)
| Failed (requests : list span)
| OutOfFuel (requests : list span).

Definition issue (r : span) (res : downloadResult) : downloadResult :=
  match res with
  | Completed rs => Completed (r :: rs)
  | Failed rs => Failed (r :: rs)
  | OutOfFuel rs => OutOfFuel (r :: rs)
  end.

Section ChunkedDownload.
(** Whether the request for a span resolves. *)
Variable downloadChunk : span → bool.

(** The [while (currentOffset < totalSize)] loop. *)
Fixpoint chunkLoop (fuel : nat) (chunkSize totalSize currentOffset : Z)
  : downloadResult :=
  if currentOffset <? totalSize then
    match fuel with
    | O => OutOfFuel []
    | S fuel' =>
        let endOffset := Z.min (currentOffset + chunkSize - 1) (totalSize - 1) in
        if downloadChunk (currentOffset, endOffset) then
          issue (currentOffset, endOffset)
                (chunkLoop fuel' chunkSize totalSize (endOffset + 1))
        else Failed [(currentOffset, endOffset)]
    end
  else Completed [].

(** [performChunkedDownload]; one unit of fuel per byte is enough. *)
Definition performChunkedDownload (c : AttackConfig) (totalSize : Z)
  : downloadResult :=
  let chunkSize := Z.max (ackAdvanceSize c) 65536 in
  chunkLoop (Z.to_nat totalSize) chunkSize totalSize 0.
End ChunkedDownload.

(** ** Playlist parsing *)

Definition newline : ascii := ascii_of_nat 10.

(** [parsePlaylist]: the trimmed lines that are not blank and do not
    start with '#'. *)
Definition parsePlaylist (playlist : string) : list string :=
  let lines := JS.split newline playlist in
  List.map JS.trim
    (List.filter
       (fun line => JS.str_truthy (JS.trim line) && negb (JS.startsWith line "#"))
       lines).

(** ** Definitions used in the statements *)

(** The number of chunks, [ceil(S / C)], and the [i]-th span. *)
Definition chunkCount (C S : Z) : Z := (S + C - 1) / C.

Definition chunk (C S i : Z) : span := (i * C, Z.min (i * C + C - 1) (S - 1)).

(** A configuration valid in every validated field, window scale 7. *)
Definition wideScale : AttackConfig :=
  mkAttackConfig "127.0.0.1" 3001 60 50 8760 7 true download None None true.

(** The headers [downloadChunk] sends, as the server receives them (header
    names in lower case); the user agent depends on [isAttackActive]. *)
Definition chunkHeaders (active : bool) (r : span) : gmap string string :=
  {[ "range" := rangeHeader r;
     "connection" := "keep-alive";
     "user-agent" := if active then "OptimisticACK-Attack-Tool/1.0"
                     else "Mozilla/5.0 (legitimate-browser)";
     "accept" := "*/*";
     "cache-control" := "no-cache" ]}.




(** ** The optimistic ACKs *)

(** The advancement of [sendOptimisticACK]: at least 32 KiB during a
    streaming transfer. *)
Definition ackAdvancement (a : OptimisticACKAttacker) : Z :=
  match transferType (config a) with
  | streaming =>
      if transferActive a then Z.max (ackAdvanceSize (config a)) 32768
      else ackAdvanceSize (config a)
  | download => ackAdvanceSize (config a)
  end.

(** The window size it advertises. *)
Definition advertisedWindow (a : OptimisticACKAttacker) : Q :=
  let baseWindowSize : Q := 32768%Q in
  let windowSize :=
    if DefenseSystem.Qgtb (windowScale (config a)) 1%Q
    then DefenseSystem.Qmin' 65535%Q (baseWindowSize * windowScale (config a))%Q
    else baseWindowSize in
  if transferActive a then
    match transferType (config a) with
    | streaming => 65535%Q
    | download => DefenseSystem.Qmin' 65535%Q (windowSize * (3 # 2))%Q
    end
  else windowSize.

(** [sendOptimisticACK]: [ready] is [rawSocket.isReady()], [localEndpoint]
    what [getLocalEndpoint()] returns, [sent] whether [sendPacket]
    resolves.  Returns the packet handed to [sendPacket], if any. *)
Definition sendOptimisticACK (ready : bool) (localEndpoint : string * Z)
    (randomPort : Z) (sent : bool) (a : OptimisticACKAttacker)
  : OptimisticACKAttacker * option PacketCrafter.TCPPacket :=
  if negb ready then (a, None)
  else
    let ackNumber' := ackNumber a + ackAdvancement a in
    let optimisticACK :=
      PacketCrafter.createOptimisticACKPacket
        (targetHost (config a)) (targetPort (config a))
        (sequenceNumber a) ackNumber' (advertisedWindow a)
        (Some localEndpoint.1) (Some localEndpoint.2) randomPort in
    (mkAttacker (config a) (isAttackActive a) (sequenceNumber a) ackNumber'
       (if sent then packetsPressed a + 1 else packetsPressed a)
       (if sent then successfulAcks a + 1 else successfulAcks a)
       (totalDataTransferred a) (transferActive a),
     Some optimisticACK).

(** What a tick of the attack loop finds: whether the socket is ready,
    the value of [metrics.transferActive] (set and cleared by the
    transfer that runs beside the loop), and whether the send
    succeeds. *)
Record tick : Type := mkTick { ready : bool; active : bool; sent : bool }.

Definition setTransferActive (b : bool) (a : OptimisticACKAttacker)
  : OptimisticACKAttacker :=
  mkAttacker (config a) (isAttackActive a) (sequenceNumber a) (ackNumber a)
    (packetsPressed a) (successfulAcks a) (totalDataTransferred a) b.

(** The ticks of the attack loop in order: the orchestrator at the end
    and the packets handed to the socket. *)
Fixpoint sendAll (ticks : list tick) (localEndpoint : string * Z) (randomPort : Z)
    (a : OptimisticACKAttacker)
  : OptimisticACKAttacker * list PacketCrafter.TCPPacket :=
  match ticks with
  | [] => (a, [])
  | t :: rest =>
      let '(a, packet) :=
        sendOptimisticACK (ready t) localEndpoint randomPort (sent t)
          (setTransferActive (active t) a) in
      let '(a, packets) := sendAll rest localEndpoint randomPort a in
      (a, match packet with Some p => p :: packets | None => packets end)
  end.

(** [getAdaptivePacketInterval] *)
Definition getAdaptivePacketInterval (a : OptimisticACKAttacker) : Q :=
  match transferType (config a) with
  | streaming =>
      if transferActive a
      then DefenseSystem.Qmax' (inject_Z (packetInterval (config a)) / 4)%Q 10%Q
      else inject_Z (packetInterval (config a))
  | download => inject_Z (packetInterval (config a))
  end.

End Attacker.

(* ===================================================================== *)
(** * Streaming Server (backend/src/server/StreamingServer.ts) *)
(* ===================================================================== *)

Module StreamingServer.

Inductive DefenseMode : Type := high | medium | low | off.

Record StreamingServerConfig : Type := mkStreamingServerConfig {
  enableDefense : bool;
  defenseMode : DefenseMode
}.

(** [getDefenseConfig], merged over the defaults of the middleware (which
    supply [maxWindowGrowthRate]). *)
Definition getDefenseConfig (mode : DefenseMode) : SecurityMiddleware.SecurityConfig :=
  let mk ack anomaly quarantine acks gap threshold duration conns :=
    SecurityMiddleware.mkSecurityConfig true true conns true
      (DefenseSystem.mkDefenseConfig ack false false false anomaly quarantine
         acks 10 gap threshold duration) in
  match mode with
  | high => mk true true true 1000 10485760 (JS.double (95 # 100)) 1800000 50
  | medium => mk true true true 1000 10485760 (JS.double (9 # 10)) 600000 100
  | low => mk false true false 10000 104857600 (JS.double (99 # 100)) 300000 200
  | off => mk false false false 100000 1048576000 1%Q 0 1000
  end.

(** The files the handlers read: the size of each file under
    [data/files], and the listing of each directory under
    [data/streams]. *)
Record FileSystem : Type := mkFileSystem {
  files : gmap string Z;
  streams : gmap string (list string)
}.

Record state : Type := mkState {
  config : StreamingServerConfig;
  securityMiddleware : option SecurityMiddleware.state;
  connectionAnalyzer : ConnectionAnalyzer.state;
  isRunning : bool
}.

(** The constructor; [now] is the clock value read by the middleware. *)
Definition create (cfg : StreamingServerConfig) (now : Z) : state :=
  mkState cfg
    (if enableDefense cfg
     then Some (SecurityMiddleware.create (getDefenseConfig (defenseMode cfg)) now)
     else None)
    ConnectionAnalyzer.create false.

(** What is sent back: the body is a text, the JSON of a security
    violation, or the stream of a file, whole or from the offset [start]
    to the offset [end_] (or to the end of the file, if that comes
    first). *)
Inductive Body : Type :=
| Text (s : string)
| SecurityViolation (message : string) (timestamp : Z)
| FileStream (path : string)
| FileRange (path : string) (start end_ : JS.num).

Record Response : Type := mkResponse {
  status : Z;
  resHeaders : list (string * string);
  body : Body
}.

(** How the handling of a request ends: a response is sent, or the
    handler throws after [writeHead].  In the second case nothing has
    been written to the socket yet, and Express, which finds the headers
    marked as sent, destroys the socket: the client receives no
    response. *)
Inductive Outcome : Type :=
| Sent (r : Response)
| Thrown.

(** The value of a response header, the last one set. *)
Definition resHeader (name : string) (r : Response) : option string :=
  snd <$> List.find (fun h => String.eqb h.1 name) (rev (resHeaders r)).

Definition filesDir : string := "data/files/".

(** The double-quote character. *)
Definition quote : string := String (ascii_of_nat 34) EmptyString.

(** ** Downloads *)

(** [handleRangeRequest]: the headers are written first, from the
    numbers as parsed; [fs.createReadStream] then checks its options and
    may throw. *)
Definition handleRangeRequest (filePath : string) (size : Z) (range : string)
  : Outcome :=
  let parts := JS.split "-" (JS.replaceFirst "bytes=" "" range) in
  let start := JS.parseInt (hd "" parts) in
  let end_ :=
    match parts !! 1%nat with
    | Some p => if JS.str_truthy p then JS.parseInt p else JS.Int (size - 1)
    | None => JS.Int (size - 1)
    end in
  let chunksize := JS.num_add (JS.num_sub end_ start) (JS.Int 1) in
  let head :=
    mkResponse 206
      [("Content-Range",
        "bytes " +:+ JS.num_to_string start +:+ "-" +:+ JS.num_to_string end_ +:+
        "/" +:+ JS.Z_to_string size);
       ("Accept-Ranges", "bytes");
       ("Content-Length", JS.num_to_string chunksize);
       ("Content-Type", "application/octet-stream")]
      (FileRange filePath start end_) in
  if Node.createReadStream start end_ then Sent head else Thrown.

(** [handleFileDownload]; [now] and [fraction] are the clock and the
    random number read by the connection analyzer. *)
Definition handleFileDownload (req : SecurityMiddleware.Request) (fs : FileSystem)
    (now : Z) (fraction : list nat) (st : state) : Outcome * state :=
  let name := SecurityMiddleware.filename req in
  let filePath := filesDir +:+ name in
  let analyzer :=
    (ConnectionAnalyzer.logConnection
       (SecurityMiddleware.orElse (SecurityMiddleware.reqIp req) "unknown")
       ConnectionAnalyzer.file_download (Some name) None now fraction
       (connectionAnalyzer st)).2 in
  let st := mkState (config st) (securityMiddleware st) analyzer (isRunning st) in
  match files fs !! name with
  | None => (Sent (mkResponse 404 [] (Text "File not found")), st)
  | Some size =>
      let range := SecurityMiddleware.header "range" req in
      if JS.str_truthy range then (handleRangeRequest filePath size range, st)
      else
        (Sent
           (mkResponse 200
              [("Content-Length", JS.Z_to_string size);
               ("Content-Type", "application/octet-stream");
               ("Content-Disposition",
                "attachment; filename=" +:+ quote +:+ name +:+ quote)]
              (FileStream filePath)), st)
  end.

Definition securityResponse (hs : list (string * string)) (code : Z)
    (message : string) (now : Z) : Response :=
  mkResponse code hs (SecurityViolation message now).

Definition withHeaders (hs : list (string * string)) (r : Response) : Response :=
  mkResponse (status r) (hs ++ resHeaders r) (body r).

(** The headers set on the response before the handler ran are sent
    with what the handler sends. *)
Definition sentWith (hs : list (string * string)) (o : Outcome) : Outcome :=
  match o with
  | Sent r => Sent (withHeaders hs r)
  | Thrown => Thrown
  end.

(** The route [GET /download/:filename]: with defense enabled the
    request goes through the global request filter, then through the
    download protection, then to the handler. *)
Definition downloadRoute (req : SecurityMiddleware.Request) (fs : FileSystem)
    (now : Z) (fraction : list nat) (st : state) : Outcome * state :=
  match securityMiddleware st with
  | Some sm =>
      let '(hs, filtered, sm) := SecurityMiddleware.createRequestFilter req now sm in
      match filtered with
      | SecurityMiddleware.Respond code message =>
          (Sent (securityResponse hs code message now),
           mkState (config st) (Some sm) (connectionAnalyzer st) (isRunning st))
      | SecurityMiddleware.Next =>
          let '(protected, sm) := SecurityMiddleware.createDownloadProtection req now sm in
          let st := mkState (config st) (Some sm) (connectionAnalyzer st) (isRunning st) in
          match protected with
          | SecurityMiddleware.Respond code message =>
              (Sent (securityResponse hs code message now), st)
          | SecurityMiddleware.Next =>
              let '(o, st) := handleFileDownload req fs now fraction st in
              (sentWith hs o, st)
          end
      end
  | None => handleFileDownload req fs now fraction st
  end.

(** ** Playlists *)

Definition nl : string := String Attacker.newline EmptyString.

Definition playlistHeader : string :=
  "#EXTM3U" +:+ nl +:+ "#EXT-X-VERSION:3" +:+ nl +:+
  "#EXT-X-TARGETDURATION:10" +:+ nl +:+ "#EXT-X-MEDIA-SEQUENCE:0" +:+ nl.

(** [readdirSync(streamDir).filter(file => file.endsWith('.ts')).sort()]:
    the default sort orders strings by their code units. *)
Definition segmentsOf (listing : list string) : list string :=
  merge_sort String.le (List.filter (fun file => JS.endsWith file ".ts") listing).

Definition generateHLSPlaylist (streamId : string) (fs : FileSystem) : string :=
  match streams fs !! streamId with
  | None => playlistHeader +:+ "#EXT-X-ENDLIST"
  | Some listing =>
      let playlist :=
        fold_left
          (fun playlist segment => playlist +:+ "#EXTINF:10.0," +:+ nl +:+ segment +:+ nl)
          (segmentsOf listing) playlistHeader in
      playlist +:+ "#EXT-X-ENDLIST"
  end.

(** ** Definitions used in the statements *)

(** The string holds no line feed. *)
Definition noNewline (s : string) : bool := JS.lacks Attacker.newline s.

(** A segment name the parser gives back as it is: no line feed inside,
    no white space at either end, no '#' in front. *)
Definition plainName (s : string) : bool :=
  noNewline s && String.eqb (JS.trim s) s && negb (JS.startsWith s "#").

(** The entries of the playlist, one per segment. *)
Fixpoint entries (segments : list string) : string :=
  match segments with
  | [] => ""
  | segment :: rest => "#EXTINF:10.0," +:+ nl +:+ segment +:+ nl +:+ entries rest
  end.

Definition headerLines : list string :=
  ["#EXTM3U"; "#EXT-X-VERSION:3"; "#EXT-X-TARGETDURATION:10"; "#EXT-X-MEDIA-SEQUENCE:0"].

Definition entryLines (segments : list string) : list string :=
  flat_map (fun segment => ["#EXTINF:10.0,"; segment]) segments.

(** The body of [parsePlaylist] on a list of lines. *)
Definition parseLines (lines : list string) : list string :=
  List.map JS.trim
    (List.filter
       (fun line => JS.str_truthy (JS.trim line) && negb (JS.startsWith line "#"))
       lines).

(** The example of the specification: three segments and a text file,
    listed out of order. *)
Definition demoFiles : FileSystem :=
  mkFileSystem {[ "xl.dat" := 1000 ]}
    {[ "demo-stream" :=
         ["segment002.ts"; "notes.txt"; "segment000.ts"; "segment001.ts"];
       "odd-stream" := ["segment000.ts"; "#intro.ts"] ]}.


Definition mediumServer : state := create (mkStreamingServerConfig true medium) 0.

(** The request of [downloadChunk] for a span of the file [name], sent
    from the address [addr]. *)
Definition chunkRequest (addr name : string) (active : bool) (r : Attacker.span)
  : SecurityMiddleware.Request :=
  SecurityMiddleware.mkRequest (Attacker.chunkHeaders active r) addr addr name "" "".


(** The listing of [demoFiles] for demo-stream, in order and without the
    text file. *)
Definition demoFilesSorted : FileSystem :=
  mkFileSystem {[ "xl.dat" := 1000 ]}
    {[ "demo-stream" := ["segment000.ts"; "segment001.ts"; "segment002.ts"] ]}.

End StreamingServer.

(* ===================================================================== *)
(** * Command line of the server (backend/src/app.ts) *)
(* ===================================================================== *)

Module App.

Record CLIArgs : Type := mkCLIArgs {
  defense : bool;
  defenseMode : StreamingServer.DefenseMode;
  port : Z;
  help : bool
}.

(** The result [parseArgs] starts from. *)
Definition defaults : CLIArgs :=
  mkCLIArgs true StreamingServer.medium 3001 false.

(** [['high', 'medium', 'low', 'off'].includes(mode)] *)
Definition readMode (mode : string) : option StreamingServer.DefenseMode :=
  if String.eqb mode "high" then Some StreamingServer.high
  else if String.eqb mode "medium" then Some StreamingServer.medium
  else if String.eqb mode "low" then Some StreamingServer.low
  else if String.eqb mode "off" then Some StreamingServer.off
  else None.

(** The case [--defense]; [defenseValue] is [args[i + 1]], absent at the
    end of the arguments. *)
Definition setDefense (defenseValue : option string) (result : CLIArgs) : CLIArgs :=
  match defenseValue with
  | Some v =>
      if String.eqb v "false" || String.eqb v "off" || String.eqb v "disabled" then
        mkCLIArgs false StreamingServer.off (port result) (help result)
      else if String.eqb v "true" || String.eqb v "on" || String.eqb v "enabled" then
        mkCLIArgs true (defenseMode result) (port result) (help result)
      else result
  | None => result
  end.

(** The case [--defense-mode]. *)
Definition setMode (mode : option string) (result : CLIArgs) : CLIArgs :=
  match mode ≫= readMode with
  | Some m =>
      mkCLIArgs
        (match m with StreamingServer.off => false | _ => true end)
        m (port result) (help result)
  | None => result
  end.

(** The case [--port]: [parseInt] is called without a radix, and
    [parseInt(undefined)] is [NaN]. *)
Definition setPort (value : option string) (result : CLIArgs) : CLIArgs :=
  match value with
  | Some v =>
      match JS.parseIntAuto v with
      | JS.Int p =>
          if (0 <? p) && (p <=? 65535)
          then mkCLIArgs (defense result) (defenseMode result) p (help result)
          else result
      | JS.NaN => result
      end
  | None => result
  end.

(** The loop of [parseArgs] from position [i]: [args] holds
    [args[i..]]; an option that takes a value skips the next argument. *)
Fixpoint parseLoop (args : list string) (result : CLIArgs) : CLIArgs :=
  match args with
  | [] => result
  | arg :: rest =>
      if String.eqb arg "--defense" || String.eqb arg "-d" then
        match rest with
        | [] => setDefense None result
        | v :: rest' => parseLoop rest' (setDefense (Some v) result)
        end
      else if String.eqb arg "--defense-mode" || String.eqb arg "-dm" then
        match rest with
        | [] => setMode None result
        | v :: rest' => parseLoop rest' (setMode (Some v) result)
        end
      else if String.eqb arg "--port" || String.eqb arg "-p" then
        match rest with
        | [] => setPort None result
        | v :: rest' => parseLoop rest' (setPort (Some v) result)
        end
      else if String.eqb arg "--help" || String.eqb arg "-h" then
        parseLoop rest
          (mkCLIArgs (defense result) (defenseMode result) (port result) true)
      else if String.eqb arg "--no-defense" then
        parseLoop rest
          (mkCLIArgs false StreamingServer.off (port result) (help result))
      else parseLoop rest result
  end.

(** [parseArgs]; [args] is [process.argv.slice(2)]. *)
Definition parseArgs (args : list string) : CLIArgs := parseLoop args defaults.

(** ** Definitions used in the statements *)

(** What holds of every result: a usable port, and no defense mode
    other than [off] when the defense is disabled. *)
Definition consistent (result : CLIArgs) : Prop :=
  1 <= port result <= 65535
  ∧ (defense result = false → defenseMode result = StreamingServer.off).

End App.

(* ===================================================================== *)
(** * Properties *)
(* ===================================================================== *)

(** ** Facts about the JavaScript primitives *)

Module JSFacts.

Lemma lastn_snoc {A} (n : nat) (l : list A) (x : A) :
  JS.lastn (S n) (l ++ [x]) = JS.lastn n l ++ [x].
Proof.
  unfold JS.lastn. rewrite length_app. simpl.
  replace (List.length l + 1 - S n)%nat with (List.length l - n)%nat by lia.
  rewrite drop_app.
  replace (List.length l - n - List.length l)%nat with 0%nat by lia.
  reflexivity.
Qed.

Lemma lastn_last {A} (n : nat) (l : list A) :
  (0 < n)%nat → last (JS.lastn n l) = last l.
Proof.
  intros Hn. unfold JS.lastn.
  rewrite !last_lookup, length_drop, lookup_drop.
  f_equal. lia.
Qed.

Lemma lastn_suffix {A} (n : nat) (l : list A) :
  ∃ dropped, l = dropped ++ JS.lastn n l.
Proof.
  exists (take (List.length l - n) l). unfold JS.lastn.
  symmetry. apply take_drop.
Qed.

Lemma lastn_all {A} (n : nat) (l : list A) :
  (List.length l <= n)%nat → JS.lastn n l = l.
Proof.
  intros H. unfold JS.lastn.
  replace (List.length l - n)%nat with 0%nat by lia. reflexivity.
Qed.

Lemma lastn_length {A} (n : nat) (l : list A) : (List.length (JS.lastn n l) <= n)%nat.
Proof. unfold JS.lastn. rewrite length_skipn. lia. Qed.

Lemma append_assoc (a b c : string) : (a +:+ b) +:+ c = a +:+ b +:+ c.
Proof.
  induction a as [|x a IH]; [reflexivity|].
  change (String x ((a +:+ b) +:+ c) = String x (a +:+ b +:+ c)).
  f_equal. exact IH.
Qed.

Lemma append_empty_r (a : string) : a +:+ "" = a.
Proof.
  induction a as [|x a IH]; [reflexivity|].
  change (String x (a +:+ "") = String x a). f_equal. exact IH.
Qed.

Lemma prefix_app p t : String.prefix p (p +:+ t) = true.
Proof.
  induction p as [|a p IH]; simpl.
  - destruct t; reflexivity.
  - destruct (ascii_dec a a); [exact IH | congruence].
Qed.

(** A string without the separator is one field. *)
Lemma split_single sep l : JS.lacks sep l = true → JS.split sep l = [l].
Proof.
  induction l as [|c l IH]; cbn [JS.lacks JS.split]; intros H; [reflexivity|].
  apply andb_true_iff in H. destruct H as [Hc Hl].
  apply negb_true_iff in Hc. rewrite Hc, (IH Hl). reflexivity.
Qed.

(** The first field ends at the first separator. *)
Lemma split_field sep l rest :
  JS.lacks sep l = true →
  JS.split sep (l +:+ String sep rest) = l :: JS.split sep rest.
Proof.
  induction l as [|c l IH]; cbn [JS.lacks]; intros H.
  - change ("" +:+ String sep rest) with (String sep rest).
    cbn [JS.split]. rewrite Ascii.eqb_refl. reflexivity.
  - apply andb_true_iff in H. destruct H as [Hc Hl].
    apply negb_true_iff in Hc.
    change (String c l +:+ String sep rest) with (String c (l +:+ String sep rest)).
    cbn [JS.split]. rewrite Hc, (IH Hl). reflexivity.
Qed.

Lemma drop_app_length p t : JS.drop (String.length p) (p +:+ t) = t.
Proof. induction p as [|c p IH]; [destruct t; reflexivity | exact IH]. Qed.

(** A pattern at the front of the string is the first occurrence. *)
Lemma replaceFirst_front pat rep t :
  JS.replaceFirst pat rep (pat +:+ t) = rep +:+ t.
Proof.
  destruct (pat +:+ t) eqn:E; cbn [JS.replaceFirst]; rewrite <- E;
    rewrite prefix_app, drop_app_length; reflexivity.
Qed.

(** *** Decimal numbers, printed and read back *)

(** One digit of the printed number is read. *)
Ltac digit_step :=
  cbn [NilEmpty.string_of_uint JS.digits Pos.of_uint_acc Pos.of_uint];
  first [ change (JS.digit_of _) with (Some 0) | change (JS.digit_of _) with (Some 1)
        | change (JS.digit_of _) with (Some 2) | change (JS.digit_of _) with (Some 3)
        | change (JS.digit_of _) with (Some 4) | change (JS.digit_of _) with (Some 5)
        | change (JS.digit_of _) with (Some 6) | change (JS.digit_of _) with (Some 7)
        | change (JS.digit_of _) with (Some 8) | change (JS.digit_of _) with (Some 9) ];
  cbv iota beta.

Lemma digits_acc d acc seen :
  JS.digits (NilEmpty.string_of_uint d) (Z.pos acc) seen
  = (Z.pos (Pos.of_uint_acc d acc),
     match d with Decimal.Nil => seen | _ => true end).
Proof.
  revert acc seen.
  induction d as [|d IH|d IH|d IH|d IH|d IH|d IH|d IH|d IH|d IH|d IH];
    intros acc seen; [reflexivity|..]; digit_step.
  all: match goal with
       | |- JS.digits _ ?a true = (Z.pos (Pos.of_uint_acc _ ?acc'), _) =>
           replace a with (Z.pos acc') by lia
       end.
  all: rewrite IH; destruct d; reflexivity.
Qed.

Lemma digits_uint d seen :
  JS.digits (NilEmpty.string_of_uint d) 0 seen
  = (Z.of_N (Pos.of_uint d), match d with Decimal.Nil => seen | _ => true end).
Proof.
  revert seen.
  induction d as [|d IH|d IH|d IH|d IH|d IH|d IH|d IH|d IH|d IH|d IH];
    intros seen; [reflexivity|..]; digit_step.
  - change (10 * 0 + 0) with 0. rewrite IH. destruct d; reflexivity.
  - change (10 * 0 + 1) with (Z.pos 1). rewrite digits_acc. destruct d; reflexivity.
  - change (10 * 0 + 2) with (Z.pos 2). rewrite digits_acc. destruct d; reflexivity.
  - change (10 * 0 + 3) with (Z.pos 3). rewrite digits_acc. destruct d; reflexivity.
  - change (10 * 0 + 4) with (Z.pos 4). rewrite digits_acc. destruct d; reflexivity.
  - change (10 * 0 + 5) with (Z.pos 5). rewrite digits_acc. destruct d; reflexivity.
  - change (10 * 0 + 6) with (Z.pos 6). rewrite digits_acc. destruct d; reflexivity.
  - change (10 * 0 + 7) with (Z.pos 7). rewrite digits_acc. destruct d; reflexivity.
  - change (10 * 0 + 8) with (Z.pos 8). rewrite digits_acc. destruct d; reflexivity.
  - change (10 * 0 + 9) with (Z.pos 9). rewrite digits_acc. destruct d; reflexivity.
Qed.

(** The decimal digits of a positive number, read back. *)
Lemma parseInt_uint p :
  JS.parseInt (NilEmpty.string_of_uint (Pos.to_uint p)) = JS.Int (Z.pos p).
Proof.
  pose proof (DecimalPos.Unsigned.to_uint_nonnil p) as Hn.
  pose proof (DecimalPos.Unsigned.of_to p) as Hof.
  pose proof (digits_uint (Pos.to_uint p) false) as Hd.
  destruct (Pos.to_uint p) as [|d|d|d|d|d|d|d|d|d|d]; [congruence|..];
    unfold JS.parseInt; cbn [NilEmpty.string_of_uint JS.trimStart] in *;
    match goal with
    | |- context [JS.is_white ?c] => change (JS.is_white c) with false
    end; cbv iota beta; rewrite Hd, Hof; reflexivity.
Qed.

(** [parseInt] reads back every integer as a template literal prints it. *)
Lemma parseInt_Z_to_string z : JS.parseInt (JS.Z_to_string z) = JS.Int z.
Proof.
  destruct z as [|p|p]; [reflexivity| |].
  - unfold JS.Z_to_string. cbn [Z.to_int NilZero.string_of_int].
    pose proof (DecimalPos.Unsigned.to_uint_nonnil p) as Hn.
    pose proof (parseInt_uint p) as H.
    unfold NilZero.string_of_uint.
    destruct (Pos.to_uint p); [congruence|..]; exact H.
  - unfold JS.Z_to_string. cbn [Z.to_int NilZero.string_of_int].
    pose proof (DecimalPos.Unsigned.to_uint_nonnil p) as Hn.
    pose proof (DecimalPos.Unsigned.of_to p) as Hof.
    pose proof (digits_uint (Pos.to_uint p) false) as Hd.
    unfold NilZero.string_of_uint, JS.parseInt.
    destruct (Pos.to_uint p) as [|d|d|d|d|d|d|d|d|d|d]; [congruence|..];
      cbn [JS.trimStart]; change (JS.is_white "-") with false; cbv iota beta;
      rewrite Hd, Hof; reflexivity.
Qed.

Lemma digit_differs x c :
  JS.digit_of c = None → JS.digit_of x ≠ None → Ascii.eqb x c = false.
Proof.
  intros Hc Hx. destruct (Ascii.eqb_spec x c); [subst; congruence | reflexivity].
Qed.

(** The digits of a natural number hold no other character. *)
Lemma lacks_uint c d :
  JS.digit_of c = None → JS.lacks c (NilEmpty.string_of_uint d) = true.
Proof.
  intros Hc.
  induction d; cbn [NilEmpty.string_of_uint JS.lacks]; [reflexivity|..];
    rewrite IHd, (digit_differs _ c Hc) by discriminate; reflexivity.
Qed.

Lemma lacks_Z_to_string c z :
  0 <= z → JS.digit_of c = None → JS.lacks c (JS.Z_to_string z) = true.
Proof.
  intros Hz Hc. destruct z as [|p|p]; [|clear Hz|lia].
  - change (JS.Z_to_string 0) with "0". cbn [JS.lacks].
    rewrite (digit_differs _ c Hc) by discriminate. reflexivity.
  - unfold JS.Z_to_string. cbn [Z.to_int NilZero.string_of_int].
    pose proof (lacks_uint c (Pos.to_uint p) Hc) as H.
    unfold NilZero.string_of_uint. destruct (Pos.to_uint p); try exact H.
    cbn [JS.lacks]. rewrite (digit_differs _ c Hc) by discriminate. reflexivity.
Qed.

Lemma Z_to_string_nonempty z : JS.str_truthy (JS.Z_to_string z) = true.
Proof.
  destruct z as [|p|p]; [reflexivity| |reflexivity].
  unfold JS.Z_to_string. cbn [Z.to_int NilZero.string_of_int].
  pose proof (DecimalPos.Unsigned.to_uint_nonnil p) as Hn.
  unfold NilZero.string_of_uint. destruct (Pos.to_uint p); [congruence|..]; reflexivity.
Qed.

(** *** Rounding to binary64 *)

Lemma roundHalfEven_nonneg n d : 0 <= n → 0 < d → 0 <= JS.roundHalfEven n d.
Proof.
  intros Hn Hd. unfold JS.roundHalfEven.
  pose proof (Z.div_pos n d Hn Hd).
  destruct (2 * (n mod d) <? d); [lia|].
  destruct (d <? 2 * (n mod d)); [lia|].
  destruct (Z.even (n / d)); lia.
Qed.

Lemma roundHalfEven_le n d p : 0 < d → n <= p * d → JS.roundHalfEven n d <= p.
Proof.
  intros Hd Hn. unfold JS.roundHalfEven.
  pose proof (Z.div_mod n d ltac:(lia)) as Hdm.
  pose proof (Z.mod_pos_bound n d Hd) as Hm.
  assert (Hq : n / d <= p) by nia.
  destruct (Z.ltb_spec (2 * (n mod d)) d); [exact Hq|].
  assert (n / d < p) by nia.
  destruct (d <? 2 * (n mod d)); [lia|].
  destruct (Z.even (n / d)); lia.
Qed.

Lemma scaled_pos n d e :
  0 < n → 0 < d → 0 < (JS.scaled n d e).1 ∧ 0 < (JS.scaled n d e).2.
Proof.
  intros Hn Hd. unfold JS.scaled.
  destruct (Z.leb_spec 0 e); cbn [fst snd].
  - pose proof (Z.pow_pos_nonneg 2 e ltac:(lia) ltac:(lia)). split; nia.
  - pose proof (Z.pow_pos_nonneg 2 (- e) ltac:(lia) ltac:(lia)). split; nia.
Qed.

Lemma doublePos_nonneg n d : 0 < n → 0 < d → (0 <= JS.doublePos n d)%Q.
Proof.
  intros Hn Hd. unfold JS.doublePos.
  set (e := Z.max (JS.floorLog2 n d - 52) (-1074)).
  destruct (scaled_pos n d e Hn Hd) as [Hn' Hd'].
  destruct (JS.scaled n d e) as [n' d']. cbn [fst snd] in *.
  pose proof (roundHalfEven_nonneg n' d' ltac:(lia) Hd') as Hm.
  destruct (Z.leb_spec 0 e).
  - pose proof (Z.pow_pos_nonneg 2 e ltac:(lia) ltac:(lia)).
    unfold Qle. cbn. nia.
  - rewrite Qred_correct. unfold Qle. cbn. lia.
Qed.

(** Rounding keeps the sign. *)
Lemma double_nonneg x : (0 <= x)%Q → (0 <= JS.double x)%Q.
Proof.
  intros Hx. unfold JS.double. destruct x as [[|n|n] d]; cbn [Qnum Qden].
  - apply Qle_refl.
  - apply doublePos_nonneg; lia.
  - unfold Qle in Hx. cbn in Hx. lia.
Qed.

Lemma floorLog2_le n d : 0 < n → n <= d → JS.floorLog2 n d <= 0.
Proof.
  intros Hn Hd. unfold JS.floorLog2.
  pose proof (Z.log2_le_mono n d Hd).
  destruct (JS.scaled n d (Z.log2 n - Z.log2 d)) as [n' d'].
  destruct (d' <=? n'); lia.
Qed.

(** Rounding does not cross 1. *)
Lemma double_le_1 x : (x <= 1)%Q → (JS.double x <= 1)%Q.
Proof.
  intros Hx. unfold JS.double. destruct x as [[|n|n] d]; cbn [Qnum Qden].
  - discriminate.
  - assert (Hnd : Z.pos n <= Z.pos d) by (unfold Qle in Hx; cbn in Hx; lia).
    unfold JS.doublePos.
    pose proof (floorLog2_le (Z.pos n) (Z.pos d) ltac:(lia) Hnd) as Hk.
    set (e := Z.max (JS.floorLog2 (Z.pos n) (Z.pos d) - 52) (-1074)).
    assert (He : e < 0) by lia.
    unfold JS.scaled. destruct (Z.leb_spec 0 e); [lia|].
    pose proof (Z.pow_pos_nonneg 2 (- e) ltac:(lia) ltac:(lia)) as Hp.
    pose proof (roundHalfEven_le (Z.pos n * 2 ^ (- e)) (Z.pos d) (2 ^ (- e))
                  ltac:(lia) ltac:(nia)) as Hm.
    rewrite Qred_correct. unfold Qle. cbn [Qnum Qden].
    rewrite Z2Pos.id by exact Hp. lia.
  - apply Qle_trans with 0%Q; [|discriminate].
    apply (Qopp_le_compat 0). apply doublePos_nonneg; lia.
Qed.

Lemma roundHalfEven_unit n : JS.roundHalfEven n 1 = n.
Proof.
  unfold JS.roundHalfEven. rewrite Z.mod_1_r, Z.div_1_r. reflexivity.
Qed.

Lemma floorLog2_integer n : 0 < n → JS.floorLog2 n 1 = Z.log2 n.
Proof.
  intros Hn. unfold JS.floorLog2, JS.scaled.
  change (Z.log2 1) with 0. rewrite Z.sub_0_r.
  pose proof (Z.log2_nonneg n) as H0.
  destruct (Z.leb_spec 0 (Z.log2 n)); [|lia].
  pose proof (Z.log2_spec n Hn) as [Hlo _].
  destruct (Z.leb_spec (1 * 2 ^ Z.log2 n) n); [reflexivity | lia].
Qed.

(** Every integer up to 2^53 in absolute value is a binary64 number: a
    number that holds one is modelled by the integer. *)
Lemma double_integer z :
  Z.abs z <= 2 ^ 53 → (JS.double (inject_Z z) == inject_Z z)%Q.
Proof.
  assert (Hpos : ∀ n, 0 < n → n <= 2 ^ 53 → (JS.doublePos n 1 == inject_Z n)%Q).
  { intros n Hn Hle. unfold JS.doublePos. rewrite (floorLog2_integer n Hn).
    pose proof (Z.log2_nonneg n) as H0.
    pose proof (Z.log2_spec n Hn) as [Hlo Hhi].
    assert (HL : Z.log2 n <= 53).
    { destruct (Z.le_gt_cases (Z.log2 n) 53) as [|Hgt]; [assumption|].
      pose proof (Z.pow_le_mono_r 2 54 (Z.log2 n) ltac:(lia) ltac:(lia)). lia. }
    replace (Z.max (Z.log2 n - 52) (-1074)) with (Z.log2 n - 52) by lia.
    unfold JS.scaled.
    destruct (Z.leb_spec 0 (Z.log2 n - 52)) as [He|He].
    - assert (Hcase : Z.log2 n = 52 ∨ Z.log2 n = 53) by lia.
      destruct Hcase as [E|E]; rewrite E in *.
      + change (52 - 52) with 0. change (2 ^ 0) with 1. change (1 * 1) with 1.
        replace (JS.roundHalfEven n 1 * 1) with n; [reflexivity|].
        rewrite roundHalfEven_unit. lia.
      + assert (n = 2 ^ 53) by lia. subst n. vm_compute. reflexivity.
    - rewrite roundHalfEven_unit, Qred_correct.
      pose proof (Z.pow_pos_nonneg 2 (- (Z.log2 n - 52)) ltac:(lia) ltac:(lia)) as Hp.
      unfold Qeq, inject_Z. cbn [Qnum Qden].
      rewrite Z2Pos.id by exact Hp. lia. }
  intros Hz. unfold JS.double. destruct z as [|n|n]; cbn [inject_Z Qnum Qden].
  - reflexivity.
  - apply Hpos; lia.
  - rewrite (Hpos (Z.pos n)) by lia. reflexivity.
Qed.

(** The sums of the sources, as JavaScript computes them: 0.1 + 0.2 is
    0.30000000000000004, and 0.4 + 0.4 is the literal 0.8. *)
Lemma double_examples :
  JS.double (1 # 10) = 3602879701896397 # 36028797018963968
  ∧ JS.double (JS.double (1 # 10) + JS.double (2 # 10))
    = 1351079888211149 # 4503599627370496
  ∧ JS.double (JS.double (4 # 10) + JS.double (4 # 10)) = JS.double (8 # 10)
  ∧ JS.double (1 # 2) = 1 # 2.
Proof. vm_compute. auto. Qed.

End JSFacts.

(** ** Traffic Analyzer *)

Module TrafficAnalyzerFacts.
Import TrafficAnalyzer.

Lemma sameConnection_refl (p : TrafficPattern) : sameConnection p p = true.
Proof.
  unfold sameConnection. rewrite String.eqb_refl, Z.eqb_refl. reflexivity.
Qed.

(** The rational comparison of [grew] decides [3 * prev < 2 * cur]. *)
Lemma grew_integer (prev cur : Z) : grew prev cur = (3 * prev <? 2 * cur).
Proof.
  unfold grew, Qle_bool. simpl.
  change (1 * 2)%positive with 2%positive.
  destruct (Z.leb_spec (cur * 2) (prev * 3 * 1)), (Z.ltb_spec (3 * prev) (2 * cur));
    simpl; try reflexivity; lia.
Qed.

(** *** The sequence-gap bit *)

(** When the current packet is the last one on record, the bit compares
    its ack number with that of the last earlier packet of the same
    connection. *)
Lemma detectSequenceGaps_snoc packet earlier wsh afm :
  detectSequenceGaps packet (mkState (earlier ++ [packet]) wsh afm) =
    match last (List.filter (sameConnection packet) earlier) with
    | Some previous => 1000000 <? Z.abs (ackNumber packet - ackNumber previous)
    | None => false
    end.
Proof.
  unfold detectSequenceGaps. simpl.
  rewrite List.filter_app. simpl. rewrite sameConnection_refl.
  set (f := List.filter (sameConnection packet) earlier).
  change 10%nat with (S 9). rewrite JSFacts.lastn_snoc.
  rewrite <- (JSFacts.lastn_last 9 f) by lia.
  set (g := JS.lastn 9 f).
  rewrite length_app. simpl.
  destruct g as [|q g'] eqn:Hg.
  - reflexivity.
  - assert (Hlen : (List.length (q :: g') + 1 <? 2)%nat = false)
      by (apply Nat.ltb_ge; simpl; lia).
    rewrite Hlen.
    rewrite lookup_app_l by (simpl; lia).
    rewrite last_lookup.
    replace (List.length (q :: g') + 1 - 2)%nat
      with (Nat.pred (List.length (q :: g'))) by (simpl; lia).
    reflexivity.
Qed.

Lemma updateWindowSizeHistory_history p st :
  trafficHistory (updateWindowSizeHistory p st) = trafficHistory st.
Proof. reflexivity. Qed.

Lemma updateACKFrequency_history p st :
  trafficHistory (updateACKFrequency p st) = trafficHistory st.
Proof. unfold updateACKFrequency. destruct (negb _); reflexivity. Qed.

(** The record after [analyzePacket]: the packet, preceded by the old
    record, or by its last 4999 entries when the cap was exceeded. *)
Lemma analyzePacket_history now packet st :
  ∃ dropped earlier,
    trafficHistory st = dropped ++ earlier ∧
    trafficHistory (analyzePacket now packet st).1 = earlier ++ [packet].
Proof.
  unfold analyzePacket.
  set (st1 := updateACKFrequency _ _).
  assert (H1 : trafficHistory st1 = trafficHistory st ++ [packet]).
  { unfold st1. rewrite updateACKFrequency_history, updateWindowSizeHistory_history.
    reflexivity. }
  destruct (10000 <? Z.of_nat (List.length (trafficHistory st1))); simpl.
  - rewrite H1.
    replace (Z.to_nat 5000) with (S (Z.to_nat 4999)) by lia.
    rewrite JSFacts.lastn_snoc.
    destruct (JSFacts.lastn_suffix (Z.to_nat 4999) (trafficHistory st)) as [d Hd].
    exists d, (JS.lastn (Z.to_nat 4999) (trafficHistory st)). split; [exact Hd | reflexivity].
  - exists [], (trafficHistory st). split; [reflexivity | exact H1].
Qed.

(** C5 (as amended).  For every packet fed to the analyzer, the record
    afterwards ends with that packet; if [previous] is the last earlier
    packet of the same connection still on record, the [sequenceGaps]
    bit is true exactly when the absolute difference of the two ack
    numbers exceeds 1,000,000, and the bit is false when there is no such
    earlier packet. *)
Theorem sequenceGaps_threshold now packet st :
  ∃ dropped earlier,
    trafficHistory st = dropped ++ earlier ∧
    trafficHistory (analyzePacket now packet st).1 = earlier ++ [packet] ∧
    sequenceGaps (analyzePacket now packet st).2 =
      match last (List.filter (sameConnection packet) earlier) with
      | Some previous => 1000000 <? Z.abs (ackNumber packet - ackNumber previous)
      | None => false
      end.
Proof.
  destruct (analyzePacket_history now packet st) as (d & e & Hst & Hh).
  exists d, e. split; [exact Hst|]. split; [exact Hh|].
  unfold analyzePacket in *. simpl in *.
  match goal with
  | |- context [detectSequenceGaps packet ?s] =>
      destruct s as [h w a] eqn:Hs
  end.
  simpl in Hh. subst h. apply detectSequenceGaps_snoc.
Qed.

(** C5, counterexample: the second packet follows the first on the same
    connection, the ack numbers differ by 1,020,000, which does not
    exceed 1,048,576, and yet the bit is set. *)
Lemma sequenceGaps_1048576_counterexample :
  last (List.filter (sameConnection gapSecond)
          (trafficHistory (analyzePacket 0 gapFirst initial).1)) = Some gapFirst
  ∧ (1048576 <? Z.abs (ackNumber gapSecond - ackNumber gapFirst)) = false
  ∧ sequenceGaps
      (analyzePacket 1 gapSecond (analyzePacket 0 gapFirst initial).1).2 = true.
Proof. vm_compute. auto. Qed.

(** *** The window-growth bit *)

Lemma growingSteps_cons2 prev cur rest :
  growingSteps (prev :: cur :: rest) =
    ((if grew prev cur then 1 else 0) + growingSteps (cur :: rest))%nat.
Proof.
  unfold growingSteps.
  change (steps (prev :: cur :: rest)) with ((prev, cur) :: steps (cur :: rest)).
  cbn [List.filter]. unfold grewStep at 1. cbn [fst snd].
  destruct (grew prev cur); reflexivity.
Qed.

Lemma growthLoop_count prev rest n :
  growthLoop prev rest n = (n + growingSteps (prev :: rest))%nat.
Proof.
  revert prev n. induction rest as [|cur rest IH]; intros prev n.
  - unfold growingSteps. simpl. lia.
  - cbn [growthLoop]. rewrite IH, growingSteps_cons2.
    destruct (grew prev cur); lia.
Qed.

Lemma countGrowth_growingSteps recent : countGrowth recent = growingSteps recent.
Proof.
  destruct recent as [|first rest]; [reflexivity|].
  unfold countGrowth. rewrite growthLoop_count. reflexivity.
Qed.

Lemma longestRunFrom_bound cur best ss :
  (longestRunFrom cur best ss
     <= Nat.max best (cur + List.length (List.filter grewStep ss)))%nat.
Proof.
  revert cur best. induction ss as [|s ss IH]; intros cur best; simpl.
  - lia.
  - destruct (grewStep s); simpl.
    + specialize (IH (S cur) best). lia.
    + specialize (IH O (Nat.max cur best)). lia.
Qed.

Lemma longestGrowthRun_le_growingSteps ws :
  (longestGrowthRun ws <= growingSteps ws)%nat.
Proof.
  unfold longestGrowthRun, growingSteps.
  pose proof (longestRunFrom_bound O O (steps ws)). simpl in *. lia.
Qed.

(** C9 (as amended).  For a connection whose window history is on record,
    the [abnormalWindowGrowth] bit is true exactly when at least 5 sizes
    are recorded and, among the steps between the last 5 of them, at
    least 3 grew by more than 1.5 times the previous value; the growing
    steps need not be adjacent, and a run of 3 adjacent growing steps is
    sufficient. *)
Theorem abnormalWindowGrowth_counts_steps key st windowHistory :
  windowSizeHistory st !! key = Some windowHistory →
  detectAbnormalWindowGrowth key st =
    ((5 <=? List.length windowHistory)%nat &&
     (3 <=? growingSteps (JS.lastn 5 windowHistory))%nat)
  ∧ ((5 <= List.length windowHistory)%nat →
     (3 <= longestGrowthRun (JS.lastn 5 windowHistory))%nat →
     detectAbnormalWindowGrowth key st = true).
Proof.
  intros Hk.
  assert (Heq : detectAbnormalWindowGrowth key st =
    ((5 <=? List.length windowHistory)%nat &&
     (3 <=? growingSteps (JS.lastn 5 windowHistory))%nat)).
  { unfold detectAbnormalWindowGrowth. rewrite Hk.
    rewrite countGrowth_growingSteps.
    destruct (Nat.ltb_spec (List.length windowHistory) 5),
             (Nat.leb_spec 5 (List.length windowHistory)); try lia; reflexivity. }
  split; [exact Heq|].
  intros H5 Hrun. rewrite Heq.
  pose proof (longestGrowthRun_le_growingSteps (JS.lastn 5 windowHistory)).
  apply andb_true_iff. split; apply Nat.leb_le; lia.
Qed.

(** C9, witness: the five sizes of [burstWindows] are on record and the
    bit is set. *)
Lemma abnormalWindowGrowth_counts_steps_witness :
  windowSizeHistory burstState !! burstKey = Some burstWindows
  ∧ detectAbnormalWindowGrowth burstKey burstState = true.
Proof.
  assert (H : windowSizeHistory burstState !! burstKey = Some burstWindows)
    by (vm_compute; reflexivity).
  split; [exact H|].
  rewrite (proj1 (abnormalWindowGrowth_counts_steps burstKey burstState burstWindows H)).
  vm_compute. reflexivity.
Defined.

(** C9, counterexample: five sizes are on record, the longest run of
    adjacent growing steps among them has length 2, and the bit is set. *)
Lemma abnormalWindowGrowth_consecutive_counterexample :
  windowSizeHistory burstState !! burstKey = Some burstWindows
  ∧ longestGrowthRun (JS.lastn 5 burstWindows) = 2%nat
  ∧ detectAbnormalWindowGrowth burstKey burstState = true.
Proof. vm_compute. auto. Qed.

(** *** Memory *)

Lemma updateACKFrequency_windowSizeHistory p st :
  windowSizeHistory (updateACKFrequency p st) = windowSizeHistory st.
Proof. unfold updateACKFrequency. destruct (negb _); reflexivity. Qed.

Lemma analyzePacket_windowSizeHistory now p st :
  windowSizeHistory (analyzePacket now p st).1
  = windowSizeHistory
      (updateWindowSizeHistory p
         (mkState (trafficHistory st ++ [p]) (windowSizeHistory st) (ackFrequencyMap st))).
Proof.
  unfold analyzePacket. cbn [fst].
  destruct (10000 <? _); cbn [windowSizeHistory];
    apply updateACKFrequency_windowSizeHistory.
Qed.

Lemma analyzePacket_bounded now p st key :
  Z.of_nat (List.length (trafficHistory st)) <= 10000 →
  (∀ k, Z.of_nat (List.length (windowSizes k st)) <= 100) →
  Z.of_nat (List.length (trafficHistory (analyzePacket now p st).1)) <= 10000
  ∧ Z.of_nat (List.length (windowSizes key (analyzePacket now p st).1)) <= 100.
Proof.
  intros Hh Hw. split.
  - unfold analyzePacket. cbn [fst].
    destruct (10000 <? _) eqn:E; cbn [trafficHistory].
    + pose proof (JSFacts.lastn_length (Z.to_nat 5000)
                    (trafficHistory
                       (updateACKFrequency p
                          (updateWindowSizeHistory p
                             (mkState (trafficHistory st ++ [p]) (windowSizeHistory st)
                                (ackFrequencyMap st)))))). lia.
    + apply Z.ltb_ge in E. exact E.
  - unfold windowSizes in *. rewrite analyzePacket_windowSizeHistory.
    unfold updateWindowSizeHistory. cbn [windowSizeHistory].
    destruct (decide (key = connectionKey p)) as [->|Hne].
    + rewrite lookup_insert_eq. cbn [default id].
      specialize (Hw (connectionKey p)).
      match goal with
      | |- context [(100 <? ?n)%nat] => destruct (Nat.ltb_spec 100 n) as [H|H]
      end.
      * rewrite length_skipn, length_app in *. cbn [List.length] in *. lia.
      * lia.
    + rewrite lookup_insert_ne by congruence. apply Hw.
Qed.

(** X1.  Whatever packets are analysed, the traffic analyzer never
    keeps more than 10000 packets on record, nor more than 100 window
    sizes for a connection. *)
Theorem traffic_memory_bounded inputs key :
  Z.of_nat (List.length (trafficHistory (analyzeAll inputs initial))) <= 10000
  ∧ Z.of_nat (List.length (windowSizes key (analyzeAll inputs initial))) <= 100.
Proof.
  assert (H : ∀ st,
            Z.of_nat (List.length (trafficHistory st)) <= 10000 →
            (∀ k, Z.of_nat (List.length (windowSizes k st)) <= 100) →
            Z.of_nat (List.length (trafficHistory (analyzeAll inputs st))) <= 10000
            ∧ ∀ k, Z.of_nat (List.length (windowSizes k (analyzeAll inputs st))) <= 100).
  { unfold analyzeAll. induction inputs as [|[now p] inputs IH]; intros st Hh Hw.
    - split; assumption.
    - cbn [fold_left fst snd]. apply IH.
      + apply (analyzePacket_bounded now p st "" Hh Hw).
      + intros k. apply (analyzePacket_bounded now p st k Hh Hw). }
  destruct (H initial) as [H1 H2].
  - cbn. lia.
  - intros k. unfold windowSizes. cbn. rewrite lookup_empty. cbn. lia.
  - split; [exact H1 | apply H2].
Qed.

(** *** The ACK times of a connection *)

Lemma shiftOld_suffix cutoff l : ∃ dropped, l = dropped ++ shiftOld cutoff l.
Proof.
  induction l as [|t l IH]; [exists []; reflexivity|].
  cbn [shiftOld]. destruct (t <? cutoff); [|exists []; reflexivity].
  destruct IH as [d Hd]. exists (t :: d). cbn. f_equal. exact Hd.
Qed.

Lemma shiftOld_recent cutoff l :
  StronglySorted Z.le l → Forall (fun t => cutoff <= t) (shiftOld cutoff l).
Proof.
  induction l as [|t l IH]; intros Hs; [constructor|].
  inversion_clear Hs as [|? ? Hl Ht]. cbn [shiftOld].
  destruct (Z.ltb_spec t cutoff); [apply IH, Hl|].
  constructor; [assumption|].
  eapply Forall_impl; [exact Ht|]. cbn. intros; lia.
Qed.

Lemma shiftOld_keeps_newest cutoff l t :
  cutoff <= t → last (shiftOld cutoff (l ++ [t])) = Some t.
Proof.
  intros Ht. induction l as [|x l IH]; cbn [app shiftOld].
  - destruct (Z.ltb_spec t cutoff); [lia | reflexivity].
  - destruct (x <? cutoff); [exact IH|]. apply (last_snoc t (x :: l)).
Qed.

Lemma StronglySorted_snoc l t :
  StronglySorted Z.le l → Forall (fun x => x <= t) l → StronglySorted Z.le (l ++ [t]).
Proof.
  induction l as [|x l IH]; intros Hs Hf; cbn [app].
  - repeat constructor.
  - inversion_clear Hs as [|? ? Hl Hx]. inversion_clear Hf as [|? ? Hxt Hlt].
    constructor; [apply IH; assumption|].
    apply Forall_app. split; [exact Hx | repeat constructor; exact Hxt].
Qed.

Lemma StronglySorted_suffix (d l : list Z) :
  StronglySorted Z.le (d ++ l) → StronglySorted Z.le l.
Proof.
  induction d as [|x d IH]; cbn [app]; [auto|].
  intros H. inversion_clear H. auto.
Qed.

Lemma ackWindow_later latest latest' l :
  latest <= latest' → ackWindow latest l → ackWindow latest' l.
Proof.
  intros Hle (Hs & Hf & Hn). split; [exact Hs|]. split; [|exact Hn].
  eapply Forall_impl; [exact Hf|]. cbn. intros; lia.
Qed.

Lemma analyzePacket_ackFrequencyMap now p st :
  ackFrequencyMap (analyzePacket now p st).1
  = ackFrequencyMap
      (updateACKFrequency p
         (mkState (trafficHistory st ++ [p]) (windowSizeHistory st) (ackFrequencyMap st))).
Proof.
  unfold analyzePacket. cbn [fst].
  destruct (10000 <? _); cbn [ackFrequencyMap];
    unfold updateACKFrequency; destruct (negb _); reflexivity.
Qed.

Lemma analyzePacket_ackWindow now p st latest :
  latest <= timestamp p →
  (∀ k, ackWindow latest (ackTimes k st)) →
  ∀ k, ackWindow (timestamp p) (ackTimes k (analyzePacket now p st).1).
Proof.
  intros Hle Hinv k. unfold ackTimes in *. rewrite analyzePacket_ackFrequencyMap.
  unfold updateACKFrequency. cbn [flags ackFrequencyMap timestamp].
  destruct (negb (hasFlag "ACK" (flags p)));
    [apply (ackWindow_later latest); [exact Hle | apply Hinv]|].
  cbn [ackFrequencyMap].
  destruct (decide (k = connectionKey p)) as [->|Hne];
    [|rewrite lookup_insert_ne by congruence;
      apply (ackWindow_later latest); [exact Hle | apply Hinv]].
  rewrite lookup_insert_eq. cbn [default id].
  destruct (Hinv (connectionKey p)) as (Hs & Hf & _).
  set (l := default [] (ackFrequencyMap st !! connectionKey p)) in *.
  assert (Hsorted : StronglySorted Z.le (l ++ [timestamp p])).
  { apply StronglySorted_snoc; [exact Hs|].
    eapply Forall_impl; [exact Hf|]. cbn. intros; lia. }
  destruct (shiftOld_suffix (timestamp p - 10000) (l ++ [timestamp p])) as [d Hd].
  split; [|split].
  - apply (StronglySorted_suffix d). rewrite <- Hd. exact Hsorted.
  - assert (Hall : Forall (fun t => t <= timestamp p) (l ++ [timestamp p])).
    { apply Forall_app. split; [|repeat constructor; lia].
      eapply Forall_impl; [exact Hf|]. cbn. intros; lia. }
    rewrite Hd in Hall. apply Forall_app in Hall. apply Hall.
  - intros newest Hnew. rewrite shiftOld_keeps_newest in Hnew by lia.
    injection Hnew as <-. apply shiftOld_recent, Hsorted.
Qed.

(** X2.  When the packets arrive with timestamps that never
    decrease, the ACK times the analyzer keeps for a connection are in
    order, and the oldest is at most ten seconds older than the newest. *)
Theorem ack_times_span_ten_seconds inputs key :
  StronglySorted Z.le ((fun input => timestamp input.2) <$> inputs) →
  StronglySorted Z.le (ackTimes key (analyzeAll inputs initial))
  ∧ ∀ oldest newest,
      head (ackTimes key (analyzeAll inputs initial)) = Some oldest →
      last (ackTimes key (analyzeAll inputs initial)) = Some newest →
      0 <= newest - oldest <= 10000.
Proof.
  intros Hsorted.
  assert (H : ∀ st latest,
            Forall (fun input => latest <= timestamp input.2) inputs →
            (∀ k, ackWindow latest (ackTimes k st)) →
            ∃ latest', ∀ k, ackWindow latest' (ackTimes k (analyzeAll inputs st))).
  { unfold analyzeAll. clear key.
    induction inputs as [|[now p] inputs IH]; intros st latest Hge Hinv.
    - exists latest. exact Hinv.
    - cbn [fold_left fst snd]. cbn [fmap list_fmap snd] in Hsorted.
      inversion_clear Hsorted as [|? ? Hrest Hp].
      inversion_clear Hge as [|? ? Hge1 _]. cbn [snd] in Hge1.
      apply (IH Hrest _ (timestamp p)).
      + rewrite Forall_fmap in Hp. exact Hp.
      + apply (analyzePacket_ackWindow now p st latest Hge1 Hinv). }
  destruct inputs as [|[now p] inputs'] eqn:Ein.
  - cbn. split; [constructor | intros ? ? H1; discriminate H1].
  - rewrite <- Ein in *. destruct (H initial (timestamp p)) as [latest' Hfinal].
    + rewrite Ein. rewrite Ein in Hsorted. cbn [fmap list_fmap snd] in Hsorted.
      inversion_clear Hsorted as [|? ? _ Hp]. constructor; [cbn; lia|].
      rewrite Forall_fmap in Hp. exact Hp.
    + intros k. unfold ackTimes. cbn. rewrite lookup_empty. cbn.
      split; [constructor|]. split; [constructor|]. intros ? H1. discriminate H1.
    + destruct (Hfinal key) as (Hs & _ & Hn). split; [exact Hs|].
      intros oldest newest Hhead Hlast.
      specialize (Hn newest Hlast).
      destruct (ackTimes key (analyzeAll inputs initial)) as [|t l]; [discriminate|].
      cbn in Hhead. injection Hhead as ->.
      inversion_clear Hn as [|? ? Hold _].
      inversion_clear Hs as [|? ? _ Hle].
      apply last_Some_elem_of in Hlast. apply elem_of_cons in Hlast.
      destruct Hlast as [->|Hin]; [lia|].
      rewrite Forall_forall in Hle. specialize (Hle _ Hin). lia.
Qed.
(** X2, witness: of ACKs at 0, 6 and 12 seconds the last two are
    kept. *)
Lemma ack_times_span_ten_seconds_witness :
  head (ackTimes burstKey (analyzeAll ackBurst initial)) = Some 6000
  ∧ last (ackTimes burstKey (analyzeAll ackBurst initial)) = Some 12000
  ∧ 0 <= 12000 - 6000 <= 10000.
Proof.
  assert (Hsorted : StronglySorted Z.le ((fun input => timestamp input.2) <$> ackBurst)).
  { cbn. repeat constructor; lia. }
  assert (H1 : head (ackTimes burstKey (analyzeAll ackBurst initial)) = Some 6000)
    by (vm_compute; reflexivity).
  assert (H2 : last (ackTimes burstKey (analyzeAll ackBurst initial)) = Some 12000)
    by (vm_compute; reflexivity).
  split; [exact H1|]. split; [exact H2|].
  exact (proj2 (ack_times_span_ten_seconds ackBurst burstKey Hsorted) 6000 12000 H1 H2).
Defined.

End TrafficAnalyzerFacts.

(** ** Defense System *)

Module DefenseSystemFacts.
Import DefenseSystem.

(** *** Frame properties of the helpers *)

Lemma recordAction_quarantinedIPs a s :
  quarantinedIPs (recordAction a s) = quarantinedIPs s.
Proof. reflexivity. Qed.

Lemma recordAction_connectionStates a s :
  connectionStates (recordAction a s) = connectionStates s.
Proof. reflexivity. Qed.

Lemma recordAction_config a s : config (recordAction a s) = config s.
Proof. reflexivity. Qed.

Lemma putConn_quarantinedIPs key c s :
  quarantinedIPs (putConn key c s) = quarantinedIPs s.
Proof. reflexivity. Qed.

Lemma checkACKRateLimit_ip cfg now c :
  ip (checkACKRateLimit cfg now c).2 = ip c.
Proof.
  unfold checkACKRateLimit.
  destruct (1000 <? now - lastACKTime c); cbn;
    match goal with |- context [if ?b then _ else _] => destruct b end; reflexivity.
Qed.

Lemma checkACKRateLimit_score cfg now c :
  anomalyScore (checkACKRateLimit cfg now c).2 = anomalyScore c.
Proof.
  unfold checkACKRateLimit.
  destruct (1000 <? now - lastACKTime c); cbn;
    match goal with |- context [if ?b then _ else _] => destruct b end; reflexivity.
Qed.

Lemma detectAnomalies_mock : detectAnomalies mockSignature = (false, "").
Proof. reflexivity. Qed.

Lemma detectAnomalies_true signature :
  (detectAnomalies signature).1 = true → (2 <= List.length (anomalies signature))%nat.
Proof.
  unfold detectAnomalies.
  destruct (Nat.leb_spec 2 (List.length (anomalies signature))); [auto | discriminate].
Qed.

Lemma quarantineIP_elem addr now s :
  quarantineEnabled (config s) = true → addr ∈ quarantinedIPs (quarantineIP addr now s).
Proof.
  intros H. unfold quarantineIP. rewrite H. simpl. set_solver.
Qed.

Lemma quarantineIP_lookup addr now s key c :
  quarantineEnabled (config s) = true →
  connectionStates s !! key = Some c →
  ∃ c', connectionStates (quarantineIP addr now s) !! key = Some c'
        ∧ anomalyScore c' = anomalyScore c ∧ ip c' = ip c.
Proof.
  intros H Hk. unfold quarantineIP. rewrite H. simpl.
  rewrite lookup_fmap, Hk. simpl.
  eexists. split; [reflexivity|].
  destruct (String.eqb (ip c) addr); split; reflexivity.
Qed.

(** Case analysis on the branches of [runDefenseChecks]. *)
Ltac split_checks :=
  unfold runDefenseChecks, createDefenseAction, reject;
  repeat match goal with
  | |- context [let '(_, _) := (if ?b then _ else _) in _] => destruct b eqn:?
  | |- context [let '(_, _) := checkACKRateLimit ?cfg ?now ?c in _] =>
      let E := fresh "Erate" in
      let Hip := fresh "Hip" in
      let Hsc := fresh "Hscore" in
      pose proof (checkACKRateLimit_ip cfg now c) as Hip;
      pose proof (checkACKRateLimit_score cfg now c) as Hsc;
      destruct (checkACKRateLimit cfg now c) as [[? ?] ?] eqn:E;
      cbn [fst snd] in Hip, Hsc
  | |- context [if ?b then _ else _] => destruct b eqn:?
  end; cbn [fst snd].

(** *** Quarantine *)

(** The only branch of [runDefenseChecks] that returns a [quarantine]
    action is the anomaly check, taken when two or more signature bits
    are set and the score after the 0.4 hit has reached the threshold;
    with quarantine enabled the IP is then in the quarantine set. *)
Lemma runDefenseChecks_quarantine key c seq ack win flags signature now s a :
  quarantineEnabled (config s) = true →
  action (runDefenseChecks key c seq ack win flags signature now s).1 = Some a →
  type a = quarantine →
  anomalyDetectionEnabled (config s) = true
  ∧ (2 <= List.length (anomalies signature))%nat
  ∧ ip c ∈ quarantinedIPs (runDefenseChecks key c seq ack win flags signature now s).2
  ∧ ∃ c', connectionStates
            (runDefenseChecks key c seq ack win flags signature now s).2 !! key = Some c'
          ∧ Qle_bool (suspiciousPatternThreshold (config s)) (anomalyScore c') = true.
Proof.
  intros Hq.
  split_checks; cbn; intros H; inversion H; subst; clear H; cbn;
    intros H; try discriminate H; clear H.
  all: try match goal with
       | H : (false, _).1 = true |- _ => discriminate H
       end.
  all: split; [assumption || reflexivity|].
  all: split; [apply detectAnomalies_true; assumption|].
  all: split;
    [ match goal with
      | |- ?x ∈ quarantinedIPs (quarantineIP ?y _ _) =>
          replace x with y by congruence
      end;
      apply quarantineIP_elem; exact Hq
    | match goal with
      | |- ∃ _, connectionStates (quarantineIP ?addr ?t (putConn ?k ?c0 ?s0)) !! _ = _ ∧ _ =>
          destruct (quarantineIP_lookup addr t (putConn k c0 s0) k c0 Hq
                      (lookup_insert_eq _ _ _)) as (c' & Hl & Hs & _);
          exists c'; split; [exact Hl | rewrite Hs]
      end;
      match goal with
      | H : Qgeb _ _ = true |- _ => exact H
      end ].
Qed.

Lemma validateConnection_quarantined addr port seq ack win flags now s :
  addr ∈ quarantinedIPs s →
  blockedAsQuarantined (validateConnection addr port seq ack win flags now s).1
  ∧ quarantinedIPs (validateConnection addr port seq ack win flags now s).2
    = quarantinedIPs s
  ∧ connectionStates (validateConnection addr port seq ack win flags now s).2
    = connectionStates s.
Proof.
  intros Hin. unfold validateConnection, isQuarantined.
  rewrite bool_decide_eq_true_2 by exact Hin. cbn.
  split; [|split; reflexivity].
  split; [reflexivity|]. eexists. repeat split; reflexivity.
Qed.

Lemma validateAll_quarantined addr calls s :
  addr ∈ quarantinedIPs s →
  Forall blockedAsQuarantined (validateAll addr calls s).1
  ∧ List.length (validateAll addr calls s).1 = List.length calls
  ∧ addr ∈ quarantinedIPs (validateAll addr calls s).2.
Proof.
  revert s. induction calls as [|k rest IH]; intros s Hin.
  - cbn. auto.
  - cbn [validateAll].
    destruct (validateConnection_quarantined addr (c_port k) (c_seq k) (c_ack k)
                (c_win k) (c_flags k) (c_now k) s Hin) as (Hb & Hq & _).
    destruct (validateConnection addr (c_port k) (c_seq k) (c_ack k) (c_win k)
                (c_flags k) (c_now k) s) as [v s1].
    cbn [fst snd] in Hb, Hq.
    assert (Hin1 : addr ∈ quarantinedIPs s1) by (rewrite Hq; exact Hin).
    destruct (IH s1 Hin1) as (HF & HL & HQ).
    destruct (validateAll addr rest s1) as [vs s2]. cbn [fst snd] in *.
    split; [constructor; assumption|].
    split; [cbn; f_equal; exact HL | exact HQ].
Qed.

(** With the all-false signature the anomaly check never fires, so
    [runDefenseChecks] leaves the quarantine set alone. *)
Lemma runDefenseChecks_mock_quarantinedIPs key c seq ack win flags now s :
  quarantinedIPs (runDefenseChecks key c seq ack win flags mockSignature now s).2
  = quarantinedIPs s.
Proof.
  split_checks; try reflexivity.
  all: match goal with
       | H : (detectAnomalies mockSignature).1 = true |- _ => discriminate H
       | H : (false, _).1 = true |- _ => discriminate H
       end.
Qed.

(** [validateConnection] never adds an IP to the quarantine set, whatever
    score the connection has accumulated. *)
Lemma validateConnection_never_quarantines addr port seq ack win flags now s :
  quarantinedIPs (validateConnection addr port seq ack win flags now s).2
  = quarantinedIPs s.
Proof.
  unfold validateConnection.
  destruct (isQuarantined addr s); [reflexivity|].
  unfold getOrCreateConnectionState.
  destruct (connectionStates s !! connId addr port) as [c|].
  - pose proof (runDefenseChecks_mock_quarantinedIPs (connId addr port) c
                  seq ack win flags now s) as H.
    destruct (runDefenseChecks _ _ _ _ _ _ _ _ _) as [v s1]. cbn [snd] in H.
    destruct (allowed v); cbn; exact H.
  - match goal with
    | |- context [runDefenseChecks ?k ?c _ _ _ _ _ _ ?s0] =>
        pose proof (runDefenseChecks_mock_quarantinedIPs k c seq ack win flags now s0) as H;
        destruct (runDefenseChecks k c seq ack win flags mockSignature now s0) as [v s1]
    end.
    cbn [snd] in H. destruct (allowed v); cbn; exact H.
Qed.

Lemma checkACKRateLimit_same cfg now c :
  ip (checkACKRateLimit cfg now c).2 = ip c
  ∧ port (checkACKRateLimit cfg now c).2 = port c
  ∧ expectedSeq (checkACKRateLimit cfg now c).2 = expectedSeq c
  ∧ windowSize (checkACKRateLimit cfg now c).2 = windowSize c
  ∧ anomalyScore (checkACKRateLimit cfg now c).2 = anomalyScore c.
Proof.
  unfold checkACKRateLimit.
  destruct (1000 <? now - lastACKTime c); cbn;
    match goal with |- context [if ?b then _ else _] => destruct b end;
    repeat split; reflexivity.
Qed.

(** A packet that passes the three packet checks reaches the anomaly
    check; with two or more signature bits set the score is raised by
    0.4 and compared with the threshold: the packet is rejected with a
    [quarantine] action and the IP quarantined when the score has reached
    the threshold, and with a [block] action otherwise. *)
Lemma runDefenseChecks_anomaly key c seq ack win flags signature now s :
  anomalyDetectionEnabled (config s) = true →
  quarantineEnabled (config s) = true →
  (2 <= List.length (anomalies signature))%nat →
  passesPacketChecks (config s) now c seq ack flags →
  ∃ c' a,
    connectionStates (runDefenseChecks key c seq ack win flags signature now s).2 !! key
    = Some c'
    ∧ anomalyScore c'
      = Qmin' 1 (JS.double (scoreBeforeHit (config s) c win + JS.double (4 # 10)))
    ∧ (runDefenseChecks key c seq ack win flags signature now s).1 = reject a
    ∧ (Qle_bool (suspiciousPatternThreshold (config s)) (anomalyScore c') = true →
       type a = quarantine
       ∧ ip c ∈ quarantinedIPs (runDefenseChecks key c seq ack win flags signature now s).2)
    ∧ (Qle_bool (suspiciousPatternThreshold (config s)) (anomalyScore c') = false →
       type a = block
       ∧ quarantinedIPs (runDefenseChecks key c seq ack win flags signature now s).2
         = quarantinedIPs s).
Proof.
  intros Hd Hq Hn (H1 & H2 & H3).
  assert (Hdet : (detectAnomalies signature).1 = true).
  { unfold detectAnomalies.
    destruct (Nat.leb_spec 2 (List.length (anomalies signature))); [reflexivity | lia]. }
  unfold runDefenseChecks, scoreBeforeHit, createDefenseAction, reject. cbv zeta.
  (* 1. ACK validation *)
  destruct (ackValidationEnabled (config s) && hasFlag "ACK" flags
            && (suspicious c || Qgtb (anomalyScore c) (1 # 2))) eqn:E1;
    [rewrite (H1 eq_refl) | ]; cbn [fst negb].
  all: clear H1 E1.
  (* 2. rate limiting *)
  all: assert (Hrate :
         ∃ why c0,
           (if rateLimitingEnabled (config s) && hasFlag "ACK" flags
            then checkACKRateLimit (config s) now c else ((true, ""), c))
           = ((true, why), c0)
           ∧ ip c0 = ip c ∧ expectedSeq c0 = expectedSeq c
           ∧ windowSize c0 = windowSize c ∧ anomalyScore c0 = anomalyScore c)
    by (destruct (rateLimitingEnabled (config s) && hasFlag "ACK" flags);
        [ specialize (H2 eq_refl);
          destruct (checkACKRateLimit_same (config s) now c) as (?&?&?&?&?);
          destruct (checkACKRateLimit (config s) now c) as [[ok why] c0];
          cbn [fst snd] in *; subst ok; exists why, c0; auto
        | exists "", c; auto ]).
  all: destruct Hrate as (why & c0 & -> & Hip & Hseq & Hwin & Hscore).
  all: cbn [fst snd negb]. all: clear H2.
  (* 3. sequence tracking *)
  all: assert (Hs : (if sequenceTrackingEnabled (config s)
                     then validateSequenceNumber c0 seq else (true, "")).1 = true)
    by (destruct (sequenceTrackingEnabled (config s)); [|reflexivity];
        rewrite <- (H3 eq_refl); unfold validateSequenceNumber; rewrite Hseq;
        reflexivity).
  all: rewrite Hs; cbn [negb]; clear Hs H3.
  (* 4. window size *)
  all: assert (Hw : validateWindowSize (config s) c0 win
                    = validateWindowSize (config s) c win)
    by (unfold validateWindowSize; rewrite Hwin; reflexivity).
  all: rewrite Hw, Hd, Hdet, <- Hscore.
  all: destruct (adaptiveWindowEnabled (config s)); cbn [andb fst snd negb].
  all: try destruct (validateWindowSize (config s) c win).1; cbn [negb fst snd].
  all: match goal with
       | |- context [Qgeb (anomalyScore ?c1) ?thr] =>
           destruct (Qgeb (anomalyScore c1) thr) eqn:Eg; cbn [fst snd];
           unfold Qgeb in Eg
       end.
  all: rewrite ?recordAction_connectionStates, ?recordAction_quarantinedIPs.
  all: cbn [ip anomalyScore updateAnomalyScore] in *; rewrite ?Hip.
  all: try match goal with
       | |- context [quarantineIP ?addr ?t (putConn ?k ?c1 ?s0)] =>
           destruct (quarantineIP_lookup addr t (putConn k c1 s0) k c1 Hq
                       (lookup_insert_eq _ _ _)) as (c' & Hl & Hs & _);
           pose proof (quarantineIP_elem addr t (putConn k c1 s0) Hq) as Hin;
           exists c'; eexists;
           split; [exact Hl|]; rewrite Hs;
           split; [reflexivity|]; split; [reflexivity|];
           split; [intros _; split; [reflexivity | exact Hin]
                  | intros Hf; cbn [anomalyScore updateAnomalyScore] in Hf; congruence]
      end.
  all: eexists; eexists.
  all: (split; [apply lookup_insert_eq|]).
  all: (split; [reflexivity|]); (split; [reflexivity|]).
  all: (split; [intros Ht; cbn [anomalyScore updateAnomalyScore] in Ht; congruence|]).
  all: intros _; split; reflexivity.
Qed.

(** C1 (as amended).  On a packet that passes the ACK, rate and
    sequence checks, with anomaly detection and quarantine enabled and
    two or more bits of the supplied signature set, [runDefenseChecks]
    raises the score of the connection by 0.4 (capped at 1, and on top of
    the 0.2 of a window alert) and rejects the packet.  If the score has
    then reached or exceeded [suspiciousPatternThreshold], the action is
    [quarantine], the IP of the connection is in the quarantine set, and
    every [validateConnection] call made from that IP afterwards, before
    a release, is rejected with a [block] action of reason "IP is
    quarantined", whatever its port, seq, ack, window and flags.  If the
    score is still below the threshold, the action is [block] and the
    quarantine set is as before. *)
Theorem quarantine_transition key c seq ack win flags signature now s calls :
  anomalyDetectionEnabled (config s) = true →
  quarantineEnabled (config s) = true →
  (2 <= List.length (anomalies signature))%nat →
  passesPacketChecks (config s) now c seq ack flags →
  ∃ c' a,
    connectionStates (runDefenseChecks key c seq ack win flags signature now s).2 !! key
    = Some c'
    ∧ anomalyScore c'
      = Qmin' 1 (JS.double (scoreBeforeHit (config s) c win + JS.double (4 # 10)))
    ∧ (runDefenseChecks key c seq ack win flags signature now s).1 = reject a
    ∧ ((suspiciousPatternThreshold (config s) <= anomalyScore c')%Q →
       type a = quarantine
       ∧ ip c ∈ quarantinedIPs (runDefenseChecks key c seq ack win flags signature now s).2
       ∧ Forall blockedAsQuarantined
           (validateAll (ip c) calls
              (runDefenseChecks key c seq ack win flags signature now s).2).1
       ∧ List.length
           (validateAll (ip c) calls
              (runDefenseChecks key c seq ack win flags signature now s).2).1
         = List.length calls)
    ∧ (¬ (suspiciousPatternThreshold (config s) <= anomalyScore c')%Q →
       type a = block
       ∧ quarantinedIPs (runDefenseChecks key c seq ack win flags signature now s).2
         = quarantinedIPs s).
Proof.
  intros Hd Hq Hn Hpass.
  destruct (runDefenseChecks_anomaly key c seq ack win flags signature now s
              Hd Hq Hn Hpass) as (c' & a & Hl & Hs & Hv & Hyes & Hno).
  exists c', a.
  split; [exact Hl|]. split; [exact Hs|]. split; [exact Hv|]. split.
  - intros Hle. apply Qle_bool_iff in Hle. destruct (Hyes Hle) as [Ht Hin].
    destruct (validateAll_quarantined (ip c) calls _ Hin) as (HF & HL & _).
    repeat split; assumption.
  - intros Hlt. apply Hno.
    destruct (Qle_bool _ _) eqn:E; [|reflexivity].
    apply Qle_bool_iff in E. contradiction.
Qed.

(** C1, witness: under the default threshold 0.7 the first hit on
    10.0.0.7 is answered by a [block] action (score 0.4), the second one
    (score 0.8) quarantines the IP, and three later calls from it are
    blocked; under a threshold of 0.4 the first hit, which reaches the
    threshold exactly, quarantines 10.0.0.8. *)
Lemma quarantine_transition_witness :
  type <$> action hitOnce.1 = Some block
  ∧ "10.0.0.7" ∈ quarantinedIPs
      (runDefenseChecks hitKey hitConn 1 1 100 [] hitSignature 2 hitOnce.2).2
  ∧ Forall blockedAsQuarantined
      (validateAll "10.0.0.7" hitCalls
         (runDefenseChecks hitKey hitConn 1 1 100 [] hitSignature 2 hitOnce.2).2).1
  ∧ "10.0.0.8" ∈ quarantinedIPs
      (runDefenseChecks (connId "10.0.0.8" 40000) exactFresh.1 1 1 100 [] hitSignature 1
         exactFresh.2).2
  ∧ (λ c', Qeq_bool (anomalyScore c') (suspiciousPatternThreshold exactConfig))
      <$> connectionStates
            (runDefenseChecks (connId "10.0.0.8" 40000) exactFresh.1 1 1 100 []
               hitSignature 1 exactFresh.2).2 !! connId "10.0.0.8" 40000
    = Some true.
Proof.
  assert (Hpass : ∀ cfg now c, expectedSeq c = 0 → passesPacketChecks cfg now c 1 1 []).
  { intros cfg now c He. unfold passesPacketChecks, validateSequenceNumber.
    rewrite He. cbn [hasFlag existsb]. rewrite !andb_false_r. cbn [andb].
    repeat split; try discriminate. }
  split; [|split; [|split; [|split; [|vm_compute; reflexivity]]]].
  - destruct (quarantine_transition hitKey hitFresh.1 1 1 100 [] hitSignature 1 hitFresh.2
                [] eq_refl eq_refl) as (c' & a & Hl & Hs & Hv & _ & Hno);
      [vm_compute; lia | apply Hpass; reflexivity |].
    change (runDefenseChecks hitKey hitFresh.1 1 1 100 [] hitSignature 1 hitFresh.2)
      with hitOnce in Hv.
    rewrite Hv. cbn. f_equal. apply Hno.
    rewrite Hs. vm_compute. intros H. apply H. reflexivity.
  - destruct (quarantine_transition hitKey hitConn 1 1 100 [] hitSignature 2 hitOnce.2
                hitCalls eq_refl eq_refl) as (c' & a & Hl & Hs & Hv & Hyes & _);
      [vm_compute; lia | apply Hpass; reflexivity |].
    apply Hyes. rewrite Hs. vm_compute. discriminate.
  - destruct (quarantine_transition hitKey hitConn 1 1 100 [] hitSignature 2 hitOnce.2
                hitCalls eq_refl eq_refl) as (c' & a & Hl & Hs & Hv & Hyes & _);
      [vm_compute; lia | apply Hpass; reflexivity |].
    apply Hyes. rewrite Hs. vm_compute. discriminate.
  - destruct (quarantine_transition (connId "10.0.0.8" 40000) exactFresh.1 1 1 100 []
                hitSignature 1 exactFresh.2 [] eq_refl eq_refl)
      as (c' & a & Hl & Hs & Hv & Hyes & _);
      [vm_compute; lia | apply Hpass; reflexivity |].
    apply Hyes. rewrite Hs. vm_compute. discriminate.
Defined.

(** C1, counterexample.  Five [validateConnection] calls on one
    connection under the default configuration (threshold 0.7): the
    first is allowed, the next three are rejected by sequence tracking
    and raise the score to 0.75, above the threshold; the IP is not
    quarantined and the fifth call is allowed. *)
Lemma quarantine_by_score_counterexample :
  (λ c, Qle_bool (suspiciousPatternThreshold defaultConfig) (anomalyScore c))
    <$> connectionStates probeState !! connId "192.0.2.1" 5000 = Some true
  ∧ isQuarantined "192.0.2.1" probeState = false
  ∧ allowed (validateConnection "192.0.2.1" 5000 1 1 100 ["ACK"] 4 probeState).1 = true.
Proof. vm_compute. auto. Qed.

(** [windowSize / state.windowSize] for 107 and 40: the quotient is
    below 2.675, and [toFixed(2)] prints 2.67. *)
Lemma window_growth_example :
  validateWindowSize defaultConfig
    (mkConnectionState "10.0.0.1" 1 0 0 0 40 0 0 false false 0 0) 107
  = (false, "Abnormal window growth: 2.67x increase").
Proof. vm_compute. reflexivity. Qed.

(** *** ACK validation *)

Lemma validateConnection_known addr port seq ack win flags now s c :
  isQuarantined addr s = false →
  connectionStates s !! connId addr port = Some c →
  (validateConnection addr port seq ack win flags now s).1 =
  (runDefenseChecks (connId addr port) c seq ack win flags mockSignature now s).1.
Proof.
  intros Hq Hk. unfold validateConnection, getOrCreateConnectionState.
  rewrite Hq, Hk.
  destruct (runDefenseChecks _ _ _ _ _ _ _ _ _) as [v s1].
  destruct (allowed v) eqn:Hv; reflexivity.
Qed.

Lemma runDefenseChecks_ack_invalid key c seq ack win flags signature now s why :
  ackValidationEnabled (config s) = true →
  hasFlag "ACK" flags = true →
  suspicious c = true →
  validateACKNumber (config s) c ack = (false, why) →
  (runDefenseChecks key c seq ack win flags signature now s).1 =
  reject (mkDefenseAction reject_packet why high now (connId (ip c) (port c))).
Proof.
  intros He Hf Hs Hv. unfold runDefenseChecks.
  rewrite He, Hf, Hs, Hv. reflexivity.
Qed.

(** When the ACK number is valid, a verdict of [validateConnection]'s
    checks is either "allowed" or a rejection of severity medium (rate
    limit, sequence tracking). *)
Lemma runDefenseChecks_ack_valid key c seq ack win flags now s :
  validateACKNumber (config s) c ack = (true, "") →
  (∀ a, action (runDefenseChecks key c seq ack win flags mockSignature now s).1 = Some a →
        severity a = medium)
  ∧ (rateLimitingEnabled (config s) = false →
     sequenceTrackingEnabled (config s) = false →
     allowed (runDefenseChecks key c seq ack win flags mockSignature now s).1 = true).
Proof.
  intros Hv. unfold runDefenseChecks at 1 2. rewrite Hv.
  split.
  - unfold createDefenseAction, reject.
    repeat match goal with
    | |- context [let '(_, _) := (if ?b then _ else _) in _] => destruct b eqn:?
    | |- context [let '(_, _) := checkACKRateLimit ?cfg ?t ?c0 in _] =>
        destruct (checkACKRateLimit cfg t c0) as [[? ?] ?] eqn:?
    | |- context [if ?b then _ else _] => destruct b eqn:?
    end; cbn; intros a H; inversion H; subst; try reflexivity.
    all: match goal with
         | H : negb (true, _).1 = true |- _ => discriminate H
         | H : (detectAnomalies mockSignature).1 = true |- _ => discriminate H
         | H : (false, _).1 = true |- _ => discriminate H
         end.
  - intros Hr Hs. rewrite Hr, Hs. cbn.
    replace (if ackValidationEnabled (config s) && hasFlag "ACK" flags &&
                (suspicious c || Qgtb (anomalyScore c) (1 # 2))
             then (true, "") else (true, "")) with (true, "")
      by (destruct (_ && _ && _); reflexivity).
    cbn.
    destruct (adaptiveWindowEnabled (config s));
      [destruct (negb (validateWindowSize (config s) c win).1)|];
      destruct (anomalyDetectionEnabled (config s)); reflexivity.
Qed.

Lemma validateACKNumber_above cfg c :
  0 <= maxSequenceGap cfg →
  ∃ why, validateACKNumber cfg c (lastValidAck c + (2 * maxSequenceGap cfg + 1))
         = (false, why)
         ∧ String.prefix "Highly suspicious ACK detected" why = true.
Proof.
  intros HG. unfold validateACKNumber.
  replace (maxSequenceGap cfg * 2 <?
           lastValidAck c + (2 * maxSequenceGap cfg + 1) - lastValidAck c)
    with true by (symmetry; apply Z.ltb_lt; lia).
  eexists. split; reflexivity.
Qed.

Lemma validateACKNumber_at cfg c :
  0 <= maxSequenceGap cfg →
  validateACKNumber cfg c (lastValidAck c + 2 * maxSequenceGap cfg) = (true, "").
Proof.
  intros HG. unfold validateACKNumber.
  replace (maxSequenceGap cfg * 2 <?
           lastValidAck c + 2 * maxSequenceGap cfg - lastValidAck c)
    with false by (symmetry; apply Z.ltb_ge; lia).
  replace (lastValidAck c + 2 * maxSequenceGap cfg <? lastValidAck c - 1024)
    with false by (symmetry; apply Z.ltb_ge; lia).
  reflexivity.
Qed.

Lemma validateACKNumber_regression cfg c ack :
  0 <= maxSequenceGap cfg →
  ack < lastValidAck c - 1024 → 1024 < lastValidAck c →
  ∃ why, validateACKNumber cfg c ack = (false, why)
         ∧ String.prefix "Significant ACK regression detected" why = true.
Proof.
  intros HG Hlt Hbig. unfold validateACKNumber.
  replace (maxSequenceGap cfg * 2 <? ack - lastValidAck c)
    with false by (symmetry; apply Z.ltb_ge; lia).
  replace (ack <? lastValidAck c - 1024) with true by (symmetry; apply Z.ltb_lt; lia).
  replace (1024 <? lastValidAck c) with true by (symmetry; apply Z.ltb_lt; lia).
  eexists. split; reflexivity.
Qed.

(** C2.  On a suspicious connection of an IP that is not quarantined,
    with ACK validation enabled, [maxSequenceGap = G >= 0] and a packet
    carrying the ACK flag: an ack that advances [lastValidAck] by
    [2G+1] is rejected by the ACK validation check with a reason
    beginning "Highly suspicious ACK detected"; an ack that advances it
    by [2G] passes the ACK validation check (the call can then only be
    rejected, with severity medium, by rate limiting or sequence
    tracking, and is allowed when those two are disabled); an ack below
    [lastValidAck - 1024] while [lastValidAck > 1024] is rejected with a
    reason beginning "Significant ACK regression detected". *)
Theorem ack_advance_threshold addr port seq win flags now s c G :
  isQuarantined addr s = false →
  connectionStates s !! connId addr port = Some c →
  suspicious c = true →
  ackValidationEnabled (config s) = true →
  hasFlag "ACK" flags = true →
  maxSequenceGap (config s) = G →
  0 <= G →
  rejectedPacket
    (validateConnection addr port seq (lastValidAck c + (2 * G + 1)) win flags now s).1
    "Highly suspicious ACK detected"
  ∧ validateACKNumber (config s) c (lastValidAck c + 2 * G) = (true, "")
  ∧ (∀ a, action (validateConnection addr port seq (lastValidAck c + 2 * G)
                    win flags now s).1 = Some a → severity a = medium)
  ∧ (rateLimitingEnabled (config s) = false →
     sequenceTrackingEnabled (config s) = false →
     allowed (validateConnection addr port seq (lastValidAck c + 2 * G)
                win flags now s).1 = true)
  ∧ (∀ ack, ack < lastValidAck c - 1024 → 1024 < lastValidAck c →
       rejectedPacket (validateConnection addr port seq ack win flags now s).1
         "Significant ACK regression detected").
Proof.
  intros Hq Hk Hs He Hf HG Hpos. subst G.
  split; [|split; [|split; [|split]]].
  - destruct (validateACKNumber_above (config s) c Hpos) as (why & Hv & Hp).
    rewrite (validateConnection_known _ _ _ _ _ _ _ _ c Hq Hk).
    rewrite (runDefenseChecks_ack_invalid _ _ _ _ _ _ _ _ _ why He Hf Hs Hv).
    split; [reflexivity|]. eexists. repeat split; [reflexivity..|exact Hp].
  - apply validateACKNumber_at; exact Hpos.
  - rewrite (validateConnection_known _ _ _ _ _ _ _ _ c Hq Hk).
    apply runDefenseChecks_ack_valid, validateACKNumber_at; exact Hpos.
  - rewrite (validateConnection_known _ _ _ _ _ _ _ _ c Hq Hk).
    apply runDefenseChecks_ack_valid, validateACKNumber_at; exact Hpos.
  - intros ack Hlt Hbig.
    destruct (validateACKNumber_regression (config s) c ack Hpos Hlt Hbig)
      as (why & Hv & Hp).
    rewrite (validateConnection_known _ _ _ _ _ _ _ _ c Hq Hk).
    rewrite (runDefenseChecks_ack_invalid _ _ _ _ _ _ _ _ _ why He Hf Hs Hv).
    split; [reflexivity|]. eexists. repeat split; [reflexivity..|exact Hp].
Qed.

(** C2, witness: with [lastValidAck = 0] and [G = 1048576], the ack
    2097153 is rejected and the ack 2097152 is valid. *)
Lemma ack_advance_threshold_witness :
  rejectedPacket
    (validateConnection "10.0.0.9" 0 1 2097153 100 ["ACK"] 5 flaggedState).1
    "Highly suspicious ACK detected"
  ∧ validateACKNumber (config flaggedState) flaggedConn 2097152 = (true, "").
Proof.
  destruct (ack_advance_threshold "10.0.0.9" 0 1 100 ["ACK"] 5 flaggedState
              flaggedConn 1048576)
    as (H1 & H2 & _); try (vm_compute; reflexivity).
  - vm_compute. discriminate.
  - split; [exact H1 | exact H2].
Defined.

(** *** The effect of the checks *)

Lemma putConn_putConn key c1 c2 s :
  putConn key c2 (putConn key c1 s) = putConn key c2 s.
Proof. unfold putConn. cbn. f_equal. apply insert_insert_eq. Qed.

Lemma Qmin'_range x : (0 <= x)%Q → (0 <= Qmin' 1 x)%Q ∧ (Qmin' 1 x <= 1)%Q.
Proof.
  intros Hx. unfold Qmin'. destruct (Qle_bool 1 x) eqn:E.
  - split; [discriminate | apply Qle_refl].
  - split; [exact Hx|].
    apply Qlt_le_weak, Qnot_le_lt. intros H. apply Qle_bool_iff in H. congruence.
Qed.

Lemma Qmax'_range x : (x <= 1)%Q → (0 <= Qmax' 0 x)%Q ∧ (Qmax' 0 x <= 1)%Q.
Proof.
  intros Hx. unfold Qmax'. destruct (Qle_bool 0 x) eqn:E.
  - split; [apply Qle_bool_iff; exact E | exact Hx].
  - split; [apply Qle_refl | discriminate].
Qed.

Lemma touched_refl cfg c : touched cfg c c.
Proof. unfold touched. tauto. Qed.

Lemma touched_trans cfg a b c : touched cfg a b → touched cfg b c → touched cfg a c.
Proof.
  unfold touched. intros H1 H2.
  destruct H1 as (?&?&?&?&?&?&?&?&HS1&HR1&HQ1), H2 as (?&?&?&?&?&?&?&?&HS2&HR2&HQ2).
  split; [congruence|]. split; [congruence|]. split; [congruence|].
  split; [congruence|]. split; [congruence|]. split; [congruence|].
  split; [congruence|]. split; [congruence|].
  split; [tauto|]. split; [|tauto].
  intros Hr. destruct (HR1 Hr), (HR2 Hr). split; congruence.
Qed.

Lemma touched_score cfg inc c :
  (0 <= inc)%Q → touched cfg c (updateAnomalyScore inc c).
Proof.
  intros Hinc. unfold touched, scoreInRange. cbn.
  do 8 (split; [reflexivity|]).
  split; [intros H; rewrite H; destruct (Qgtb _ _); reflexivity|].
  split; [intros _; split; reflexivity|].
  intros [H0 _]. apply Qmin'_range, JSFacts.double_nonneg.
  rewrite <- (Qplus_0_r 0). apply Qplus_le_compat; assumption.
Qed.

Lemma touched_rate cfg now c :
  rateLimitingEnabled cfg = true → touched cfg c (checkACKRateLimit cfg now c).2.
Proof.
  intros Hr. unfold touched, checkACKRateLimit.
  destruct (1000 <? now - lastACKTime c); cbn;
    match goal with |- context [if ?b then _ else _] => destruct b end; cbn;
    (do 8 (split; [reflexivity|]));
    (split; [tauto|]); (split; [congruence | tauto]).
Qed.

Ltac solve_touched :=
  try (eapply touched_trans;
       [| apply touched_score, JSFacts.double_nonneg; discriminate]);
  first
    [ apply touched_refl
    | match goal with
      | E : checkACKRateLimit ?cfg ?now ?c = (_, ?c0),
        H : rateLimitingEnabled ?cfg && _ = true |- touched ?cfg ?c ?c0 =>
          replace c0 with (checkACKRateLimit cfg now c).2 by (rewrite E; reflexivity);
          apply touched_rate; apply andb_true_iff in H; tauto
      end ].

Lemma runDefenseChecks_mock_effect key c seq ack win flags now s :
  ∃ c' acts,
    (runDefenseChecks key c seq ack win flags mockSignature now s).2
    = recordAll acts (putConn key c' s)
    ∧ touched (config s) c c'
    ∧ Forall (mildAction c now) acts
    ∧ match action (runDefenseChecks key c seq ack win flags mockSignature now s).1 with
      | Some a => allowed (runDefenseChecks key c seq ack win flags mockSignature now s).1
                  = false
                  ∧ last acts = Some a
                  ∧ (type a = reject_packet ∨ type a = rate_limit)
      | None => allowed (runDefenseChecks key c seq ack win flags mockSignature now s).1
                = true
      end.
Proof.
  split_checks.
  all: try match goal with
         | H : (detectAnomalies mockSignature).1 = true |- _ => discriminate H
         | H : (false, _).1 = true |- _ => discriminate H
         end.
  all: rewrite ?putConn_putConn.
  all: match goal with
       | |- ∃ c' acts, recordAction ?a (putConn _ ?c1 _) = _ ∧ _ => exists c1, [a]
       | |- ∃ c' acts, putConn _ ?c1 _ = _ ∧ _ => exists c1, []
       end.
  all: split; [reflexivity|].
  all: split; [solve_touched|].
  all: split; [repeat constructor; discriminate|].
  all: cbn; auto.
Qed.

Lemma recordAll_cons a acts s :
  recordAll (a :: acts) s = recordAll acts (recordAction a s).
Proof. reflexivity. Qed.

(** Recording actions and writing connection states touch different
    fields. *)
Lemma recordAll_conns acts m s :
  mkState (config (recordAll acts s)) m (quarantinedIPs (recordAll acts s))
          (defenseActions (recordAll acts s)) (emitted (recordAll acts s))
          (timers (recordAll acts s))
  = recordAll acts
      (mkState (config s) m (quarantinedIPs s) (defenseActions s) (emitted s) (timers s)).
Proof.
  revert s. induction acts as [|a acts IH]; intros s; [reflexivity|].
  rewrite !recordAll_cons, IH. reflexivity.
Qed.

Lemma recordAll_connectionStates acts s :
  connectionStates (recordAll acts s) = connectionStates s.
Proof. revert s. induction acts as [|a acts IH]; intros s; [reflexivity|].
  rewrite recordAll_cons, IH. reflexivity.
Qed.

Lemma recordAll_quarantinedIPs acts s :
  quarantinedIPs (recordAll acts s) = quarantinedIPs s.
Proof. revert s. induction acts as [|a acts IH]; intros s; [reflexivity|].
  rewrite recordAll_cons, IH. reflexivity.
Qed.

Lemma recordAll_config acts s : config (recordAll acts s) = config s.
Proof. revert s. induction acts as [|a acts IH]; intros s; [reflexivity|].
  rewrite recordAll_cons, IH. reflexivity.
Qed.

Lemma recordAll_timers acts s : timers (recordAll acts s) = timers s.
Proof. revert s. induction acts as [|a acts IH]; intros s; [reflexivity|].
  rewrite recordAll_cons, IH. reflexivity.
Qed.

Lemma recordAll_emitted acts s : emitted (recordAll acts s) = emitted s ++ acts.
Proof.
  revert s. induction acts as [|a acts IH]; intros s.
  - cbn. rewrite app_nil_r. reflexivity.
  - rewrite recordAll_cons, IH. cbn. rewrite <- app_assoc. reflexivity.
Qed.

(** The effect of [validateConnection] on an IP that is not quarantined:
    the state of the connection is rewritten, actions are recorded, and
    nothing else changes. *)
Lemma validateConnection_effect addr port seq ack win flags now s :
  isQuarantined addr s = false →
  ∃ c' acts,
    (validateConnection addr port seq ack win flags now s).2
    = recordAll acts
        (putConn (connId addr port)
           (if allowed (validateConnection addr port seq ack win flags now s).1
            then updateConnectionState seq ack win c' else c') s)
    ∧ touched (config s)
        (default (freshState addr port now) (connectionStates s !! connId addr port)) c'
    ∧ Forall (mildAction
                (default (freshState addr port now)
                   (connectionStates s !! connId addr port)) now) acts
    ∧ match action (validateConnection addr port seq ack win flags now s).1 with
      | Some a => allowed (validateConnection addr port seq ack win flags now s).1 = false
                  ∧ last acts = Some a
                  ∧ (type a = reject_packet ∨ type a = rate_limit)
      | None => allowed (validateConnection addr port seq ack win flags now s).1 = true
      end.
Proof.
  intros Hq. unfold validateConnection. rewrite Hq.
  unfold getOrCreateConnectionState. fold (freshState addr port now).
  set (key := connId addr port).
  set (c0 := default (freshState addr port now) (connectionStates s !! key)).
  assert (Hrun : ∃ s0, (match connectionStates s !! key with
                        | Some c => (c, s)
                        | None => (freshState addr port now,
                                   putConn key (freshState addr port now) s)
                        end) = (c0, s0)
                       ∧ config s0 = config s
                       ∧ ∀ c', putConn key c' s0 = putConn key c' s).
  { subst c0. destruct (connectionStates s !! key); cbn [default].
    - exists s. auto.
    - eexists. split; [reflexivity|]. split; [reflexivity|].
      intros c'. apply putConn_putConn. }
  destruct Hrun as (s0 & -> & Hcfg & Hput).
  destruct (runDefenseChecks_mock_effect key c0 seq ack win flags now s0)
    as (c' & acts & Hst & Ht & Hacts & Hv).
  destruct (runDefenseChecks key c0 seq ack win flags mockSignature now s0) as [v s1].
  cbn [fst snd] in *. subst s1. rewrite Hput, Hcfg in *.
  exists c', acts.
  destruct (allowed v) eqn:Ha; cbn [fst snd]; rewrite ?Ha.
  - split; [|auto].
    rewrite recordAll_connectionStates. cbn [putConn connectionStates].
    rewrite alter_insert_eq.
    rewrite (recordAll_conns acts _ (putConn key c' s)). reflexivity.
  - auto.
Qed.

(** *** What holds of every state *)

Lemma recordAction_bounded a s :
  Z.of_nat (List.length (defenseActions s)) <= 1000 →
  Z.of_nat (List.length (defenseActions (recordAction a s))) <= 1000.
Proof.
  intros H. unfold recordAction. cbn [defenseActions].
  destruct (1000 <? Z.of_nat (List.length (defenseActions s ++ [a]))) eqn:E.
  - pose proof (JSFacts.lastn_length (Z.to_nat 500) (defenseActions s ++ [a])). lia.
  - apply Z.ltb_ge in E. exact E.
Qed.

Lemma recordAll_bounded acts s :
  Z.of_nat (List.length (defenseActions s)) <= 1000 →
  Z.of_nat (List.length (defenseActions (recordAll acts s))) <= 1000.
Proof.
  revert s. induction acts as [|a acts IH]; intros s H; [exact H|].
  rewrite recordAll_cons. apply IH, recordAction_bounded, H.
Qed.

Lemma scoreInRange_fresh addr port now : scoreInRange (freshState addr port now).
Proof. split; cbn; [apply Qle_refl | discriminate]. Qed.

Lemma scoreInRange_update seq ack win c :
  scoreInRange c → scoreInRange (updateConnectionState seq ack win c).
Proof.
  intros [H0 H1]. unfold scoreInRange. cbn. apply Qmax'_range, JSFacts.double_le_1.
  apply Qle_trans with (anomalyScore c); [|exact H1].
  rewrite <- (Qplus_0_r (anomalyScore c)) at 2.
  apply Qplus_le_compat; [apply Qle_refl|].
  apply (Qopp_le_compat 0), JSFacts.double_nonneg. discriminate.
Qed.

Lemma scoreInRange_mark c : scoreInRange c → scoreInRange (markSuspicious c).
Proof.
  intros [H0 H1]. unfold scoreInRange. cbn. apply Qmin'_range, JSFacts.double_nonneg.
  rewrite <- (Qplus_0_r 0). apply Qplus_le_compat; [exact H0|].
  apply JSFacts.double_nonneg. discriminate.
Qed.

Lemma invariant_create cfg : invariant (create cfg).
Proof.
  unfold invariant, create. cbn.
  split; [intros key c H; rewrite lookup_empty in H; discriminate|].
  repeat split; [constructor | lia].
Qed.

Lemma invariant_recordAction a s :
  type a ≠ quarantine → invariant s → invariant (recordAction a s).
Proof.
  intros Ha (Hc & Hq & Ht & He & Hb).
  split; [exact Hc|]. split; [exact Hq|]. split; [exact Ht|].
  split; [cbn; apply Forall_app; split; [exact He | repeat constructor; exact Ha]|].
  apply recordAction_bounded, Hb.
Qed.

Lemma invariant_recordAll c now acts s :
  Forall (mildAction c now) acts → invariant s → invariant (recordAll acts s).
Proof.
  revert s. induction acts as [|a acts IH]; intros s HF Hs; [exact Hs|].
  inversion_clear HF as [|? ? Hm HF']. destruct Hm as [Ha _].
  rewrite recordAll_cons. apply IH; [exact HF'|].
  apply invariant_recordAction; assumption.
Qed.

Lemma invariant_putConn key c s :
  scoreInRange c → key = connId (ip c) (port c) →
  invariant s → invariant (putConn key c s).
Proof.
  intros Hr Hk (Hc & Hrest). split; [|exact Hrest].
  intros key' c'. cbn. intros H.
  destruct (decide (key' = key)) as [->|Hne].
  - rewrite lookup_insert_eq in H. inversion H; subst c'. auto.
  - rewrite lookup_insert_ne in H by congruence. apply Hc, H.
Qed.

Lemma invariant_removeFromQuarantine addr s :
  invariant s → invariant (removeFromQuarantine addr s).
Proof.
  intros (Hc & Hq & Ht & He & Hb).
  split.
  - intros key c. cbn. rewrite lookup_fmap. intros H.
    destruct (connectionStates s !! key) as [c0|] eqn:E; [|discriminate].
    cbn in H. injection H as <-. destruct (Hc key c0 E) as [Hr Hk].
    destruct (String.eqb (ip c0) addr); [|auto].
    split; [split; cbn; [apply Qle_refl | discriminate] | exact Hk].
  - cbn. rewrite Hq. split; [apply subseteq_empty_difference_L, empty_subseteq|].
    split; [exact Ht|]. split; [exact He | exact Hb].
Qed.

Lemma invariant_cleanupSteps now ids s :
  invariant s → invariant (fold_left (cleanupStep now) ids s).
Proof.
  revert s. induction ids as [|key ids IH]; intros s Hs; [exact Hs|].
  cbn [fold_left]. apply IH. unfold cleanupStep.
  destruct (connectionStates s !! key) as [c|]; [|exact Hs].
  destruct (quarantined c && (quarantineUntil c <? now)); [|exact Hs].
  apply invariant_removeFromQuarantine, Hs.
Qed.

(** The state [getOrCreateConnectionState] works on. *)
Lemma invariant_current addr p now s :
  invariant s →
  scoreInRange (default (freshState addr p now) (connectionStates s !! connId addr p))
  ∧ connId addr p
    = connId (ip (default (freshState addr p now) (connectionStates s !! connId addr p)))
             (port (default (freshState addr p now)
                      (connectionStates s !! connId addr p))).
Proof.
  intros (Hc & _).
  destruct (connectionStates s !! connId addr p) as [c|] eqn:E; cbn [default].
  - apply Hc, E.
  - split; [apply scoreInRange_fresh | reflexivity].
Qed.

Lemma invariant_validateConnection addr p seq ack win flags now s :
  invariant s → invariant (validateConnection addr p seq ack win flags now s).2.
Proof.
  intros Hs. destruct (isQuarantined addr s) eqn:Hq.
  - unfold validateConnection. rewrite Hq. cbn.
    apply invariant_recordAction; [discriminate | exact Hs].
  - destruct (validateConnection_effect addr p seq ack win flags now s Hq)
      as (c' & acts & -> & Ht & Hacts & _).
    destruct (invariant_current addr p now s Hs) as [Hr Hk].
    destruct Ht as (Hip & Hport & _ & _ & _ & _ & _ & _ & _ & _ & Hscore).
    eapply invariant_recordAll; [exact Hacts|].
    apply invariant_putConn; [| |exact Hs].
    + destruct (allowed _); [apply scoreInRange_update|]; apply Hscore, Hr.
    + rewrite Hk. destruct (allowed _); cbn; congruence.
Qed.

Lemma invariant_markConnectionSuspicious addr p why now s :
  invariant s → invariant (markConnectionSuspicious addr p why now s).
Proof.
  intros Hs. destruct (invariant_current addr p now s Hs) as [Hr Hk].
  unfold markConnectionSuspicious, getOrCreateConnectionState, createDefenseAction.
  fold (freshState addr p now).
  match goal with
  | |- invariant (let '(c, s0) := ?m in _) =>
      assert (Hm : ∃ s0, m = (default (freshState addr p now)
                                (connectionStates s !! connId addr p), s0)
                         ∧ invariant s0)
  end.
  { destruct (connectionStates s !! connId addr p) as [c|] eqn:E; cbn [default].
    - exists s. auto.
    - eexists. split; [reflexivity|].
      apply invariant_putConn; [apply scoreInRange_fresh | reflexivity | exact Hs]. }
  destruct Hm as (s0 & -> & Hs0).
  match goal with
  | |- invariant (mkState _ _ _ _ (emitted (recordAction ?a ?s1) ++ [_]) _) =>
      assert (H1 : invariant (recordAction a s1))
  end.
  { apply invariant_recordAction; [discriminate|].
    apply invariant_putConn; [apply scoreInRange_mark, Hr | exact Hk | exact Hs0]. }
  destruct H1 as (Hc & Hq & Htm & He & Hb).
  split; [exact Hc|]. split; [exact Hq|]. split; [exact Htm|]. split; [|exact Hb].
  apply Forall_app. split; [exact He | repeat constructor; discriminate].
Qed.

Lemma invariant_perform s o : invariant s → invariant (perform s o).
Proof.
  intros Hs. destruct o as [addr p seq ack win flags now|addr p why now|addr|n|now|];
    cbn [perform].
  - apply invariant_validateConnection, Hs.
  - apply invariant_markConnectionSuspicious, Hs.
  - unfold forceRemoveFromQuarantine.
    destruct (bool_decide _); [apply invariant_removeFromQuarantine|]; exact Hs.
  - exact Hs.
  - unfold cleanupExpiredStates.
    pose proof (invariant_cleanupSteps now (map_to_list (connectionStates s)).*1 s Hs)
      as (Hc & Hrest).
    split; [|exact Hrest].
    intros key c. cbn. intros H. apply map_lookup_filter_Some in H. apply Hc, H.
  - destruct Hs as (_ & _ & Ht & He & Hb).
    split; [intros key c H; cbn in H; rewrite lookup_empty in H; discriminate|].
    repeat split; assumption.
Qed.

Lemma invariant_performAll cfg os : invariant (performAll os (create cfg)).
Proof.
  unfold performAll.
  assert (H : ∀ s, invariant s → invariant (fold_left perform os s)).
  { induction os as [|o os IH]; intros s Hs; [exact Hs|].
    cbn [fold_left]. apply IH, invariant_perform, Hs. }
  apply H, invariant_create.
Qed.

(** *** What a call changes in a stored connection state *)

Lemma carriesOn_refl c : carriesOn c c.
Proof. unfold carriesOn. split; [reflexivity|]. split; [reflexivity|]. split; [auto | lia]. Qed.

Lemma carriesOn_trans a b c : carriesOn a b → carriesOn b c → carriesOn a c.
Proof.
  intros (?&?&?&?) (?&?&?&?). unfold carriesOn.
  split; [congruence|]. split; [congruence|]. split; [auto | lia].
Qed.

(** One call of [validateConnection], seen from any stored connection. *)
Lemma validateConnection_step addr p seq ack win flags now s key c :
  connectionStates s !! key = Some c →
  ∃ c', connectionStates (validateConnection addr p seq ack win flags now s).2 !! key
        = Some c'
        ∧ carriesOn c c'
        ∧ (rateLimitingEnabled (config s) = false → lastACKTime c' = lastACKTime c).
Proof.
  intros Hk. destruct (isQuarantined addr s) eqn:Hq.
  - unfold validateConnection. rewrite Hq. cbn. exists c.
    split; [exact Hk|]. split; [apply carriesOn_refl | reflexivity].
  - destruct (validateConnection_effect addr p seq ack win flags now s Hq)
      as (c' & acts & -> & Ht & _ & _).
    rewrite recordAll_connectionStates. cbn [putConn connectionStates].
    destruct (decide (key = connId addr p)) as [->|Hne].
    + rewrite lookup_insert_eq. rewrite Hk in Ht. cbn [default id] in Ht.
      destruct Ht as (Hip & Hport & _ & _ & Hack & _ & _ & _ & Hs & Hr & _).
      eexists. split; [reflexivity|].
      destruct (allowed _); unfold carriesOn; cbn.
      * split; [|intros H; apply Hr, H].
        split; [exact Hip|]. split; [exact Hport|]. split; [exact Hs | lia].
      * split; [|intros H; apply Hr, H].
        split; [exact Hip|]. split; [exact Hport|]. split; [exact Hs | lia].
    + rewrite lookup_insert_ne by congruence. exists c.
      split; [exact Hk|]. split; [apply carriesOn_refl | reflexivity].
Qed.

Lemma removeFromQuarantine_step addr s key c :
  connectionStates s !! key = Some c →
  ∃ c', connectionStates (removeFromQuarantine addr s) !! key = Some c'
        ∧ carriesOn c c' ∧ lastACKTime c' = lastACKTime c.
Proof.
  intros Hk. cbn. rewrite lookup_fmap, Hk. cbn.
  eexists. split; [reflexivity|].
  destruct (String.eqb (ip c) addr); (split; [|reflexivity]);
    [|apply carriesOn_refl].
  unfold carriesOn. cbn. split; [reflexivity|]. split; [reflexivity|].
  split; [auto | lia].
Qed.

Lemma perform_step o s key c :
  keepsStates o = true →
  connectionStates s !! key = Some c →
  ∃ c', connectionStates (perform s o) !! key = Some c' ∧ carriesOn c c'.
Proof.
  intros Ho Hk.
  destruct o as [addr p seq ack win flags now|addr p why now|addr|n|now|];
    try discriminate Ho; cbn [perform].
  - destruct (validateConnection_step addr p seq ack win flags now s key c Hk)
      as (c' & H1 & H2 & _).
    exists c'. auto.
  - unfold markConnectionSuspicious, getOrCreateConnectionState, createDefenseAction.
    destruct (connectionStates s !! connId addr p) as [c0|] eqn:E; cbn.
    + destruct (decide (key = connId addr p)) as [->|Hne].
      * rewrite lookup_insert_eq. eexists. split; [reflexivity|].
        rewrite Hk in E. injection E as <-.
        unfold carriesOn. cbn. split; [reflexivity|]. split; [reflexivity|].
        split; [reflexivity | lia].
      * rewrite lookup_insert_ne by congruence. exists c.
        split; [exact Hk | apply carriesOn_refl].
    + rewrite insert_insert_eq.
      destruct (decide (key = connId addr p)) as [->|Hne]; [congruence|].
      rewrite lookup_insert_ne by congruence. exists c.
      split; [exact Hk | apply carriesOn_refl].
  - unfold forceRemoveFromQuarantine. destruct (bool_decide _); cbn [snd].
    + destruct (removeFromQuarantine_step addr s key c Hk) as (c' & H1 & H2 & _).
      exists c'. auto.
    + exists c. split; [exact Hk | apply carriesOn_refl].
  - exists c. split; [exact Hk | apply carriesOn_refl].
Qed.

Lemma cleanupSteps_step now ids s key c :
  connectionStates s !! key = Some c →
  ∃ c', connectionStates (fold_left (cleanupStep now) ids s) !! key = Some c'
        ∧ lastACKTime c' = lastACKTime c.
Proof.
  revert s c. induction ids as [|k ids IH]; intros s c Hk.
  - exists c. auto.
  - cbn [fold_left].
    assert (H1 : ∃ c1, connectionStates (cleanupStep now s k) !! key = Some c1
                       ∧ lastACKTime c1 = lastACKTime c).
    { unfold cleanupStep. destruct (connectionStates s !! k) as [ck|]; [|eauto].
      destruct (quarantined ck && (quarantineUntil ck <? now)); [|eauto].
      destruct (removeFromQuarantine_step (ip ck) s key c Hk) as (c' & ? & _ & ?).
      eauto. }
    destruct H1 as (c1 & Hk1 & Ht1).
    destruct (IH _ _ Hk1) as (c' & Hk' & Ht'). exists c'. split; [exact Hk'|congruence].
Qed.

Lemma cleanupSteps_back now ids s key c' :
  connectionStates (fold_left (cleanupStep now) ids s) !! key = Some c' →
  ∃ c, connectionStates s !! key = Some c.
Proof.
  intros H. destruct (connectionStates s !! key) as [c|] eqn:E; [eauto|].
  exfalso. revert s E H. induction ids as [|k ids IH]; intros s E H.
  - cbn in H. congruence.
  - cbn [fold_left] in H. apply (IH (cleanupStep now s k)); [|exact H].
    unfold cleanupStep. destruct (connectionStates s !! k) as [ck|]; [|exact E].
    destruct (quarantined ck && (quarantineUntil ck <? now)); [|exact E].
    cbn. rewrite lookup_fmap, E. reflexivity.
Qed.

Lemma validateConnection_config addr p seq ack win flags now s :
  config (validateConnection addr p seq ack win flags now s).2 = config s.
Proof.
  destruct (isQuarantined addr s) eqn:Hq.
  - unfold validateConnection. rewrite Hq. reflexivity.
  - destruct (validateConnection_effect addr p seq ack win flags now s Hq)
      as (c' & acts & -> & _).
    rewrite recordAll_config. reflexivity.
Qed.

Lemma validateAll_step addr calls s key c :
  connectionStates s !! key = Some c →
  ∃ c', connectionStates (validateAll addr calls s).2 !! key = Some c'
        ∧ carriesOn c c'
        ∧ (rateLimitingEnabled (config s) = false → lastACKTime c' = lastACKTime c).
Proof.
  revert s c. induction calls as [|k rest IH]; intros s c Hk.
  - exists c. split; [exact Hk|]. split; [apply carriesOn_refl | reflexivity].
  - cbn [validateAll].
    destruct (validateConnection_step addr (c_port k) (c_seq k) (c_ack k) (c_win k)
                (c_flags k) (c_now k) s key c Hk) as (c1 & Hk1 & Hc1 & Ht1).
    pose proof (validateConnection_config addr (c_port k) (c_seq k) (c_ack k) (c_win k)
                  (c_flags k) (c_now k) s) as Hcfg.
    destruct (validateConnection addr (c_port k) (c_seq k) (c_ack k) (c_win k)
                (c_flags k) (c_now k) s) as [v s1].
    cbn [fst snd] in *.
    destruct (IH s1 c1 Hk1) as (c' & Hk' & Hc' & Ht').
    destruct (validateAll addr rest s1) as [vs s2]. cbn [fst snd] in *.
    exists c'. split; [exact Hk'|]. split; [eapply carriesOn_trans; eassumption|].
    intros Hr. rewrite Ht', Ht1; [reflexivity | exact Hr | rewrite Hcfg; exact Hr].
Qed.

(** *** Any sequence of operations *)

(** X3.  Whatever is called on a defense system, in whatever order, and
    whenever its cleanup timer ticks, the anomaly score of every connection
    state it holds is a number between 0 and 1. *)
Theorem anomaly_score_in_range cfg os key c :
  connectionStates (performAll os (create cfg)) !! key = Some c → scoreInRange c.
Proof.
  intros H. destruct (invariant_performAll cfg os) as (Hc & _).
  apply (Hc key c H).
Qed.

(** X3, witness: the connection flagged by the middleware. *)
Lemma anomaly_score_in_range_witness : scoreInRange flaggedConn.
Proof.
  apply (anomaly_score_in_range defaultConfig
           [MarkSuspicious "10.0.0.9" 0 "Malicious user agent: attack-simulator" 0]
           (connId "10.0.0.9" 0)).
  vm_compute. reflexivity.
Defined.

(** The state [getConnectionState] returns is stored under the
    identifier built from its own [ip] and [port]. *)
Lemma stored_under_own_identifier cfg os addr p c :
  getConnectionState addr p (performAll os (create cfg)) = Some c →
  connId (ip c) (port c) = connId addr p.
Proof.
  unfold getConnectionState. intros H.
  destruct (invariant_performAll cfg os) as (Hc & _).
  symmetry. apply (Hc _ c H).
Qed.

(** X4.  No sequence of calls of the public operations
    ([validateConnection], [markConnectionSuspicious],
    [forceRemoveFromQuarantine], [updateConfig], [destroy]) and of ticks of
    the cleanup timer quarantines an IP: the quarantine set stays empty,
    no release is ever scheduled, and no [quarantine] action is emitted.
    ([validateConnection] runs the checks on a signature without any
    indicator, so the anomaly check, the only caller of [quarantineIP],
    never fires.) *)
Theorem public_operations_never_quarantine cfg os :
  quarantinedIPs (performAll os (create cfg)) = ∅
  ∧ timers (performAll os (create cfg)) = []
  ∧ Forall (λ a, type a ≠ quarantine) (emitted (performAll os (create cfg))).
Proof.
  destruct (invariant_performAll cfg os) as (_ & Hq & Ht & He & _).
  split; [exact Hq|]. split; [exact Ht | exact He].
Qed.

(** X5.  The history of defense actions never holds more than 1000
    entries. *)
Theorem defense_history_bounded cfg os :
  Z.of_nat (List.length (defenseActions (performAll os (create cfg)))) <= 1000.
Proof.
  destruct (invariant_performAll cfg os) as (_ & _ & _ & _ & Hb). exact Hb.
Qed.

(** X6.  As long as no connection state is deleted (no cleanup tick,
    no [destroy]), a connection state stays in the map under its key,
    with the same IP and port; its [suspicious] flag, once set, stays set
    (neither the decay of the score nor a release from quarantine clears
    it), and its [lastValidAck] never decreases. *)
Theorem suspicious_flag_sticky os s key c :
  forallb keepsStates os = true →
  connectionStates s !! key = Some c →
  ∃ c', connectionStates (performAll os s) !! key = Some c' ∧ carriesOn c c'.
Proof.
  unfold performAll. revert s c.
  induction os as [|o os IH]; intros s c Hos Hk.
  - exists c. split; [exact Hk | apply carriesOn_refl].
  - cbn [forallb] in Hos. apply andb_true_iff in Hos. destruct Hos as [Ho Hos].
    destruct (perform_step o s key c Ho Hk) as (c1 & Hk1 & Hc1).
    destruct (IH (perform s o) c1 Hos Hk1) as (c' & Hk' & Hc').
    exists c'. split; [exact Hk' | eapply carriesOn_trans; eassumption].
Qed.

(** X6, witness: the flagged connection after a packet and a forced
    release. *)
Lemma suspicious_flag_sticky_witness :
  match connectionStates
          (performAll [Validate "10.0.0.9" 0 1 1 100 ["ACK"] 5; ForceRemove "10.0.0.9"]
             flaggedState) !! connId "10.0.0.9" 0 with
  | Some c' => carriesOn flaggedConn c'
  | None => False
  end.
Proof.
  destruct (suspicious_flag_sticky
              [Validate "10.0.0.9" 0 1 1 100 ["ACK"] 5; ForceRemove "10.0.0.9"]
              flaggedState (connId "10.0.0.9" 0) flaggedConn) as (c' & H & Hc);
    [reflexivity | vm_compute; reflexivity |].
  rewrite H. exact Hc.
Defined.

(** *** The cleanup timer *)

Lemma cleanupExpiredStates_lookup now s key c' :
  connectionStates (cleanupExpiredStates now s) !! key = Some c' →
  ∃ c, connectionStates s !! key = Some c ∧ now - lastACKTime c <= 600000.
Proof.
  unfold cleanupExpiredStates. cbn [connectionStates]. intros H.
  apply map_lookup_filter_Some in H. destruct H as [H Hrecent]. cbn in Hrecent.
  destruct (cleanupSteps_back _ _ _ _ _ H) as (c & Hk).
  destruct (cleanupSteps_step now (map_to_list (connectionStates s)).*1 s key c Hk)
    as (c1 & Hk1 & Ht).
  exists c. split; [exact Hk|]. rewrite H in Hk1. injection Hk1 as <-. lia.
Qed.

Lemma cleanupExpiredStates_kept now s key c :
  connectionStates s !! key = Some c → now - lastACKTime c <= 600000 →
  is_Some (connectionStates (cleanupExpiredStates now s) !! key).
Proof.
  unfold cleanupExpiredStates. cbn [connectionStates]. intros Hk Hrecent.
  destruct (cleanupSteps_step now (map_to_list (connectionStates s)).*1 s key c Hk)
    as (c1 & Hk1 & Ht).
  exists c1. apply map_lookup_filter_Some. split; [exact Hk1|]. cbn. lia.
Qed.

(** X7.  [cleanupExpiredStates] keeps exactly the connection states
    whose [lastACKTime] is at most ten minutes old. *)
Theorem cleanup_keeps_recent now s key :
  is_Some (connectionStates (cleanupExpiredStates now s) !! key)
  ↔ ∃ c, connectionStates s !! key = Some c ∧ now - lastACKTime c <= 600000.
Proof.
  split.
  - intros [c' H]. eapply cleanupExpiredStates_lookup, H.
  - intros (c & Hk & Hrecent). eapply cleanupExpiredStates_kept; eassumption.
Qed.

(** X8.  [lastACKTime] is written by the rate-limit check only.  With
    rate limiting disabled (as in every configuration the server builds)
    it stays at the creation time of the state, so the cleanup deletes a
    connection state, its [suspicious] flag included, ten minutes after
    its creation, however many packets of the connection have been
    validated in between. *)
Theorem state_expires_despite_activity addr calls s key c later :
  rateLimitingEnabled (config s) = false →
  connectionStates s !! key = Some c →
  600000 < later - lastACKTime c →
  connectionStates (cleanupExpiredStates later (validateAll addr calls s).2) !! key = None.
Proof.
  intros Hr Hk Hold.
  destruct (validateAll_step addr calls s key c Hk) as (c' & Hk' & _ & Ht).
  specialize (Ht Hr).
  apply eq_None_not_Some. intros [c3 Hsome].
  apply cleanupExpiredStates_lookup in Hsome.
  destruct Hsome as (c2 & Hk2 & Hrecent). rewrite Hk' in Hk2. injection Hk2 as <-. lia.
Qed.

(** X8, witness: a connection flagged at time 0 and active until
    599999 is forgotten by the cleanup at 600001. *)
Lemma state_expires_despite_activity_witness :
  connectionStates
    (cleanupExpiredStates 600001
       (validateAll "10.0.0.9"
          [mkCall 0 1 1 100 ["ACK"] 300000; mkCall 0 2 2 100 ["ACK"] 599999]
          flaggedQuietly).2) !! connId "10.0.0.9" 0
  = None.
Proof.
  apply (state_expires_despite_activity "10.0.0.9" _ flaggedQuietly _ flaggedConn).
  - reflexivity.
  - vm_compute. reflexivity.
  - cbn. lia.
Defined.

(** *** Verdicts and tracking *)

(** X9.  A verdict of [validateConnection] carries an action exactly
    when it rejects; the action is a [block] (quarantined IP), a
    [reject_packet] or a [rate_limit], never an [alert] or a [quarantine];
    it is stamped with the time of the call and is the action emitted
    last. *)
Theorem verdict_carries_action addr p seq ack win flags now s :
  match action (validateConnection addr p seq ack win flags now s).1 with
  | Some a =>
      allowed (validateConnection addr p seq ack win flags now s).1 = false
      ∧ (type a = block ∨ type a = reject_packet ∨ type a = rate_limit)
      ∧ timestamp a = now
      ∧ last (emitted (validateConnection addr p seq ack win flags now s).2) = Some a
  | None => allowed (validateConnection addr p seq ack win flags now s).1 = true
  end.
Proof.
  destruct (isQuarantined addr s) eqn:Hq.
  - unfold validateConnection. rewrite Hq. cbn.
    split; [reflexivity|]. split; [auto|]. split; [reflexivity|]. apply last_snoc.
  - destruct (validateConnection_effect addr p seq ack win flags now s Hq)
      as (c' & acts & Hst & _ & Hacts & Hv).
    destruct (action (validateConnection addr p seq ack win flags now s).1) as [a|];
      [|exact Hv].
    destruct Hv as (Ha & Hlast & Hty).
    split; [exact Ha|]. split; [tauto|].
    split.
    + apply last_Some_elem_of in Hlast.
      rewrite Forall_forall in Hacts. apply Hacts in Hlast. apply Hlast.
    + rewrite Hst, recordAll_emitted, last_app, Hlast. reflexivity.
Qed.

(** X10.  On an existing connection, an accepted packet sets
    [expectedSeq], [expectedAck] and [windowSize] to its own values and
    raises [lastValidAck] to its ACK number if that is higher; a rejected
    packet leaves the four fields as they were. *)
Theorem accepted_packet_moves_tracking addr p seq ack win flags now s c :
  connectionStates s !! connId addr p = Some c →
  ∃ c', connectionStates (validateConnection addr p seq ack win flags now s).2
          !! connId addr p = Some c'
        ∧ if allowed (validateConnection addr p seq ack win flags now s).1
          then expectedSeq c' = seq ∧ expectedAck c' = ack
               ∧ lastValidAck c' = Z.max (lastValidAck c) ack ∧ windowSize c' = win
          else expectedSeq c' = expectedSeq c ∧ expectedAck c' = expectedAck c
               ∧ lastValidAck c' = lastValidAck c ∧ windowSize c' = windowSize c.
Proof.
  intros Hk. destruct (isQuarantined addr s) eqn:Hq.
  - unfold validateConnection. rewrite Hq. cbn. exists c. auto.
  - destruct (validateConnection_effect addr p seq ack win flags now s Hq)
      as (c' & acts & Hst & Ht & _ & _).
    rewrite Hst, recordAll_connectionStates. cbn [putConn connectionStates].
    rewrite lookup_insert_eq. eexists. split; [reflexivity|].
    rewrite Hk in Ht. cbn [default id] in Ht.
    destruct Ht as (_ & _ & Hseq & Hack & Hlast & Hwin & _).
    destruct (allowed _); cbn.
    + rewrite Hlast. auto.
    + auto.
Qed.

(** X10, witness: a packet accepted on the flagged connection. *)
Lemma accepted_packet_moves_tracking_witness :
  match connectionStates
          (validateConnection "10.0.0.9" 0 7 4096 100 ["ACK"] 5 flaggedState).2
          !! connId "10.0.0.9" 0 with
  | Some c' => expectedSeq c' = 7 ∧ lastValidAck c' = 4096
  | None => False
  end.
Proof.
  destruct (accepted_packet_moves_tracking "10.0.0.9" 0 7 4096 100 ["ACK"] 5 flaggedState
              flaggedConn) as (c' & H & Hc); [vm_compute; reflexivity|].
  rewrite H.
  replace (allowed (validateConnection "10.0.0.9" 0 7 4096 100 ["ACK"] 5 flaggedState).1)
    with true in Hc by (vm_compute; reflexivity).
  destruct Hc as (H1 & _ & H3 & _). split; [exact H1 | exact H3].
Defined.

Lemma runDefenseChecks_unflagged key c seq ack1 ack2 win flags signature now s :
  unflagged c →
  runDefenseChecks key c seq ack1 win flags signature now s
  = runDefenseChecks key c seq ack2 win flags signature now s.
Proof.
  intros [Hs Hq]. unfold runDefenseChecks.
  replace (suspicious c || Qgtb (anomalyScore c) (1 # 2)) with false
    by (unfold Qgtb; rewrite Hs, Hq; reflexivity).
  rewrite !andb_false_r. reflexivity.
Qed.

(** X11.  The ACK number is validated on flagged connections only:
    for a connection that has no state yet, or whose state is neither
    marked suspicious nor scored above 0.5, the verdict of
    [validateConnection] does not depend on the ACK number of the
    packet. *)
Theorem unflagged_ack_unchecked addr p seq ack1 ack2 win flags now s :
  (∀ c, connectionStates s !! connId addr p = Some c → unflagged c) →
  (validateConnection addr p seq ack1 win flags now s).1
  = (validateConnection addr p seq ack2 win flags now s).1.
Proof.
  intros Hu. unfold validateConnection.
  destruct (isQuarantined addr s); [reflexivity|].
  unfold getOrCreateConnectionState.
  destruct (connectionStates s !! connId addr p) as [c|] eqn:E.
  - rewrite (runDefenseChecks_unflagged _ c seq ack1 ack2) by (apply Hu; reflexivity).
    destruct (runDefenseChecks _ _ _ ack2 _ _ _ _ _) as [v s1].
    destruct (allowed v); reflexivity.
  - rewrite (runDefenseChecks_unflagged _ _ seq ack1 ack2) by (split; reflexivity).
    destruct (runDefenseChecks _ _ _ ack2 _ _ _ _ _) as [v s1].
    destruct (allowed v); reflexivity.
Qed.

(** X11, witness: on a new connection an ACK number of 4,000,000,000
    gets the verdict of an ACK number of 1. *)
Lemma unflagged_ack_unchecked_witness :
  (validateConnection "10.0.0.7" 40000 1 1 100 ["ACK"] 0 (create defaultConfig)).1
  = (validateConnection "10.0.0.7" 40000 1 4000000000 100 ["ACK"] 0
       (create defaultConfig)).1.
Proof.
  apply unflagged_ack_unchecked.
  intros c H. vm_compute in H. discriminate H.
Defined.

(** *** The rate limit *)

Lemma checkACKRateLimit_within cfg now c :
  now - lastACKTime c <= 1000 →
  (checkACKRateLimit cfg now c).1.1 = (ackCount c + 1 <=? maxACKsPerSecond cfg * 3)
  ∧ ackCount (checkACKRateLimit cfg now c).2 = ackCount c + 1
  ∧ lastACKTime (checkACKRateLimit cfg now c).2 = lastACKTime c.
Proof.
  intros H. unfold checkACKRateLimit.
  destruct (Z.ltb_spec 1000 (now - lastACKTime c)); [lia|].
  destruct (Z.ltb_spec (maxACKsPerSecond cfg * 3) (ackCount c + 1)); cbn;
    (split; [symmetry; first [apply Z.leb_gt | apply Z.leb_le]; lia | auto]).
Qed.

(** X12.  The rate limit is a fixed window anchored at [lastACKTime]:
    ACKs that arrive within 1000 ms of it are counted on from [ackCount],
    rejected ones included, and the ACK counted as number [n] passes
    exactly when [n <= 3 * maxACKsPerSecond]. *)
Theorem rate_limit_burst cfg times c :
  Forall (λ now, now - lastACKTime c <= 1000) times →
  (checkACKRateLimitAll cfg times c).1
  = (λ n, n <=? maxACKsPerSecond cfg * 3)
      <$> seqZ (ackCount c + 1) (Z.of_nat (List.length times))
  ∧ ackCount (checkACKRateLimitAll cfg times c).2
    = ackCount c + Z.of_nat (List.length times).
Proof.
  revert c. induction times as [|now rest IH]; intros c HF.
  - cbn. split; [reflexivity | lia].
  - inversion_clear HF as [|? ? Hnow Hrest].
    destruct (checkACKRateLimit_within cfg now c Hnow) as (Hcheck & Hcount & Hlast).
    cbn [checkACKRateLimitAll].
    destruct (checkACKRateLimit cfg now c) as [check c1]. cbn [fst snd] in *.
    assert (HF1 : Forall (λ now, now - lastACKTime c1 <= 1000) rest)
      by (rewrite Hlast; exact Hrest).
    destruct (IH c1 HF1) as (IH1 & IH2).
    destruct (checkACKRateLimitAll cfg rest c1) as [checks c2]. cbn [fst snd] in *.
    rewrite seqZ_cons by (cbn [List.length]; lia).
    cbn [fmap list_fmap]. split.
    + f_equal; [exact Hcheck|]. rewrite IH1, Hcount. f_equal. f_equal; cbn [List.length]; lia.
    + rewrite IH2, Hcount. cbn [List.length]. lia.
Qed.

(** X12, witness: with one ACK per second allowed, the first three ACKs of
    a burst pass and the next two are rejected. *)
Lemma rate_limit_burst_witness :
  (checkACKRateLimitAll (mkDefenseConfig true true true true true true 1 2 1048576
                           (7 # 10) 300000)
     [10; 20; 30; 40; 50] (freshState "10.0.0.7" 40000 0)).1
  = [true; true; true; false; false].
Proof.
  destruct (rate_limit_burst
              (mkDefenseConfig true true true true true true 1 2 1048576 (7 # 10) 300000)
              [10; 20; 30; 40; 50] (freshState "10.0.0.7" 40000 0)) as [H _].
  - repeat constructor; cbn; lia.
  - rewrite H. reflexivity.
Defined.

End DefenseSystemFacts.

(** ** Security Middleware *)

Module SecurityMiddlewareFacts.
Import SecurityMiddleware.

(** *** Substrings *)

Lemma prefix_occurs p s : String.prefix p s = true → ∃ post, s = p +:+ post.
Proof.
  revert s. induction p as [|a p IH]; intros s H.
  - exists s. reflexivity.
  - destruct s as [|b s]; simpl in H; [discriminate|].
    destruct (ascii_dec a b) as [->|]; [|discriminate].
    destruct (IH s H) as [post ->]. exists post. reflexivity.
Qed.

(** [includes] decides the occurrence of a substring. *)
Lemma includes_occurs s sub :
  JS.includes s sub = true ↔ ∃ pre post, s = pre +:+ sub +:+ post.
Proof.
  split.
  - induction s as [|c s IH]; cbn [JS.includes]; intros H.
    + rewrite orb_false_r in H. destruct (prefix_occurs _ _ H) as [post Hp].
      exists "", post. exact Hp.
    + apply orb_true_iff in H. destruct H as [H|H].
      * destruct (prefix_occurs _ _ H) as [post Hp]. exists "", post. exact Hp.
      * destruct (IH H) as (pre & post & ->). exists (String c pre), post. reflexivity.
  - intros (pre & post & ->). induction pre as [|c pre IH].
    + change ("" +:+ sub +:+ post) with (sub +:+ post).
      destruct (sub +:+ post) eqn:E; cbn [JS.includes]; rewrite <- ?E, JSFacts.prefix_app;
        reflexivity.
    + change (String c pre +:+ sub +:+ post) with (String c (pre +:+ sub +:+ post)).
      cbn [JS.includes]. rewrite IH. apply orb_true_r.
Qed.

(** *** The whitelist *)

Lemma isLegitimateClient_marker userAgent marker :
  In marker legitimateAgents →
  JS.includes userAgent marker = true →
  isLegitimateClient userAgent = true.
Proof.
  intros Hin Hinc. unfold isLegitimateClient.
  replace (existsb (JS.includes userAgent) legitimateAgents) with true; [reflexivity|].
  symmetry. apply existsb_exists. exists marker. split; assumption.
Qed.

Lemma isLegitimateClient_blank userAgent :
  JS.trim userAgent = "" → isLegitimateClient userAgent = true.
Proof.
  intros H. unfold isLegitimateClient. rewrite H. cbn [String.length Nat.eqb].
  rewrite orb_true_r. destruct (existsb _ _); reflexivity.
Qed.

Lemma detectExplicitAttack_legitimate req now st :
  isLegitimateClient (header "user-agent" req) = true →
  detectExplicitAttack req now st = (None, st).
Proof. intros H. unfold detectExplicitAttack. rewrite H. reflexivity. Qed.

(** C3.  For every request whose user agent contains "Mozilla/", or any
    other marker of the whitelist, or is empty or blank,
    [detectExplicitAttack] returns null and leaves the middleware and
    the defense system unchanged, whatever the other headers of the
    request are (attack-simulation header, suspicious headers, Range
    header) and whatever else the user agent contains. *)
Theorem whitelist_precedence req now st :
  (∃ pre post, header "user-agent" req = pre +:+ "Mozilla/" +:+ post)
  ∨ (∃ marker pre post, In marker legitimateAgents
                        ∧ header "user-agent" req = pre +:+ marker +:+ post)
  ∨ JS.trim (header "user-agent" req) = "" →
  detectExplicitAttack req now st = (None, st).
Proof.
  intros H. apply detectExplicitAttack_legitimate.
  destruct H as [(pre & post & H) | [(marker & pre & post & Hin & H) | H]].
  - apply (isLegitimateClient_marker _ "Mozilla/"); [left; reflexivity|].
    apply includes_occurs. eauto.
  - apply (isLegitimateClient_marker _ marker Hin).
    apply includes_occurs. eauto.
  - apply isLegitimateClient_blank. exact H.
Qed.

(** C3, witness: the disguised request is allowed and nothing changes. *)
Lemma whitelist_precedence_witness :
  detectExplicitAttack disguised 7 (create defaultConfig 0)
  = (None, create defaultConfig 0).
Proof.
  apply whitelist_precedence. left.
  exists "OptimisticACK-Attack-Tool/1.0 (", "5.0)". vm_compute. reflexivity.
Defined.

Lemma undisguised_rejected :
  (detectExplicitAttack undisguised 7 (create defaultConfig 0)).1
  = Some "Explicit optimistic ACK attack simulation detected".
Proof. vm_compute. reflexivity. Qed.

(** *** The blocklist stays empty *)

Lemma markConnectionSuspicious_emitted addr port why now d :
  ∃ a, DefenseSystem.type a = DefenseSystem.alert
       ∧ DefenseSystem.emitted (DefenseSystem.markConnectionSuspicious addr port why now d)
         = DefenseSystem.emitted d ++ [a; a].
Proof.
  unfold DefenseSystem.markConnectionSuspicious, DefenseSystem.getOrCreateConnectionState.
  destruct (DefenseSystem.connectionStates d !! DefenseSystem.connId addr port);
    cbn; eexists; (split; [|rewrite <- app_assoc; reflexivity]); reflexivity.
Qed.

Lemma callDefense_markSuspicious_blocklist addr port why now st :
  blocklist (callDefense (DefenseSystem.markConnectionSuspicious addr port why now) st)
  = blocklist st.
Proof.
  unfold callDefense.
  destruct (markConnectionSuspicious_emitted addr port why now (defenseSystem st))
    as (a & Ha & He).
  rewrite He, drop_app_length. cbn [fold_left].
  unfold onDefenseAction. rewrite Ha. reflexivity.
Qed.

Lemma detectExplicitAttack_blocklist req now st :
  blocklist (detectExplicitAttack req now st).2 = blocklist st.
Proof.
  unfold detectExplicitAttack.
  destruct (isLegitimateClient _); [reflexivity|].
  destruct (bool_decide _); [reflexivity|].
  destruct (List.find _ maliciousAgents);
    [apply callDefense_markSuspicious_blocklist|].
  destruct (List.find _ suspiciousHeaders); [reflexivity|].
  unfold isRapidFireRequest.
  destruct (_ && _); reflexivity.
Qed.

Lemma performPeriodicCleanup_blocklist now st :
  blocklist (performPeriodicCleanup now st) = blocklist st.
Proof. unfold performPeriodicCleanup. destruct (_ <? _); reflexivity. Qed.


Lemma createRequestFilter_blocklist req now st :
  blocklist (createRequestFilter req now st).2 = blocklist st.
Proof.
  unfold createRequestFilter, checkConnectionLimit.
  pose proof (performPeriodicCleanup_blocklist now st) as H.
  repeat match goal with
  | |- context [if ?b then _ else _] => destruct b
  end; cbn; exact H.
Qed.

Lemma createDownloadProtection_blocklist req now st :
  blocklist (createDownloadProtection req now st).2 = blocklist st.
Proof.
  unfold createDownloadProtection.
  pose proof (detectExplicitAttack_blocklist req now st) as H.
  destruct (_ && _); [reflexivity|].
  destruct (detectExplicitAttack req now st) as [[why|] st']; exact H.
Qed.

Lemma createStreamProtection_blocklist req now st :
  blocklist (createStreamProtection req now st).2 = blocklist st.
Proof.
  unfold createStreamProtection.
  pose proof (detectExplicitAttack_blocklist req now st) as H.
  destruct (_ && _); [reflexivity|].
  destruct (negb _); [reflexivity|].
  destruct (detectExplicitAttack req now st) as [[why|] st']; exact H.
Qed.

(** No request ever puts an IP on the blocklist: the only events the
    defense system emits on these paths are alerts. *)
Lemma reachable_blocklist_empty st : reachable st → blocklist st = ∅.
Proof.
  induction 1 as [cfg now | req now st _ IH | req now st _ IH | req now st _ IH].
  - reflexivity.
  - rewrite createRequestFilter_blocklist. exact IH.
  - rewrite createDownloadProtection_blocklist. exact IH.
  - rewrite createStreamProtection_blocklist. exact IH.
Qed.

(** *** Range headers of chunk requests *)

Lemma rangeHeader_fields a b :
  0 <= a → 0 <= b →
  JS.split "-" (JS.replaceFirst "bytes=" "" (Attacker.rangeHeader (a, b)))
  = [JS.Z_to_string a; JS.Z_to_string b].
Proof.
  intros Ha Hb. unfold Attacker.rangeHeader. cbn [fst snd].
  rewrite JSFacts.replaceFirst_front.
  change ("" +:+ JS.Z_to_string a +:+ "-" +:+ JS.Z_to_string b)
    with (JS.Z_to_string a +:+ String "-" (JS.Z_to_string b)).
  rewrite JSFacts.split_field by (apply JSFacts.lacks_Z_to_string; [exact Ha | reflexivity]).
  rewrite JSFacts.split_single by (apply JSFacts.lacks_Z_to_string; [exact Hb | reflexivity]).
  reflexivity.
Qed.

(** X13.  On the Range header of a chunk request for the bytes [a] to
    [b], [isAbnormalRangeRequest] answers yes exactly when [b] is not 0 and
    either [b < a] or [b - a] exceeds 100 MiB; a header that ends at
    byte 0 is never abnormal. *)
Theorem abnormal_range_of_span a b :
  0 <= a → 0 <= b →
  isAbnormalRangeRequest (Attacker.rangeHeader (a, b))
  = negb (b =? 0) && ((100 * 1024 * 1024 <? b - a) || (b <? a)).
Proof.
  intros Ha Hb. unfold isAbnormalRangeRequest.
  rewrite (rangeHeader_fields a b Ha Hb).
  cbn [hd lookup list_lookup].
  rewrite JSFacts.Z_to_string_nonempty, !JSFacts.parseInt_Z_to_string.
  cbn [JS.num_truthy JS.num_sub JS.num_gt JS.num_lt default id].
  destruct (b =? 0); cbn [negb andb orb];
    repeat match goal with
           | |- context [?x <? ?y] => destruct (Z.ltb_spec x y)
           end; cbn [negb andb orb]; try reflexivity; lia.
Qed.
(** X13, witness: bytes=5-0 is not abnormal. *)
Lemma abnormal_range_of_span_witness :
  isAbnormalRangeRequest (Attacker.rangeHeader (5, 0)) = false.
Proof. rewrite (abnormal_range_of_span 5 0) by lia. reflexivity. Defined.

(** *** Flagging and forwarding *)

Lemma fold_onDefenseAction_defenseSystem acts st :
  defenseSystem (fold_left onDefenseAction acts st) = defenseSystem st.
Proof.
  revert st. induction acts as [|a acts IH]; intros st; [reflexivity|].
  cbn [fold_left]. rewrite IH. unfold onDefenseAction.
  destruct (DefenseSystem.type a), (DefenseSystem.severity a); reflexivity.
Qed.

Lemma callDefense_defenseSystem op st :
  defenseSystem (callDefense op st) = op (defenseSystem st).
Proof. unfold callDefense. apply fold_onDefenseAction_defenseSystem. Qed.

Lemma markConnectionSuspicious_flags addr p why now d :
  DefenseSystem.isConnectionSuspicious addr p
    (DefenseSystem.markConnectionSuspicious addr p why now d) = true.
Proof.
  unfold DefenseSystem.isConnectionSuspicious, DefenseSystem.markConnectionSuspicious,
    DefenseSystem.getOrCreateConnectionState.
  destruct (DefenseSystem.connectionStates d !! DefenseSystem.connId addr p);
    cbn; rewrite ?insert_insert_eq, lookup_insert_eq; reflexivity.
Qed.

(** X14.  A download request from a client that is not on the
    blocklist, whose user agent carries no whitelist marker but names one
    of the attack tools, and which does not ask for a simulated attack, is
    answered 403 with the name of the tool; the connection (client
    address and forwarded port) is marked suspicious in the defense
    system; the blocklist is left as it is.  The forwarded port is what
    [parseInt] without a radix reads in x-forwarded-port (hexadecimal
    after 0x, decimal otherwise, 0 when there is no number); it is taken
    to be a safe integer, which a number holds exactly. *)
Theorem malicious_agent_rejected_and_flagged req now st agent :
  blocklistEnabled (config st) && isBlocked (getClientIP req) st = false →
  isLegitimateClient (header "user-agent" req) = false →
  headers req !! "x-simulate-attack" ≠ Some "optimistic-ack" →
  List.find (JS.includes (header "user-agent" req)) maliciousAgents = Some agent →
  Z.abs (forwardedPort req) <= JS.maxSafeInteger →
  (createDownloadProtection req now st).1
  = Respond 403 ("Attack blocked: Malicious user agent detected: " +:+ agent)
  ∧ DefenseSystem.isConnectionSuspicious (getClientIP req) (forwardedPort req)
      (defenseSystem (createDownloadProtection req now st).2) = true
  ∧ blocklist (createDownloadProtection req now st).2 = blocklist st.
Proof.
  intros Hb Hl Hsim Hfind _. unfold createDownloadProtection. rewrite Hb.
  unfold detectExplicitAttack. rewrite Hl, Hfind.
  rewrite bool_decide_eq_false_2 by exact Hsim. cbn [fst snd].
  split; [reflexivity|]. split.
  - rewrite callDefense_defenseSystem. apply markConnectionSuspicious_flags.
  - apply callDefense_markSuspicious_blocklist.
Qed.

(** X14, witness: a request of the tool with x-forwarded-port 0x50 is
    answered 403, and the connection 10.0.0.5:80 is marked suspicious. *)
Lemma malicious_agent_rejected_and_flagged_witness :
  (createDownloadProtection proxiedTool 5 (create defaultConfig 0)).1
  = Respond 403 "Attack blocked: Malicious user agent detected: OptimisticACK-Attack-Tool"
  ∧ DefenseSystem.isConnectionSuspicious "10.0.0.5" 80
      (defenseSystem (createDownloadProtection proxiedTool 5 (create defaultConfig 0)).2)
    = true.
Proof.
  destruct (malicious_agent_rejected_and_flagged proxiedTool 5 (create defaultConfig 0)
              "OptimisticACK-Attack-Tool") as (H & Hs & _);
    [vm_compute; reflexivity | vm_compute; reflexivity | vm_compute; discriminate
    | vm_compute; reflexivity | vm_compute; discriminate |].
  split; [exact H | exact Hs].
Defined.

(** X15.  An address enters the blocklist only on a critical
    [quarantine] action, and the middleware never makes its defense system
    emit one: on a middleware that has served any sequence of requests, no
    request is answered with the "IP blocked" denial. *)
Theorem blocklist_never_fills st req now :
  reachable st →
  (createRequestFilter req now st).1.2 ≠ deniedAsBlocked
  ∧ (createDownloadProtection req now st).1 ≠ deniedAsBlocked
  ∧ (createStreamProtection req now st).1 ≠ deniedAsBlocked.
Proof.
  intros Hr. pose proof (reachable_blocklist_empty st Hr) as He.
  assert (Hnb : ∀ s addr, blocklist s = ∅ → isBlocked addr s = false).
  { intros s addr H. unfold isBlocked. rewrite H.
    apply bool_decide_eq_false_2, not_elem_of_empty. }
  split; [|split].
  - unfold createRequestFilter.
    rewrite (Hnb _ _ (eq_trans (performPeriodicCleanup_blocklist now st) He)).
    rewrite andb_false_r.
    destruct (enableConnectionThrottling _); [|discriminate].
    destruct (negb _); [|discriminate].
    destruct (checkConnectionLimit _ _) as [[] ?]; discriminate.
  - unfold createDownloadProtection. rewrite (Hnb _ _ He), andb_false_r.
    destruct (detectExplicitAttack req now st) as [[why|] ?]; [|discriminate].
    cbn. unfold deniedAsBlocked. intros H. injection H as H. discriminate H.
  - unfold createStreamProtection. rewrite (Hnb _ _ He), andb_false_r.
    destruct (negb _); [unfold deniedAsBlocked; intros H; injection H as H _; discriminate H|].
    destruct (detectExplicitAttack req now st) as [[why|] ?]; [|discriminate].
    cbn. unfold deniedAsBlocked. intros H. injection H as H. discriminate H.
Qed.

(** X15, witness: the attack request, repeated. *)
Lemma blocklist_never_fills_witness :
  (createDownloadProtection undisguised 5
     (createDownloadProtection undisguised 4 (create defaultConfig 0)).2).1
  ≠ deniedAsBlocked.
Proof.
  apply (blocklist_never_fills
           (createDownloadProtection undisguised 4 (create defaultConfig 0)).2
           undisguised 5).
  apply reach_download, reach_create.
Defined.

(** The first entry of X-Forwarded-For is the client address. *)
Lemma getClientIP_forwarded req first rest :
  headers req !! "x-forwarded-for" = Some first
  ∨ headers req !! "x-forwarded-for" = Some (first +:+ String "," rest) →
  JS.lacks "," first = true → first ≠ "" →
  getClientIP req = first.
Proof.
  intros Hh Hl Hne. unfold getClientIP.
  destruct Hh as [-> | ->];
    rewrite ?(JSFacts.split_single _ _ Hl), ?(JSFacts.split_field _ _ _ Hl);
    cbn [hd]; unfold orElse; (destruct first; [congruence | reflexivity]).
Qed.

(** X16.  The client address is the first entry of X-Forwarded-For
    whenever that entry is not empty, whatever the address of the socket:
    a whitelisted client that names an address outside the blocklist there
    passes the download and the stream protection, even from a blocked
    address. *)
Theorem forwarded_header_names_the_client req now st first rest :
  headers req !! "x-forwarded-for" = Some first
  ∨ headers req !! "x-forwarded-for" = Some (first +:+ String "," rest) →
  JS.lacks "," first = true → first ≠ "" →
  first ∉ blocklist st →
  isLegitimateClient (header "user-agent" req) = true →
  getClientIP req = first
  ∧ createDownloadProtection req now st = (Next, st)
  ∧ createStreamProtection req now st
    = (if (validateStreamingRequest req).1 then Next
       else Respond 400 (validateStreamingRequest req).2, st).
Proof.
  intros Hh Hl Hne Hnot Hlegit.
  pose proof (getClientIP_forwarded req first rest Hh Hl Hne) as Hip.
  assert (Hb : isBlocked (getClientIP req) st = false).
  { rewrite Hip. unfold isBlocked. apply bool_decide_eq_false_2. exact Hnot. }
  split; [exact Hip|].
  unfold createDownloadProtection, createStreamProtection.
  rewrite Hb, andb_false_r, (detectExplicitAttack_legitimate _ _ _ Hlegit).
  split; [reflexivity|]. destruct (validateStreamingRequest req).1; reflexivity.
Qed.

(** X16, witness: a request from the blocked address 10.0.0.5. *)
Lemma forwarded_header_names_the_client_witness :
  isBlocked (remoteAddress forwardedRequest) blockedState = true
  ∧ createDownloadProtection forwardedRequest 5 blockedState = (Next, blockedState).
Proof.
  split; [vm_compute; reflexivity|].
  apply (forwarded_header_names_the_client forwardedRequest 5 blockedState
           "203.0.113.9" " 10.0.0.1").
  - right. vm_compute. reflexivity.
  - reflexivity.
  - discriminate.
  - unfold blockedState, addToBlocklist. cbn [blocklist create].
    rewrite not_elem_of_union, not_elem_of_singleton.
    split; [discriminate | apply not_elem_of_empty].
  - vm_compute. reflexivity.
Defined.

(** *** Stream identifiers and segment names *)

Lemma lacks_app c a b : JS.lacks c (a +:+ b) = JS.lacks c a && JS.lacks c b.
Proof.
  induction a as [|x a IH]; [reflexivity|].
  change (String x a +:+ b) with (String x (a +:+ b)). cbn [JS.lacks].
  rewrite IH, andb_assoc. reflexivity.
Qed.

Lemma allChars_lacks p x s :
  p x = false → allChars p s = true → JS.lacks x s = true.
Proof.
  intros Hx. induction s as [|c s IH]; cbn [allChars JS.lacks]; [reflexivity|].
  intros H. apply andb_true_iff in H. destruct H as [Hc Hs].
  rewrite (IH Hs), andb_true_r.
  destruct (Ascii.eqb_spec c x) as [->|]; [congruence | reflexivity].
Qed.

Lemma digitsThenTs_lacks x s seen :
  isDigit x = false → JS.lacks x ".ts" = true →
  digitsThenTs s seen = true → JS.lacks x s = true.
Proof.
  intros Hd Hx. revert seen.
  induction s as [|c s IH]; intros seen; cbn [digitsThenTs]; [reflexivity|].
  destruct (isDigit c) eqn:Ec.
  - intros H. cbn [JS.lacks]. rewrite (IH _ H), andb_true_r.
    destruct (Ascii.eqb_spec c x) as [->|]; [congruence | reflexivity].
  - intros H. apply andb_true_iff in H. destruct H as [_ H].
    apply String.eqb_eq in H. rewrite H. exact Hx.
Qed.

Lemma matchesSegment_lacks x s :
  isDigit x = false → JS.lacks x "segment.tsplaylist.m3u8" = true →
  matchesSegment s = true → JS.lacks x s = true.
Proof.
  intros Hd Hx. unfold matchesSegment. intros H.
  change "segment.tsplaylist.m3u8" with ("segment" +:+ ".ts" +:+ "playlist.m3u8") in Hx.
  rewrite !lacks_app in Hx.
  apply andb_true_iff in Hx. destruct Hx as [H1 Hx].
  apply andb_true_iff in Hx. destruct Hx as [H2 H3].
  apply orb_true_iff in H. destruct H as [H|H].
  - apply andb_true_iff in H. destruct H as [Hp Hs].
    destruct (prefix_occurs _ _ Hp) as [post ->].
    change 7%nat with (String.length "segment") in Hs.
    rewrite JSFacts.drop_app_length in Hs.
    rewrite lacks_app, H1, (digitsThenTs_lacks x post false Hd H2 Hs). reflexivity.
  - apply String.eqb_eq in H. subst s. exact H3.
Qed.

(** X17.  A stream request that passes [validateStreamingRequest]
    cannot leave its directory: its stream identifier holds no slash,
    backslash or dot, and its segment name no slash or backslash. *)
Theorem validated_names_hold_no_path req :
  (validateStreamingRequest req).1 = true →
  JS.lacks "/" (streamId req) = true ∧ JS.lacks "\" (streamId req) = true
  ∧ JS.lacks "." (streamId req) = true
  ∧ JS.lacks "/" (segment req) = true ∧ JS.lacks "\" (segment req) = true.
Proof.
  unfold validateStreamingRequest. intros H.
  assert (Hid : streamId req = "" ∨ matchesStreamId (streamId req) = true).
  { destruct (streamId req) as [|c t] eqn:E; [left; reflexivity | right].
    rewrite <- E in *. destruct (matchesStreamId (streamId req)); [reflexivity|].
    rewrite E in H. cbn in H. discriminate H. }
  assert (Hseg : segment req = "" ∨ matchesSegment (segment req) = true).
  { destruct (segment req) as [|c t] eqn:E; [left; reflexivity | right].
    rewrite <- E in *. destruct (matchesSegment (segment req)); [reflexivity|].
    rewrite E in H. cbn in H.
    destruct (JS.str_truthy (streamId req) && _) in H; discriminate H. }
  clear H.
  assert (Hi : ∀ x, (inRange 97 122 x || inRange 65 90 x || isDigit x
                     || Ascii.eqb x "-" || Ascii.eqb x "_") = false →
                    JS.lacks x (streamId req) = true).
  { intros x Hx. destruct Hid as [-> | Hid]; [reflexivity|].
    unfold matchesStreamId in Hid. apply andb_true_iff in Hid. destruct Hid as [_ Hid].
    exact (allChars_lacks _ x _ Hx Hid). }
  assert (Hs : ∀ x, isDigit x = false → JS.lacks x "segment.tsplaylist.m3u8" = true →
                    JS.lacks x (segment req) = true).
  { intros x Hd Hx. destruct Hseg as [-> | Hseg]; [reflexivity|].
    exact (matchesSegment_lacks x _ Hd Hx Hseg). }
  repeat split; first [apply Hi; reflexivity | apply Hs; reflexivity].
Qed.

(** X17, witness: segment001.ts of demo-stream. *)
Lemma validated_names_hold_no_path_witness :
  JS.lacks "/" "demo-stream" = true ∧ JS.lacks "/" "segment001.ts" = true.
Proof.
  destruct (validated_names_hold_no_path
              (mkRequest ∅ "10.0.0.5" "10.0.0.5" "" "demo-stream" "segment001.ts"))
    as (H1 & _ & _ & H2 & _); [vm_compute; reflexivity|].
  split; [exact H1 | exact H2].
Defined.

(** *** Throttling *)

Lemma checkConnectionLimit_spec ip st :
  let count := default 0 (connectionCounts st !! ip) in
  (checkConnectionLimit ip st).1 = (count <? connectionLimit ip (config st))
  ∧ config (checkConnectionLimit ip st).2 = config st
  ∧ default 0 (connectionCounts (checkConnectionLimit ip st).2 !! ip)
    = if count <? connectionLimit ip (config st) then count + 1 else count.
Proof.
  cbn zeta. unfold checkConnectionLimit. fold (connectionLimit ip (config st)).
  destruct (Z.leb_spec (connectionLimit ip (config st))
              (default 0 (connectionCounts st !! ip)));
    destruct (Z.ltb_spec (default 0 (connectionCounts st !! ip))
                (connectionLimit ip (config st))); try lia; cbn.
  - auto.
  - rewrite lookup_insert_eq. auto.
Qed.

(** X18.  Between two expirations of its 2-second timers,
    [checkConnectionLimit] admits a request exactly when the count of the
    address is below the limit (ten times [maxConnectionsPerIP] for the
    local addresses), and counts the admitted requests only: of [n]
    requests in a row, the one that would be counted as number [k] is
    admitted when [k] is below the limit. *)
Theorem connection_limit_admits_up_to_limit n ip st :
  (checkConnectionLimitAll n ip st).1
  = (λ k, k <? connectionLimit ip (config st))
      <$> seqZ (default 0 (connectionCounts st !! ip)) (Z.of_nat n).
Proof.
  revert st. induction n as [|n IH]; intros st; [reflexivity|].
  cbn [checkConnectionLimitAll].
  destruct (checkConnectionLimit_spec ip st) as (Hok & Hcfg & Hcount).
  destruct (checkConnectionLimit ip st) as [ok st1]. cbn [fst snd] in *.
  specialize (IH st1). destruct (checkConnectionLimitAll n ip st1) as [oks st2].
  cbn [fst snd] in *.
  rewrite seqZ_cons by lia. cbn [fmap list_fmap]. f_equal; [exact Hok|].
  rewrite IH, Hcfg, Hcount.
  replace (Z.pred (Z.of_nat (S n))) with (Z.of_nat n) by lia.
  set (count := default 0 (connectionCounts st !! ip)).
  set (limit := connectionLimit ip (config st)).
  destruct (Z.ltb_spec count limit) as [Hlt|Hge].
  - reflexivity.
  - (* at the limit: every later check fails as well *)
    apply list_eq. intros i. rewrite !list_lookup_fmap.
    destruct (decide (i < n)%nat) as [Hi|Hi].
    + rewrite !lookup_seqZ_lt by lia. cbn.
      f_equal. destruct (Z.ltb_spec (count + Z.of_nat i) limit);
        destruct (Z.ltb_spec (Z.succ count + Z.of_nat i) limit); lia || reflexivity.
    + rewrite !lookup_seqZ_ge by lia. reflexivity.
Qed.

End SecurityMiddlewareFacts.

(** ** Connection Analyzer *)

Module ConnectionAnalyzerFacts.
Import ConnectionAnalyzer.

Lemma countChar_app x s t :
  countChar x (s +:+ t) = (countChar x s + countChar x t)%nat.
Proof. induction s as [|c s IH]; simpl; [reflexivity | rewrite IH; lia]. Qed.

Lemma countChar_uint d : countChar "_" (NilEmpty.string_of_uint d) = O.
Proof. induction d; simpl; auto. Qed.

Lemma countChar_Z_to_string z : countChar "_" (JS.Z_to_string z) = O.
Proof.
  unfold JS.Z_to_string, NilZero.string_of_int.
  destruct (Z.to_int z) as [d|d]; unfold NilZero.string_of_uint.
  - destruct d; try apply countChar_uint; reflexivity.
  - destruct d; simpl; try apply countChar_uint; reflexivity.
Qed.

Lemma base36Digit_not_underscore d : Ascii.eqb (base36Digit d) "_" = false.
Proof.
  unfold base36Digit.
  assert (H : (d mod 36 < 36)%nat) by (apply Nat.mod_upper_bound; lia).
  set (n := (d mod 36)%nat) in *. clearbody n.
  do 36 (destruct n as [|n]; [reflexivity|]). lia.
Qed.

Lemma countChar_randomSuffix fraction : countChar "_" (randomSuffix fraction) = O.
Proof.
  unfold randomSuffix. induction (firstn 9 fraction) as [|d ds IH]; simpl.
  - reflexivity.
  - rewrite base36Digit_not_underscore, IH. reflexivity.
Qed.

(** An identifier returned by [logConnection] holds one underscore. *)
Lemma fresh_id_underscores now fraction :
  countChar "_" (generateConnectionId None now fraction) = 1%nat.
Proof.
  unfold generateConnectionId.
  rewrite !countChar_app, countChar_Z_to_string, countChar_randomSuffix. reflexivity.
Qed.

(** The identifier a stored connection is compared by holds at least
    two. *)
Lemma stored_id_underscores c : (2 <= countChar "_" (storedId c))%nat.
Proof.
  unfold storedId, generateConnectionId.
  rewrite !countChar_app. simpl. lia.
Qed.

Lemma storedId_fresh c now fraction :
  String.eqb (storedId c) (generateConnectionId None now fraction) = false.
Proof.
  apply String.eqb_neq. intros Heq.
  pose proof (stored_id_underscores c) as H2.
  rewrite Heq, fresh_id_underscores in H2. lia.
Qed.

Lemma changeFirst_fresh now fraction f cs :
  changeFirst (generateConnectionId None now fraction) f cs = None.
Proof.
  induction cs as [|c cs IH]; cbn [changeFirst]; [reflexivity|].
  rewrite storedId_fresh, IH. reflexivity.
Qed.

Lemma changeInMap_fresh now fraction f m :
  changeInMap (generateConnectionId None now fraction) f m = None.
Proof.
  induction m as [|[k cs] m IH]; cbn [changeInMap]; [reflexivity|].
  rewrite changeFirst_fresh, IH. reflexivity.
Qed.

Lemma logConnection_id addr ty res ua now fraction st :
  (logConnection addr ty res ua now fraction st).1
  = generateConnectionId None now fraction.
Proof. reflexivity. Qed.

(** C6 (what the code does).  The identifier returned by [logConnection]
    is never the identifier of a stored connection: whatever the state,
    the call and the later clock value, [updateConnectionBytes] with
    that identifier changes nothing (no bytes recorded, no flag
    appended), and [closeConnection] with it records no duration. *)
Theorem logged_id_never_matches addr ty res ua now fraction st bytes later :
  updateConnectionBytes (logConnection addr ty res ua now fraction st).1 bytes later
    (logConnection addr ty res ua now fraction st).2
  = (logConnection addr ty res ua now fraction st).2
  ∧ connections
      (closeConnection (logConnection addr ty res ua now fraction st).1 later
         (logConnection addr ty res ua now fraction st).2)
    = connections (logConnection addr ty res ua now fraction st).2.
Proof.
  rewrite logConnection_id.
  split.
  - unfold updateConnectionBytes. rewrite changeInMap_fresh. reflexivity.
  - unfold closeConnection. cbn [connections].
    rewrite changeInMap_fresh. reflexivity.
Qed.

(** C6 at a concrete input: the returned identifier is
    "1700000000000_k3j9x0q2a"; updating it with 200 MB leaves the stored
    connection at 0 bytes and the activity log empty, and closing it
    leaves the duration unset. *)
Lemma updateConnectionBytes_logged_id_example :
  sampleLog.1 = "1700000000000_k3j9x0q2a"
  ∧ List.map bytesTransferred
      (allConnections
         (connections
            (updateConnectionBytes sampleLog.1 (200 * 1024 * 1024) (sampleTime + 5)
               sampleLog.2))) = [Some 0]
  ∧ suspiciousActivity
      (metrics
         (updateConnectionBytes sampleLog.1 (200 * 1024 * 1024) (sampleTime + 5)
            sampleLog.2)) = []
  ∧ List.map duration
      (allConnections
         (connections (closeConnection sampleLog.1 (sampleTime + 5) sampleLog.2)))
    = [None].
Proof. vm_compute. auto. Qed.

(** With the identifier in the form the lookup compares against, the same
    update records the bytes and appends the flag. *)
Lemma updateConnectionBytes_stored_id_example :
  List.map bytesTransferred
    (allConnections
       (connections
          (updateConnectionBytes "203.0.113.5_1700000000000_file_download"
             (200 * 1024 * 1024) (sampleTime + 5) sampleLog.2)))
  = [Some (200 * 1024 * 1024)]
  ∧ List.map (λ a, (a_ip a, a_type a, a_severity a, a_details a))
      (suspiciousActivity
         (metrics
            (updateConnectionBytes "203.0.113.5_1700000000000_file_download"
               (200 * 1024 * 1024) (sampleTime + 5) sampleLog.2)))
    = [("203.0.113.5", large_download, medium, "Large download detected: 200.00 MB")].
Proof. vm_compute. auto. Qed.

(** *** The bounds of the memory *)

Lemma lookupIP_setIP addr v m : lookupIP addr (setIP addr v m) = Some v.
Proof.
  induction m as [|[k old] m IH]; cbn [setIP lookupIP].
  - rewrite String.eqb_refl. reflexivity.
  - destruct (String.eqb k addr) eqn:E; cbn [lookupIP]; rewrite E; [reflexivity | exact IH].
Qed.

Lemma lookupIP_In addr m cs : lookupIP addr m = Some cs → In (addr, cs) m.
Proof.
  induction m as [|[k v] m IH]; cbn [lookupIP]; [discriminate|].
  destruct (String.eqb_spec k addr) as [->|].
  - intros H. injection H as ->. left. reflexivity.
  - intros H. right. apply IH, H.
Qed.

Lemma setIP_Forall (P : string * list ConnectionData → Prop) addr v m :
  P (addr, v) → Forall P m → Forall P (setIP addr v m).
Proof.
  intros Hv. induction m as [|[k old] m IH]; intros HF; cbn [setIP].
  - repeat constructor. exact Hv.
  - inversion_clear HF as [|? ? Hk Hm].
    destruct (String.eqb_spec k addr) as [->|].
    + constructor; assumption.
    + constructor; [exact Hk | apply IH, Hm].
Qed.

Lemma flagSuspiciousActivity_bounded addr ty details sev now st :
  bounded st → bounded (flagSuspiciousActivity addr ty details sev now st).
Proof.
  intros [Hc Hl]. split; [exact Hc|].
  unfold flagSuspiciousActivity. cbn [metrics suspiciousActivity].
  match goal with
  | |- context [(100 <? ?n)%nat] => destruct (Nat.ltb_spec 100 n) as [H|H]
  end.
  - rewrite length_tl, length_app in *. cbn [List.length] in *. lia.
  - lia.
Qed.

Lemma updateMetrics_bounded st : bounded st → bounded (updateMetrics st).
Proof. intros H. exact H. Qed.

Lemma checkSuspiciousActivity_bounded addr c now st :
  bounded st → bounded (checkSuspiciousActivity addr c now st).
Proof.
  intros H. unfold checkSuspiciousActivity.
  destruct (_ && _).
  - apply flagSuspiciousActivity_bounded.
    destruct (_ <=? _); [apply flagSuspiciousActivity_bounded|]; exact H.
  - destruct (_ <=? _); [apply flagSuspiciousActivity_bounded|]; exact H.
Qed.

Lemma history_bounded addr st :
  bounded st → Z.of_nat (List.length (getConnectionHistory addr st)) <= maxConnectionHistory.
Proof.
  intros [Hc _]. unfold getConnectionHistory.
  destruct (lookupIP addr (connections st)) as [cs|] eqn:E; cbn [default].
  - apply lookupIP_In in E. rewrite List.Forall_forall in Hc.
    apply (Hc (addr, cs)), E.
  - unfold maxConnectionHistory. cbn. lia.
Qed.

Lemma logConnection_bounded addr ty res ua now fraction st :
  bounded st → bounded (logConnection addr ty res ua now fraction st).2.
Proof.
  intros Hb. pose proof (history_bounded addr st Hb) as Hh.
  unfold getConnectionHistory in Hh.
  unfold logConnection. cbn [snd].
  apply checkSuspiciousActivity_bounded, updateMetrics_bounded.
  destruct Hb as [Hc Hl]. split; [|exact Hl]. cbn [connections].
  apply setIP_Forall; [|exact Hc]. cbn [snd].
  match goal with
  | |- context [maxConnectionHistory <? ?n] =>
      destruct (Z.ltb_spec maxConnectionHistory n) as [H|H]
  end.
  - rewrite length_tl, length_app in *. cbn [List.length] in *. lia.
  - exact H.
Qed.

Lemma changeFirst_length connectionId f cs cs' :
  changeFirst connectionId f cs = Some cs' → List.length cs' = List.length cs.
Proof.
  revert cs'. induction cs as [|c cs IH]; intros cs'; cbn [changeFirst]; [discriminate|].
  destruct (String.eqb _ _).
  - intros H. injection H as <-. reflexivity.
  - destruct (changeFirst connectionId f cs) as [r|]; [|discriminate].
    intros H. injection H as <-. cbn. f_equal. apply IH. reflexivity.
Qed.

Lemma changeInMap_Forall connectionId f m addr m' :
  changeInMap connectionId f m = Some (addr, m') →
  Forall (fun kv : string * list ConnectionData =>
            Z.of_nat (List.length kv.2) <= maxConnectionHistory) m →
  Forall (fun kv : string * list ConnectionData =>
            Z.of_nat (List.length kv.2) <= maxConnectionHistory) m'.
Proof.
  revert m'. induction m as [|[k cs] m IH]; intros m'; cbn [changeInMap]; [discriminate|].
  intros H HF. inversion_clear HF as [|? ? Hk Hm].
  destruct (changeFirst connectionId f cs) as [cs'|] eqn:E.
  - injection H as <- <-. constructor; [|exact Hm].
    cbn [snd] in *. rewrite (changeFirst_length _ _ _ _ E). exact Hk.
  - destruct (changeInMap connectionId f m) as [[k' rest']|]; [|discriminate].
    injection H as <- <-. constructor; [exact Hk | apply IH; [reflexivity | exact Hm]].
Qed.

Lemma cleanupOldConnections_bounded now st :
  bounded st → bounded (cleanupOldConnections now st).
Proof.
  intros [Hc Hl]. split; cbn.
  - apply List.Forall_forall. intros kv Hin.
    apply filter_In in Hin. destruct Hin as [Hin _].
    apply in_map_iff in Hin. destruct Hin as ([k cs] & <- & Hin).
    rewrite List.Forall_forall in Hc. specialize (Hc (k, cs) Hin).
    cbn [fst snd] in *.
    pose proof (List.filter_length_le
                  (fun c => now - 24 * 60 * 60 * 1000 <? timestamp c) cs). lia.
  - pose proof (List.filter_length_le
                  (fun activity => now - a_timestamp activity <? 24 * 60 * 60 * 1000)
                  (suspiciousActivity (metrics st))). lia.
Qed.

Lemma performSecurityAnalysis_bounded now st :
  bounded st → bounded (performSecurityAnalysis now st).
Proof.
  unfold performSecurityAnalysis. generalize (connections st) as entries.
  intros entries. revert st.
  induction entries as [|kv entries IH]; intros st Hb; [exact Hb|].
  cbn [fold_left]. apply IH. unfold analyzeEntry.
  destruct (_ <? _)%Z.
  - apply flagSuspiciousActivity_bounded.
    destruct (_ <? _)%nat; [apply flagSuspiciousActivity_bounded|]; exact Hb.
  - destruct (_ <? _)%nat; [apply flagSuspiciousActivity_bounded|]; exact Hb.
Qed.

Lemma perform_bounded st o : bounded st → bounded (perform st o).
Proof.
  intros Hb. destruct o as [addr ty res ua now fraction|cid bytes now|cid now|now];
    cbn [perform].
  - apply logConnection_bounded, Hb.
  - unfold updateConnectionBytes.
    destruct (changeInMap cid (setBytes bytes) (connections st)) as [[addr m]|] eqn:E;
      [|exact Hb].
    assert (Hb' : bounded (updateMetrics
                             (mkState m (activeConnections st) (metrics st) (emitted st)))).
    { destruct Hb as [Hc Hl]. split; [|exact Hl]. exact (changeInMap_Forall _ _ _ _ _ E Hc). }
    destruct (_ <? _); [apply flagSuspiciousActivity_bounded|]; exact Hb'.
  - unfold closeConnection. cbn [connections activeConnections metrics emitted].
    destruct (changeInMap cid _ (connections st)) as [[addr m]|] eqn:E.
    + destruct Hb as [Hc Hl]. split; [|exact Hl]. exact (changeInMap_Forall _ _ _ _ _ E Hc).
    + exact Hb.
  - apply performSecurityAnalysis_bounded, cleanupOldConnections_bounded, Hb.
Qed.

(** X19.  Whatever is called on a connection analyzer and whenever its
    timer ticks, the history of an address never holds more than 1000
    connections, and the list of suspicious activities never more than 100
    entries. *)
Theorem analyzer_memory_bounded os addr :
  Z.of_nat (List.length (getConnectionHistory addr (performAll os create))) <= 1000
  ∧ Z.of_nat (List.length (suspiciousActivity (metrics (performAll os create)))) <= 100.
Proof.
  assert (H : bounded (performAll os create)).
  { unfold performAll.
    assert (Hall : ∀ st, bounded st → bounded (fold_left perform os st)).
    { induction os as [|o os IH]; intros st Hb; [exact Hb|].
      cbn [fold_left]. apply IH, perform_bounded, Hb. }
    apply Hall. split; [constructor | cbn; lia]. }
  split; [apply (history_bounded addr _ H) | apply H].
Qed.

(** *** Logging a connection *)

Lemma flagSuspiciousActivity_connections addr ty details sev now st :
  connections (flagSuspiciousActivity addr ty details sev now st) = connections st.
Proof. reflexivity. Qed.

Lemma checkSuspiciousActivity_frame addr c now st :
  connections (checkSuspiciousActivity addr c now st) = connections st
  ∧ activeConnections (checkSuspiciousActivity addr c now st) = activeConnections st
  ∧ totalConnections (metrics (checkSuspiciousActivity addr c now st))
    = totalConnections (metrics st).
Proof.
  unfold checkSuspiciousActivity.
  destruct (_ && _); destruct (_ <=? _); repeat split; reflexivity.
Qed.

(** X20.  After [logConnection] the history of the address ends with
    the connection just logged (no bytes transferred yet, no duration),
    the identifier returned is among the active connections, and the
    [totalConnections] metric counts the connections stored. *)
Theorem logged_connection_is_last addr ty res ua now fraction st :
  last (getConnectionHistory addr (logConnection addr ty res ua now fraction st).2)
  = Some (mkConnectionData addr now ty res ua (Some 0) None)
  ∧ (logConnection addr ty res ua now fraction st).1
    ∈ activeConnections (logConnection addr ty res ua now fraction st).2
  ∧ totalConnections (metrics (logConnection addr ty res ua now fraction st).2)
    = Z.of_nat (List.length
                  (allConnections
                     (connections (logConnection addr ty res ua now fraction st).2))).
Proof.
  unfold logConnection. cbn [fst snd].
  match goal with
  | |- context [checkSuspiciousActivity addr ?c now ?s] =>
      destruct (checkSuspiciousActivity_frame addr c now s) as (Hc & Ha & Ht)
  end.
  unfold getConnectionHistory. rewrite Hc, Ha, Ht. cbn [updateMetrics connections
    activeConnections metrics totalConnections].
  split; [|split; [|reflexivity]].
  - rewrite lookupIP_setIP. cbn [default].
    destruct (maxConnectionHistory <? _) eqn:E; [|apply last_snoc].
    destruct (default [] (lookupIP addr (connections st))) as [|c0 prior].
    + cbn in E. discriminate E.
    + cbn [app tl]. apply last_snoc.
  - apply elem_of_union_l, elem_of_singleton. reflexivity.
Qed.

(** X21.  A connection logged for an address whose history is not full
    raises exactly one [rapid_requests] activity, of severity high, when
    the address already has nine or more connections less than a minute
    old, and none otherwise; the details give the count, the new
    connection included. *)
Theorem tenth_request_raises_rapid_requests addr ty res ua now fraction st :
  Z.of_nat (List.length (getConnectionHistory addr st)) < 1000 →
  raised rapid_requests (List.length (emitted st))
    (logConnection addr ty res ua now fraction st).2
  = let recentBefore :=
      List.filter (fun c => now - timestamp c <? 60000) (getConnectionHistory addr st) in
    if 9 <=? Z.of_nat (List.length recentBefore) then
      [mkSuspiciousActivity addr rapid_requests now
         (JS.Z_to_string (Z.of_nat (List.length recentBefore) + 1) +:+
          " requests in the last minute") high]
    else [].
Proof.
  intros Hlen. unfold getConnectionHistory in *. cbn zeta.
  unfold logConnection. cbn [snd].
  set (prior := default [] (lookupIP addr (connections st))) in *.
  set (new := mkConnectionData addr now ty res ua (Some 0) None).
  replace (maxConnectionHistory <? Z.of_nat (List.length (prior ++ [new]))) with false
    by (symmetry; apply Z.ltb_ge; rewrite length_app; unfold maxConnectionHistory;
        cbn [List.length]; lia).
  unfold checkSuspiciousActivity.
  cbn [updateMetrics connections]. rewrite lookupIP_setIP. cbn [default id].
  rewrite List.filter_app. cbn [List.filter timestamp new].
  replace (now - now <? 60000) with true by (symmetry; apply Z.ltb_lt; lia).
  set (recentBefore := List.filter (fun c => now - timestamp c <? 60000) prior).
  rewrite length_app. cbn [List.length].
  replace (Z.of_nat (List.length recentBefore + 1)) with
    (Z.of_nat (List.length recentBefore) + 1) by lia.
  unfold rapidRequests, raised.
  destruct (Z.leb_spec 10 (Z.of_nat (List.length recentBefore) + 1));
    destruct (Z.leb_spec 9 (Z.of_nat (List.length recentBefore))); try lia;
    destruct (_ && _); cbn [flagSuspiciousActivity updateMetrics emitted];
    rewrite <- ?app_assoc, ?drop_app_length, ?drop_all; reflexivity.
Qed.

(** X21, witness: the tenth download of an address within ten seconds. *)
Lemma tenth_request_raises_rapid_requests_witness :
  a_severity <$>
    raised rapid_requests (List.length (emitted nineDownloads))
      (logConnection "203.0.113.5" file_download (Some "xl.dat") None
         (sampleTime + 9000) [] nineDownloads).2
  = [high].
Proof.
  rewrite (tenth_request_raises_rapid_requests "203.0.113.5" file_download (Some "xl.dat")
             None (sampleTime + 9000) [] nineDownloads) by (vm_compute; reflexivity).
  vm_compute. reflexivity.
Defined.

(** *** The cleanup of the timer *)

Lemma cleanup_entries cutoff (m : list (string * list ConnectionData)) :
  allConnections
    (List.filter (fun kv : string * list ConnectionData =>
                    negb (List.length kv.2 =? 0)%nat)
       (List.map (fun kv : string * list ConnectionData =>
                    (kv.1, List.filter (fun c => cutoff <? timestamp c) kv.2)) m))
  = List.filter (fun c => cutoff <? timestamp c) (allConnections m).
Proof.
  unfold allConnections. induction m as [|[k cs] m IH]; [reflexivity|].
  rewrite !List.map_cons. cbn [fst snd]. rewrite concat_cons, List.filter_app, <- IH.
  cbn [List.filter snd].
  destruct (List.filter (fun c => cutoff <? timestamp c) cs) as [|c0 kept] eqn:E;
    reflexivity.
Qed.

(** X22.  [cleanupOldConnections] keeps exactly the connections whose
    timestamp is less than 24 hours old, in their order, and leaves no
    address with an empty history; it does not recompute the metrics, so
    [totalConnections] still counts the connections removed. *)
Theorem cleanup_keeps_last_day now st :
  allConnections (connections (cleanupOldConnections now st))
  = List.filter (fun c => now - 86400000 <? timestamp c) (allConnections (connections st))
  ∧ Forall (fun kv : string * list ConnectionData => kv.2 ≠ [])
      (connections (cleanupOldConnections now st))
  ∧ totalConnections (metrics (cleanupOldConnections now st))
    = totalConnections (metrics st).
Proof.
  split; [|split; [|reflexivity]].
  - unfold cleanupOldConnections. cbn [connections]. apply cleanup_entries.
  - unfold cleanupOldConnections. cbn [connections].
    apply List.Forall_forall. intros [k cs] Hin. apply filter_In in Hin.
    destruct Hin as [_ Hne]. cbn [snd] in *. destruct cs; [discriminate Hne | discriminate].
Qed.

End ConnectionAnalyzerFacts.

(** ** Attack Orchestrator *)

Module AttackerFacts.
Import Attacker.

(** *** Construction *)


Lemma host_check_passes c :
  targetHost c ≠ "" →
  negb (JS.str_truthy (targetHost c)) || (String.length (targetHost c) =? 0)%nat = false.
Proof. destruct (targetHost c); [congruence | reflexivity]. Qed.

Lemma validateConfig_keeps c c' :
  validateConfig c = inr c' →
  targetHost c' = targetHost c ∧ targetPort c' = targetPort c
  ∧ attackDuration c' = attackDuration c ∧ packetInterval c' = packetInterval c
  ∧ ackAdvanceSize c' = ackAdvanceSize c ∧ windowScale c' = windowScale c.
Proof.
  unfold validateConfig.
  repeat match goal with
  | |- context [if ?b then _ else _] => destruct b
  | |- context [match transferType c with _ => _ end] => destruct (transferType c)
  end; intros H; inversion H; subst; cbn; repeat split; reflexivity.
Qed.

(** C4 (as amended).  Constructing the orchestrator raises on the first
    violation among: empty host, port outside 1..65535, non-positive
    attackDuration, non-positive packetInterval, non-positive
    ackAdvanceSize; otherwise it succeeds, whatever [windowScale] is,
    and keeps these six fields as given. *)
Theorem construct_validates c :
  (targetHost c = "" → construct c = inl "Target host is required")
  ∧ (targetHost c ≠ "" → targetPort c <= 0 ∨ 65535 < targetPort c →
     construct c = inl "Target port must be between 1 and 65535")
  ∧ (targetHost c ≠ "" → 1 <= targetPort c <= 65535 → attackDuration c <= 0 →
     construct c = inl "Attack duration must be positive")
  ∧ (targetHost c ≠ "" → 1 <= targetPort c <= 65535 → 0 < attackDuration c →
     packetInterval c <= 0 →
     construct c = inl "Packet interval must be positive")
  ∧ (targetHost c ≠ "" → 1 <= targetPort c <= 65535 → 0 < attackDuration c →
     0 < packetInterval c → ackAdvanceSize c <= 0 →
     construct c = inl "ACK advance size must be positive")
  ∧ (targetHost c ≠ "" → 1 <= targetPort c <= 65535 → 0 < attackDuration c →
     0 < packetInterval c → 0 < ackAdvanceSize c →
     ∃ a, construct c = inr a
          ∧ targetHost (config a) = targetHost c
          ∧ targetPort (config a) = targetPort c
          ∧ attackDuration (config a) = attackDuration c
          ∧ packetInterval (config a) = packetInterval c
          ∧ ackAdvanceSize (config a) = ackAdvanceSize c
          ∧ windowScale (config a) = windowScale c).
Proof.
  assert (Hport : ∀ p, 1 <= p <= 65535 → (p <=? 0) || (65535 <? p) = false).
  { intros p Hp. apply orb_false_iff. split; [apply Z.leb_gt | apply Z.ltb_ge]; lia. }
  assert (Hpos : ∀ x, 0 < x → (x <=? 0) = false) by (intros; apply Z.leb_gt; lia).
  assert (Hneg : ∀ x, x <= 0 → (x <=? 0) = true) by (intros; apply Z.leb_le; lia).
  repeat split.
  - intros Hh. unfold construct, validateConfig. rewrite Hh. reflexivity.
  - intros Hh Hp. unfold construct, validateConfig. rewrite (host_check_passes c Hh).
    replace ((targetPort c <=? 0) || (65535 <? targetPort c)) with true; [reflexivity|].
    symmetry. apply orb_true_iff.
    destruct Hp; [left; apply Z.leb_le | right; apply Z.ltb_lt]; lia.
  - intros Hh Hp Hd. unfold construct, validateConfig.
    rewrite (host_check_passes c Hh), (Hport _ Hp), (Hneg _ Hd). reflexivity.
  - intros Hh Hp Hd Hi. unfold construct, validateConfig.
    rewrite (host_check_passes c Hh), (Hport _ Hp), (Hpos _ Hd), (Hneg _ Hi).
    reflexivity.
  - intros Hh Hp Hd Hi Ha. unfold construct, validateConfig.
    rewrite (host_check_passes c Hh), (Hport _ Hp), (Hpos _ Hd), (Hpos _ Hi),
      (Hneg _ Ha).
    reflexivity.
  - intros Hh Hp Hd Hi Ha. unfold construct.
    destruct (validateConfig c) as [message|c'] eqn:E.
    + exfalso. revert E. unfold validateConfig.
      rewrite (host_check_passes c Hh), (Hport _ Hp), (Hpos _ Hd), (Hpos _ Hi),
        (Hpos _ Ha).
      destruct (enableTransfer c); [|discriminate].
      destruct (transferType c); [destruct (negb _)|]; discriminate.
    + exists (mkAttacker c' false 0 0 0 0 0 false). split; [reflexivity|].
      cbn [config]. apply validateConfig_keeps. exact E.
Qed.

(** C4, witness: the construction succeeds and keeps the window scale. *)
Lemma construct_validates_witness :
  match construct wideScale with
  | inr a => windowScale (config a) = 7%Q
  | inl _ => False
  end.
Proof.
  destruct (construct_validates wideScale) as (_ & _ & _ & _ & _ & H).
  destruct H as (a & Ha & _ & _ & _ & _ & _ & Hw);
    [discriminate | cbn; lia | cbn; lia | cbn; lia | cbn; lia |].
  rewrite Ha. exact Hw.
Defined.

(** C4, counterexample: the window scale 7 lies outside [1,4], every
    other field is valid, and the construction succeeds. *)
Lemma construct_windowScale_counterexample :
  Qle_bool 1 (windowScale wideScale) && Qle_bool (windowScale wideScale) 4 = false
  ∧ construct wideScale
    = inr (mkAttacker
             (mkAttackConfig "127.0.0.1" 3001 60 50 8760 7 true download
                (Some "http://127.0.0.1:3001/download/xl.dat") None true)
             false 0 0 0 0 0 false).
Proof. vm_compute. auto. Qed.

(** *** Chunked download *)


Section Tiling.
Variable downloadChunk : span → bool.
Hypothesis resolves : ∀ r, downloadChunk r = true.
Variables C S : Z.
Hypothesis HC : 0 < C.



End Tiling.




(** The example of the specification: 500 MiB in chunks of 65536 bytes
    are 8000 chunks, the last one starting at byte 7999 * 65536. *)
Lemma chunk_count_500MiB :
  chunkCount 65536 (500 * 1024 * 1024) = 8000
  ∧ chunk 65536 (500 * 1024 * 1024) 7999 = (7999 * 65536, 524288000 - 1).
Proof. vm_compute. auto. Qed.

(** *** A chunk request that fails *)

Section Failure.
Variable downloadChunk : span → bool.
Variables C S k0 : Z.
Hypothesis HC : 0 < C.
Hypothesis Hk0 : 0 <= k0.
Hypothesis Hlast : k0 * C < S.
Hypothesis resolves : ∀ i, 0 <= i < k0 → downloadChunk (chunk C S i) = true.
Hypothesis rejects : downloadChunk (chunk C S k0) = false.

Lemma chunkLoop_fails (m : nat) :
  ∀ k fuel, 0 <= k → k0 - k = Z.of_nat m → (m < fuel)%nat →
    chunkLoop downloadChunk fuel C S (k * C)
    = Failed (chunk C S <$> seqZ k (Z.of_nat m + 1)).
Proof.
  induction m as [|m IH]; intros k fuel Hk Hrem Hfuel.
  - destruct fuel as [|fuel]; [lia|].
    assert (k = k0) by lia. subst k.
    cbn [chunkLoop].
    replace (k0 * C <? S) with true by (symmetry; apply Z.ltb_lt; exact Hlast).
    fold (chunk C S k0). rewrite rejects. reflexivity.
  - destruct fuel as [|fuel]; [lia|].
    assert (Hlt : (k + 1) * C < S) by nia.
    cbn [chunkLoop].
    replace (k * C <? S) with true by (symmetry; apply Z.ltb_lt; nia).
    fold (chunk C S k). rewrite resolves by lia.
    replace (Z.min (k * C + C - 1) (S - 1) + 1) with (Z.succ k * C) by lia.
    rewrite (IH (Z.succ k) fuel) by lia.
    rewrite (seqZ_cons k) by lia. cbn [fmap list_fmap issue].
    repeat f_equal. lia.
Qed.
End Failure.

(** X23.  When the requests for the first [k] chunks resolve and the
    request for the next chunk is rejected, the chunked download ends with
    an error after exactly these [k + 1] requests: no chunk is retried,
    and no chunk after the rejected one is asked for. *)
Theorem chunked_download_stops_at_failure downloadChunk cfg S k :
  0 <= k →
  k * Z.max (ackAdvanceSize cfg) 65536 < S →
  (∀ i, 0 <= i < k →
        downloadChunk (chunk (Z.max (ackAdvanceSize cfg) 65536) S i) = true) →
  downloadChunk (chunk (Z.max (ackAdvanceSize cfg) 65536) S k) = false →
  performChunkedDownload downloadChunk cfg S
  = Failed (chunk (Z.max (ackAdvanceSize cfg) 65536) S <$> seqZ 0 (k + 1)).
Proof.
  intros Hk Hlast Hres Hrej. unfold performChunkedDownload.
  set (C := Z.max (ackAdvanceSize cfg) 65536) in *.
  assert (HC : 0 < C) by (unfold C; lia).
  pose proof (chunkLoop_fails downloadChunk C S k HC Hk Hlast Hres Hrej
                (Z.to_nat k) 0 (Z.to_nat S)) as H.
  change (0 * C) with 0 in H. rewrite Z2Nat.id in H by lia.
  apply H; [lia | lia | nia].
Qed.

(** X23, witness: 200000 bytes, the requests from offset 131072 on
    rejected. *)
Lemma chunked_download_stops_at_failure_witness :
  performChunkedDownload (fun r => r.1 <? 131072) wideScale 200000
  = Failed [(0, 65535); (65536, 131071); (131072, 196607)].
Proof.
  rewrite (chunked_download_stops_at_failure (fun r => r.1 <? 131072) wideScale 200000 2).
  - reflexivity.
  - lia.
  - cbn. lia.
  - intros i Hi. assert (i = 0 ∨ i = 1) as [-> | ->] by lia; reflexivity.
  - reflexivity.
Defined.

(** *** The optimistic ACKs *)

Lemma sendOptimisticACK_frame rdy endpoint rp snt a :
  config (sendOptimisticACK rdy endpoint rp snt a).1 = config a
  ∧ transferActive (sendOptimisticACK rdy endpoint rp snt a).1 = transferActive a
  ∧ sequenceNumber (sendOptimisticACK rdy endpoint rp snt a).1 = sequenceNumber a.
Proof. unfold sendOptimisticACK. destruct rdy; repeat split; reflexivity. Qed.

Lemma ackAdvancement_frame rdy endpoint rp snt a :
  ackAdvancement (sendOptimisticACK rdy endpoint rp snt a).1 = ackAdvancement a.
Proof. unfold sendOptimisticACK. destruct rdy; reflexivity. Qed.

Lemma setTransferActive_same a : setTransferActive (transferActive a) a = a.
Proof. destruct a. reflexivity. Qed.

(** X24.  As long as the transfer flag keeps its value, the ACK numbers
    of the packets the attack loop hands to the socket form an arithmetic
    progression: the [n]-th packet acknowledges [n] times the advancement
    ([ackAdvanceSize], or at least 32 KiB during a streaming transfer)
    beyond the initial ACK number, whether or not the earlier sends
    succeeded; a tick on which the socket is not ready sends nothing and
    advances nothing; [packetsPressed] and [successfulAcks] count the
    sends that succeeded, and move together. *)
Theorem optimistic_acks_advance ticks endpoint rp a :
  Forall (λ t, active t = transferActive a) ticks →
  PacketCrafter.ackNumber <$> (sendAll ticks endpoint rp a).2
  = (λ n, ackNumber a + n * ackAdvancement a)
      <$> seqZ 1 (Z.of_nat (List.length (List.filter ready ticks)))
  ∧ ackNumber (sendAll ticks endpoint rp a).1
    = ackNumber a + Z.of_nat (List.length (List.filter ready ticks)) * ackAdvancement a
  ∧ packetsPressed (sendAll ticks endpoint rp a).1
    = packetsPressed a
      + Z.of_nat (List.length (List.filter (λ t, ready t && sent t) ticks))
  ∧ successfulAcks (sendAll ticks endpoint rp a).1 - successfulAcks a
    = packetsPressed (sendAll ticks endpoint rp a).1 - packetsPressed a.
Proof.
  revert a. induction ticks as [|[rdy act snt] rest IH]; intros a Hact.
  - cbn. repeat split; lia.
  - inversion_clear Hact as [|? ? Hnow Hrest]. cbn [active] in Hnow. subst act.
    cbn [sendAll ready active sent List.filter]. rewrite setTransferActive_same.
    pose proof (ackAdvancement_frame rdy endpoint rp snt a) as Hadv.
    pose proof (sendOptimisticACK_frame rdy endpoint rp snt a) as (_ & Hflag & _).
    rewrite <- Hflag in Hrest.
    destruct (IH (sendOptimisticACK rdy endpoint rp snt a).1 Hrest)
      as (IH1 & IH2 & IH3 & IH4).
    rewrite Hadv in IH1, IH2.
    destruct (sendOptimisticACK rdy endpoint rp snt a) as [a1 packet] eqn:E.
    cbn [fst snd] in *.
    destruct (sendAll rest endpoint rp a1) as [a2 packets]. cbn [fst snd] in *.
    unfold sendOptimisticACK in E. destruct rdy; cbn [negb andb] in *.
    + injection E as <- <-. cbn [ackNumber packetsPressed successfulAcks] in *.
      cbn [List.length fmap list_fmap PacketCrafter.createOptimisticACKPacket
           PacketCrafter.ackNumber].
      rewrite seqZ_cons by lia. cbn [fmap list_fmap].
      replace (Z.pred (Z.of_nat (Datatypes.S (List.length (List.filter ready rest)))))
        with (Z.of_nat (List.length (List.filter ready rest))) by lia.
      split; [|split; [|split]].
      * f_equal; [lia|]. rewrite IH1.
        rewrite <- (fmap_add_seqZ 1 1), <- list_fmap_compose.
        apply list_fmap_ext. intros _ n _. cbn. lia.
      * rewrite IH2. lia.
      * rewrite IH3. destruct snt; cbn [List.length]; lia.
      * destruct snt; lia.
    + injection E as <- <-. repeat split; assumption.
Qed.

(** X24, witness: three ticks of a download, the second send failing. *)
Lemma optimistic_acks_advance_witness :
  PacketCrafter.ackNumber <$>
    (sendAll [mkTick true false true; mkTick true false false; mkTick true false true]
       ("10.0.0.5", 40000) 20000 (mkAttacker wideScale true 7 1 0 0 0 false)).2
  = [8761; 17521; 26281].
Proof.
  destruct (optimistic_acks_advance
              [mkTick true false true; mkTick true false false; mkTick true false true]
              ("10.0.0.5", 40000) 20000 (mkAttacker wideScale true 7 1 0 0 0 false))
    as (H & _); [repeat constructor|].
  rewrite H. reflexivity.
Defined.

Lemma Qmin'_le_l a b : (DefenseSystem.Qmin' a b <= a)%Q.
Proof.
  unfold DefenseSystem.Qmin'. destruct (Qle_bool a b) eqn:E; [apply Qle_refl|].
  apply Qlt_le_weak, Qnot_le_lt. intros H. apply Qle_bool_iff in H. congruence.
Qed.

Lemma Qmin'_glb c a b : (c <= a)%Q → (c <= b)%Q → (c <= DefenseSystem.Qmin' a b)%Q.
Proof. intros Ha Hb. unfold DefenseSystem.Qmin'. destruct (Qle_bool a b); assumption. Qed.

Lemma Qscale_up w z : (0 < w)%Q → (1 <= z)%Q → (w <= w * z)%Q.
Proof.
  intros Hw Hz. rewrite <- (Qmult_1_r w) at 1. apply Qmult_le_l; assumption.
Qed.

Lemma advertisedWindow_bounds a :
  (32768 <= advertisedWindow a)%Q ∧ (advertisedWindow a <= 65535)%Q.
Proof.
  unfold advertisedWindow.
  set (w := if DefenseSystem.Qgtb (windowScale (config a)) 1 then _ else _).
  assert (Hw : (32768 <= w)%Q ∧ (w <= 65535)%Q).
  { subst w. unfold DefenseSystem.Qgtb.
    destruct (Qle_bool (windowScale (config a)) 1) eqn:E; cbn [negb].
    - split; [apply Qle_refl | discriminate].
    - split; [|apply Qmin'_le_l].
      apply Qmin'_glb; [discriminate|].
      apply Qscale_up; [reflexivity|].
      apply Qlt_le_weak, Qnot_le_lt. intros H. apply Qle_bool_iff in H. congruence. }
  destruct Hw as [Hlo Hhi].
  destruct (transferActive a); [|split; assumption].
  destruct (transferType (config a)).
  - split; [|apply Qmin'_le_l].
    apply Qmin'_glb; [discriminate|].
    apply Qle_trans with w; [exact Hlo|].
    apply Qscale_up; [|discriminate].
    apply Qlt_le_trans with 32768%Q; [reflexivity | exact Hlo].
  - split; [discriminate | apply Qle_refl].
Qed.

(** X25.  Every packet of the attack loop advertises a window between
    32768 and 65535, whatever the window scale of the configuration (which
    the constructor does not validate) and whether or not a transfer is
    active; it carries the ACK flag alone and the sequence number the
    orchestrator started with. *)
Theorem advertised_window_within_bounds ticks endpoint rp a :
  Forall (λ p, (32768 <= PacketCrafter.windowSize p)%Q
               ∧ (PacketCrafter.windowSize p <= 65535)%Q
               ∧ PacketCrafter.flags p
                 = PacketCrafter.mkTCPFlags false false false false true false false false
               ∧ PacketCrafter.sequenceNumber p = sequenceNumber a)
         (sendAll ticks endpoint rp a).2.
Proof.
  revert a. induction ticks as [|[rdy act snt] rest IH]; intros a; [constructor|].
  cbn [sendAll ready active sent].
  pose proof (sendOptimisticACK_frame rdy endpoint rp snt (setTransferActive act a))
    as (_ & _ & Hseq).
  cbn [setTransferActive sequenceNumber] in Hseq.
  specialize (IH (sendOptimisticACK rdy endpoint rp snt (setTransferActive act a)).1).
  rewrite Hseq in IH.
  pose proof (advertisedWindow_bounds (setTransferActive act a)) as [Hlo Hhi].
  destruct (sendOptimisticACK rdy endpoint rp snt (setTransferActive act a))
    as [a1 packet] eqn:E.
  cbn [fst snd] in *.
  destruct (sendAll rest endpoint rp a1) as [a2 packets]. cbn [fst snd] in *.
  unfold sendOptimisticACK in E. destruct rdy; cbn [negb] in E;
    injection E as <- <-; [|exact IH].
  constructor; [|exact IH]. cbn. auto.
Qed.

(** *** Validation, again *)

(** X26.  A validated configuration is a fixed point of
    [validateConfig]: the transfer options it fills in are left as they
    are when the result is validated again. *)
Theorem validateConfig_idempotent c c' :
  validateConfig c = inr c' → validateConfig c' = inr c'.
Proof.
  intros H. pose proof H as H0. unfold validateConfig in H.
  destruct (negb (JS.str_truthy (targetHost c)) || _) eqn:E1; [discriminate|].
  destruct ((targetPort c <=? 0) || _) eqn:E2; [discriminate|].
  destruct (attackDuration c <=? 0) eqn:E3; [discriminate|].
  destruct (packetInterval c <=? 0) eqn:E4; [discriminate|].
  destruct (ackAdvanceSize c <=? 0) eqn:E5; [discriminate|].
  assert (Hchecks : ∀ url sid,
            validateConfig (withTransfer url sid c)
            = if enableTransfer c then
                match transferType c with
                | download =>
                    if negb (present url)
                    then inr (withTransfer
                                (Some (baseUrl c +:+ "/download/xl.dat")) sid
                                (withTransfer url sid c))
                    else inr (withTransfer url sid c)
                | streaming =>
                    inr (withTransfer
                           (Some (baseUrl c +:+ "/stream/" +:+
                                  (if negb (present sid) then "demo-stream"
                                   else default "" sid) +:+ "/playlist.m3u8"))
                           (Some (if negb (present sid) then "demo-stream"
                                  else default "" sid))
                           (withTransfer url sid c))
                end
              else inr (withTransfer url sid c)).
  { intros url sid. unfold validateConfig. cbn [withTransfer targetHost targetPort
      attackDuration packetInterval ackAdvanceSize enableTransfer transferType
      transferUrl streamId]. rewrite E1, E2, E3, E4, E5. reflexivity. }
  assert (Hsame : withTransfer (transferUrl c) (streamId c) c = c) by (destruct c; reflexivity).
  destruct (enableTransfer c) eqn:Et.
  - destruct (transferType c) eqn:Ety.
    + destruct (negb (present (transferUrl c))) eqn:Ep.
      * injection H as <-. rewrite Hchecks, ?Et, ?Ety. reflexivity.
      * injection H as <-. exact H0.
    + injection H as <-. rewrite Hchecks, ?Et, ?Ety.
      assert (Hp : present (Some (if negb (present (streamId c)) then "demo-stream"
                                  else default "" (streamId c))) = true).
      { destruct (streamId c) as [[|x s]|]; reflexivity. }
      rewrite Hp. cbn [negb default id]. reflexivity.
  - injection H as <-. exact H0.
Qed.

(** X26, witness: the configuration filled in for a download. *)
Lemma validateConfig_idempotent_witness :
  validateConfig
    (mkAttackConfig "127.0.0.1" 3001 60 50 8760 7 true download
       (Some "http://127.0.0.1:3001/download/xl.dat") None true)
  = inr (mkAttackConfig "127.0.0.1" 3001 60 50 8760 7 true download
           (Some "http://127.0.0.1:3001/download/xl.dat") None true).
Proof.
  apply (validateConfig_idempotent wideScale). vm_compute. reflexivity.
Defined.

End AttackerFacts.

(** ** Streaming Server *)

Module StreamingServerFacts.
Import StreamingServer.

(** *** The playlist *)

Lemma fold_entries segments acc :
  fold_left
    (fun playlist segment => playlist +:+ "#EXTINF:10.0," +:+ nl +:+ segment +:+ nl)
    segments acc
  = acc +:+ entries segments.
Proof.
  revert acc. induction segments as [|s rest IH]; intros acc; cbn [fold_left entries].
  - rewrite JSFacts.append_empty_r. reflexivity.
  - rewrite IH. rewrite !JSFacts.append_assoc. reflexivity.
Qed.

Lemma generateHLSPlaylist_some streamId fs listing :
  streams fs !! streamId = Some listing →
  generateHLSPlaylist streamId fs
  = playlistHeader +:+ entries (segmentsOf listing) +:+ "#EXT-X-ENDLIST".
Proof.
  intros H. unfold generateHLSPlaylist. rewrite H, fold_entries, JSFacts.append_assoc.
  reflexivity.
Qed.

Lemma split_header rest :
  JS.split Attacker.newline (playlistHeader +:+ rest)
  = headerLines ++ JS.split Attacker.newline rest.
Proof.
  change (playlistHeader +:+ rest)
    with ("#EXTM3U" +:+ String Attacker.newline
           ("#EXT-X-VERSION:3" +:+ String Attacker.newline
             ("#EXT-X-TARGETDURATION:10" +:+ String Attacker.newline
               ("#EXT-X-MEDIA-SEQUENCE:0" +:+ String Attacker.newline rest)))).
  rewrite !JSFacts.split_field by reflexivity. reflexivity.
Qed.

Lemma split_entries segments rest :
  Forall (fun s => noNewline s = true) segments →
  JS.split Attacker.newline (entries segments +:+ rest)
  = entryLines segments ++ JS.split Attacker.newline rest.
Proof.
  induction 1 as [|s segs Hs _ IH]; [reflexivity|].
  cbn [entries entryLines flat_map].
  change ("#EXTINF:10.0," +:+ nl +:+ s +:+ nl +:+ entries segs)
    with ("#EXTINF:10.0," +:+ String Attacker.newline
           (s +:+ String Attacker.newline (entries segs))).
  rewrite JSFacts.append_assoc.
  change (String Attacker.newline (s +:+ String Attacker.newline (entries segs)) +:+ rest)
    with (String Attacker.newline
            ((s +:+ String Attacker.newline (entries segs)) +:+ rest)).
  rewrite JSFacts.split_field by reflexivity.
  rewrite JSFacts.append_assoc.
  change (String Attacker.newline (entries segs) +:+ rest)
    with (String Attacker.newline (entries segs +:+ rest)).
  rewrite JSFacts.split_field by exact Hs.
  rewrite IH. reflexivity.
Qed.

Lemma parseLines_app l1 l2 : parseLines (l1 ++ l2) = parseLines l1 ++ parseLines l2.
Proof. unfold parseLines. rewrite List.filter_app, List.map_app. reflexivity. Qed.

Lemma parseLines_entries segments :
  Forall (fun s => plainName s = true ∧ JS.str_truthy s = true) segments →
  parseLines (entryLines segments) = segments.
Proof.
  induction 1 as [|s segs [Hs Ht] _ IH]; [reflexivity|].
  unfold plainName in Hs.
  apply andb_true_iff in Hs. destruct Hs as [Hs Hhash].
  apply andb_true_iff in Hs. destruct Hs as [_ Htrim].
  apply String.eqb_eq in Htrim.
  cbn [entryLines flat_map].
  change (["#EXTINF:10.0,"; s] ++ flat_map (λ segment, ["#EXTINF:10.0,"; segment]) segs)
    with ("#EXTINF:10.0," :: s :: entryLines segs).
  unfold parseLines in *. cbn [List.filter].
  replace (JS.str_truthy (JS.trim "#EXTINF:10.0,")
           && negb (JS.startsWith "#EXTINF:10.0," "#")) with false by reflexivity.
  rewrite Htrim, Ht, Hhash. cbn [andb List.map]. rewrite Htrim, IH. reflexivity.
Qed.

Lemma endsWith_nonempty s : JS.endsWith s ".ts" = true → JS.str_truthy s = true.
Proof. destruct s; [discriminate | reflexivity]. Qed.

Lemma segmentsOf_In listing name :
  In name (segmentsOf listing) → In name listing ∧ JS.endsWith name ".ts" = true.
Proof.
  intros H.
  apply (proj1 (filter_In (fun f => JS.endsWith f ".ts") name listing)).
  eapply Permutation_in; [|exact H].
  unfold segmentsOf. apply merge_sort_Permutation.
Qed.

(** C8 (as amended).  For a non-existent stream directory the playlist
    is the four header lines plus #EXT-X-ENDLIST and parses to the empty
    list.  For a directory whose .ts file names hold no line feed, have
    no white space at either end and do not start with '#' (such as
    segment000.ts), the segments are the .ts names of the directory in
    sorted order, the lines of the playlist are the four header lines,
    then for each segment in that order the line #EXTINF:10.0, followed
    by the name, then #EXT-X-ENDLIST, and the orchestrator's parser
    gives back exactly the sorted segment names. *)
Theorem playlist_round_trip streamId fs :
  (streams fs !! streamId = None →
     JS.split Attacker.newline (generateHLSPlaylist streamId fs)
     = headerLines ++ ["#EXT-X-ENDLIST"]
     ∧ Attacker.parsePlaylist (generateHLSPlaylist streamId fs) = [])
  ∧ (∀ listing,
       streams fs !! streamId = Some listing →
       (∀ name, In name listing → JS.endsWith name ".ts" = true →
                plainName name = true) →
       Sorted String.le (segmentsOf listing)
       ∧ segmentsOf listing ≡ₚ List.filter (fun f => JS.endsWith f ".ts") listing
       ∧ JS.split Attacker.newline (generateHLSPlaylist streamId fs)
         = headerLines ++ entryLines (segmentsOf listing) ++ ["#EXT-X-ENDLIST"]
       ∧ Attacker.parsePlaylist (generateHLSPlaylist streamId fs) = segmentsOf listing).
Proof.
  split.
  - intros H. unfold generateHLSPlaylist. rewrite H. split; reflexivity.
  - intros listing H Hplain.
    assert (Hsegs : Forall (fun s => plainName s = true ∧ JS.str_truthy s = true)
                      (segmentsOf listing)).
    { apply List.Forall_forall. intros s Hs.
      apply segmentsOf_In in Hs. destruct Hs as [Hin Hts].
      split; [apply Hplain; assumption | apply endsWith_nonempty; exact Hts]. }
    assert (Hnl : Forall (fun s => noNewline s = true) (segmentsOf listing)).
    { eapply List.Forall_impl; [|exact Hsegs]. intros s [Hs _].
      unfold plainName in Hs. apply andb_true_iff in Hs. destruct Hs as [Hs _].
      apply andb_true_iff in Hs. tauto. }
    assert (Hlines : JS.split Attacker.newline (generateHLSPlaylist streamId fs)
              = headerLines ++ entryLines (segmentsOf listing) ++ ["#EXT-X-ENDLIST"]).
    { rewrite (generateHLSPlaylist_some _ _ _ H), split_header,
        (split_entries _ _ Hnl).
      reflexivity. }
    split; [apply Sorted_merge_sort; apply _|].
    split; [apply merge_sort_Permutation|].
    split; [exact Hlines|].
    unfold Attacker.parsePlaylist. fold (parseLines (JS.split Attacker.newline
      (generateHLSPlaylist streamId fs))).
    rewrite Hlines, !parseLines_app, (parseLines_entries _ Hsegs).
    replace (parseLines headerLines) with (@nil string) by reflexivity.
    replace (parseLines ["#EXT-X-ENDLIST"]) with (@nil string) by reflexivity.
    cbn [app]. apply app_nil_r.
Qed.

(** C8, witness: the playlist of the demo stream parses to its three
    segments in order. *)
Lemma playlist_round_trip_witness :
  Attacker.parsePlaylist (generateHLSPlaylist "demo-stream" demoFiles)
  = ["segment000.ts"; "segment001.ts"; "segment002.ts"].
Proof.
  destruct (playlist_round_trip "demo-stream" demoFiles) as [_ H].
  destruct (H ["segment002.ts"; "notes.txt"; "segment000.ts"; "segment001.ts"])
    as (_ & _ & _ & Hparse).
  - vm_compute. reflexivity.
  - intros name Hin Hts.
    repeat (destruct Hin as [<-|Hin]; [try reflexivity; discriminate Hts|]).
    destruct Hin.
  - rewrite Hparse. vm_compute. reflexivity.
Defined.

(** C8, counterexample: the directory holds the .ts files segment000.ts
    and #intro.ts; both are segments of the playlist, and the parser
    gives back only one of them. *)
Lemma playlist_round_trip_counterexample :
  segmentsOf ["segment000.ts"; "#intro.ts"] = ["#intro.ts"; "segment000.ts"]
  ∧ JS.split Attacker.newline (generateHLSPlaylist "odd-stream" demoFiles)
    = headerLines ++ ["#EXTINF:10.0,"; "#intro.ts"; "#EXTINF:10.0,"; "segment000.ts";
                      "#EXT-X-ENDLIST"]
  ∧ Attacker.parsePlaylist (generateHLSPlaylist "odd-stream" demoFiles)
    = ["segment000.ts"].
Proof. vm_compute. auto. Qed.

(** *** Range requests *)

Import SecurityMiddleware.

(** The options [fs.createReadStream] accepts: two integers in order,
    from 0 to [Number.MAX_SAFE_INTEGER]. *)
Lemma createReadStream_accepts start end_ :
  Node.createReadStream start end_ = true
  ↔ ∃ s e, start = JS.Int s ∧ end_ = JS.Int e
           ∧ 0 <= s ∧ s <= e ∧ e <= JS.maxSafeInteger.
Proof.
  unfold Node.createReadStream, Node.validateInteger, JS.num_gt. split.
  - destruct start as [|s], end_ as [|e]; cbn; try discriminate;
      rewrite ?andb_false_r; try discriminate.
    intros Hok. exists s, e.
    repeat match goal with
           | H : _ && _ = true |- _ =>
               let H1 := fresh in
               let H2 := fresh in
               apply andb_true_iff in H; destruct H as [H1 H2]
           | H : negb _ = true |- _ => apply negb_true_iff in H
           end.
    repeat split; lia.
  - intros (s & e & -> & -> & H0 & Hse & He).
    repeat (apply andb_true_iff; split); try apply negb_true_iff; lia.
Qed.



(** The handler on the header [downloadChunk] sends for a span. *)
Lemma handleRangeRequest_span path size a b :
  0 <= a <= JS.maxSafeInteger → 0 <= b <= JS.maxSafeInteger →
  handleRangeRequest path size (Attacker.rangeHeader (a, b))
  = if a <=? b then
      Sent
        (mkResponse 206
           [("Content-Range",
             "bytes " +:+ JS.Z_to_string a +:+ "-" +:+ JS.Z_to_string b +:+
             "/" +:+ JS.Z_to_string size);
            ("Accept-Ranges", "bytes");
            ("Content-Length", JS.Z_to_string (b - a + 1));
            ("Content-Type", "application/octet-stream")]
           (FileRange path (JS.Int a) (JS.Int b)))
    else Thrown.
Proof.
  intros Ha Hb. unfold handleRangeRequest.
  rewrite (SecurityMiddlewareFacts.rangeHeader_fields a b) by lia.
  cbn [hd lookup list_lookup].
  rewrite JSFacts.Z_to_string_nonempty, !JSFacts.parseInt_Z_to_string.
  cbv zeta.
  destruct (Z.leb_spec a b).
  - replace (Node.createReadStream (JS.Int a) (JS.Int b)) with true; [reflexivity|].
    symmetry. apply createReadStream_accepts. exists a, b. repeat split; lia.
  - replace (Node.createReadStream (JS.Int a) (JS.Int b)) with false; [reflexivity|].
    symmetry. apply not_true_is_false. intros Hok.
    apply createReadStream_accepts in Hok.
    destruct Hok as (s & e & Hs & He & ?). injection Hs as <-. injection He as <-. lia.
Qed.








(** Without the browser token the middleware rejects the reversed
    range before the handler is reached. *)
Lemma range_reversed_rejected_example :
  (downloadRoute
     (mkRequest {[ "user-agent" := "chunk-client/1.0"; "range" := "bytes=500-100" ]}
        "10.0.0.5" "10.0.0.5" "xl.dat" "" "")
     demoFiles 5 [] mediumServer).1
  = Sent (mkResponse 403 securityHeaders
            (SecurityViolation "Attack blocked: Abnormal Range request pattern detected" 5)).
Proof. vm_compute. reflexivity. Qed.

(** *** Chunk requests *)

(** X27.  The range handler reads the Range header of
    [downloadChunk] back: for a span from [a] to [b], two safe integers,
    it answers 206 with exactly these offsets in Content-Range and in the
    stream, and Content-Length [b - a + 1], when [a <= b]; for a span
    with [b < a] it throws after [writeHead], and no response is sent. *)
Theorem range_request_round_trip path size a b :
  0 <= a <= JS.maxSafeInteger → 0 <= b <= JS.maxSafeInteger →
  handleRangeRequest path size (Attacker.rangeHeader (a, b))
  = if a <=? b then
      Sent
        (mkResponse 206
           [("Content-Range",
             "bytes " +:+ JS.Z_to_string a +:+ "-" +:+ JS.Z_to_string b +:+
             "/" +:+ JS.Z_to_string size);
            ("Accept-Ranges", "bytes");
            ("Content-Length", JS.Z_to_string (b - a + 1));
            ("Content-Type", "application/octet-stream")]
           (FileRange path (JS.Int a) (JS.Int b)))
    else Thrown.
Proof. exact (handleRangeRequest_span path size a b). Qed.

(** X27, witness: the first 64 KiB of a file are served, the span from
    5 to 0 is not. *)
Lemma range_request_round_trip_witness :
  (match handleRangeRequest "data/files/xl.dat" 1000 (Attacker.rangeHeader (0, 65535)) with
   | Sent r => resHeader "Content-Length" r
   | Thrown => None
   end) = Some "65536"
  ∧ handleRangeRequest "data/files/xl.dat" 1000 (Attacker.rangeHeader (5, 0)) = Thrown.
Proof.
  split.
  - rewrite (range_request_round_trip "data/files/xl.dat" 1000 0 65535)
      by (unfold JS.maxSafeInteger; lia).
    reflexivity.
  - rewrite (range_request_round_trip "data/files/xl.dat" 1000 5 0)
      by (unfold JS.maxSafeInteger; lia).
    reflexivity.
Defined.


Lemma chunkRequest_range addr name active r :
  header "range" (chunkRequest addr name active r) = Attacker.rangeHeader r.
Proof. reflexivity. Qed.






(** *** The playlist and the directory listing *)

(** X29.  The playlist of a stream depends on the [.ts] entries of its
    directory only: neither the order in which the directory is listed nor
    the other files in it change the playlist. *)
Theorem playlist_ignores_listing_order streamId fs fs' listing listing' :
  streams fs !! streamId = Some listing →
  streams fs' !! streamId = Some listing' →
  List.filter (fun file => JS.endsWith file ".ts") listing
    ≡ₚ List.filter (fun file => JS.endsWith file ".ts") listing' →
  generateHLSPlaylist streamId fs = generateHLSPlaylist streamId fs'.
Proof.
  intros H1 H2 Hp. unfold generateHLSPlaylist. rewrite H1, H2.
  replace (segmentsOf listing') with (segmentsOf listing); [reflexivity|].
  unfold segmentsOf.
  apply (Sorted_unique String.le).
  - apply Sorted_merge_sort, _.
  - apply Sorted_merge_sort, _.
  - rewrite !merge_sort_Permutation. exact Hp.
Qed.
(** X29, witness: the listing of the example, out of order and with a
    text file, and the sorted listing of its three segments. *)
Lemma playlist_ignores_listing_order_witness :
  generateHLSPlaylist "demo-stream" demoFiles
  = generateHLSPlaylist "demo-stream" demoFilesSorted.
Proof.
  apply (playlist_ignores_listing_order "demo-stream" demoFiles demoFilesSorted
           ["segment002.ts"; "notes.txt"; "segment000.ts"; "segment001.ts"]
           ["segment000.ts"; "segment001.ts"; "segment002.ts"]);
    [vm_compute; reflexivity | vm_compute; reflexivity |].
  vm_compute.
  etrans; [apply Permutation_swap|]. apply Permutation_skip, Permutation_swap.
Defined.

End StreamingServerFacts.
(** ** Command line of the server *)

Module AppFacts.
Import App.

(** The options keep the result consistent. *)
Lemma setDefense_consistent v result : consistent result → consistent (setDefense v result).
Proof.
  intros [Hp Hd]. unfold setDefense. destruct v as [v|]; [|split; assumption].
  destruct (_ || _); [split; [exact Hp | reflexivity]|].
  destruct (_ || _); [split; [exact Hp | discriminate] | split; assumption].
Qed.

Lemma setMode_consistent v result : consistent result → consistent (setMode v result).
Proof.
  intros [Hp Hd]. unfold setMode. destruct (v ≫= readMode) as [m|]; [|split; assumption].
  split; [exact Hp|]. cbn. destruct m; (discriminate || reflexivity).
Qed.

Lemma setPort_consistent v result : consistent result → consistent (setPort v result).
Proof.
  intros [Hp Hd]. unfold setPort. destruct v as [v|]; [|split; assumption].
  destruct (JS.parseIntAuto v) as [|p]; [split; assumption|].
  destruct (Z.ltb_spec 0 p); cbn [andb]; [|split; assumption].
  destruct (Z.leb_spec p 65535); [|split; assumption].
  split; [cbn; lia | exact Hd].
Qed.

Lemma parseLoop_consistent (n : nat) :
  ∀ args result, (List.length args <= n)%nat →
                 consistent result → consistent (parseLoop args result).
Proof.
  induction n as [|n IH]; intros args result Hlen Hr.
  - destruct args; [exact Hr | cbn in Hlen; lia].
  - destruct args as [|arg rest]; [exact Hr|]. cbn [List.length] in Hlen.
    cbn [parseLoop].
    assert (Hrest : ∀ r, consistent r → consistent (parseLoop rest r))
      by (intros r; apply IH; lia).
    assert (Hskip : ∀ (f : option string → CLIArgs → CLIArgs),
              (∀ v r, consistent r → consistent (f v r)) →
              consistent match rest with
                         | [] => f None result
                         | v :: rest' => parseLoop rest' (f (Some v) result)
                         end).
    { intros f Hf. destruct rest as [|v rest']; [apply Hf, Hr|].
      apply IH; [cbn [List.length] in Hlen; lia | apply Hf, Hr]. }
    destruct (_ || _); [apply Hskip, setDefense_consistent|].
    destruct (_ || _); [apply Hskip, setMode_consistent|].
    destruct (_ || _); [apply Hskip, setPort_consistent|].
    destruct (_ || _); [apply Hrest; destruct Hr; split; assumption|].
    destruct (String.eqb arg "--no-defense");
      [apply Hrest; destruct Hr as [Hp _]; split; [exact Hp | reflexivity]|].
    apply Hrest, Hr.
Qed.

(** X30.  Whatever the command line, [parseArgs] returns a port between 1
    and 65535 (a value that does not parse, or lies outside, leaves the
    port as it was), and a result with the defense disabled has defense
    mode [off]. *)
Theorem parseArgs_consistent args :
  1 <= port (parseArgs args) <= 65535
  ∧ (defense (parseArgs args) = false → defenseMode (parseArgs args) = StreamingServer.off).
Proof.
  apply (parseLoop_consistent (List.length args) args defaults); [lia|].
  split; [cbn; lia | discriminate].
Qed.
End AppFacts.
